(** * Dungeon Escape: navigation and turn resolution

    A shallow embedding of the game core of the repository: the console
    build ([nogui.cpp], module [Console]) and the SFML build (module [Gui];
    its two copies in the repository have the same game logic).

    Conventions of the embedding.
    - A C++ [int] is a [Z].  In a game every counter stays between -1 and
      100 ([console_game_ok], [gui_loop_ok]), far from the limits of [int],
      whose overflow is undefined in C++ and is left outside the model.  A
      statement about any player, any amount or any number read therefore
      carries the hypotheses that keep the values inside [int] ([isInt],
      [intMax]); the statements about whole games need none.
    - A [const Room*] is the position of the pointed catalog entry
      ([Some i] for [rooms[i].get()], [None] for [nullptr]): the catalog owns
      one [Room] per position and never changes after construction, so two
      such pointers are equal exactly when the positions are.
    - A [std::stack] and a [std::list] are lists; the top of the stack is the
      head of the list.
    - Dereferencing [nullptr] and a thrown exception are [None].
    - Console output is left out, except for the game-over messages of the
      SFML build and the player whose statistics are reported.
    - The window of the SFML build (module [Screen]) is driven by the events
      [pollEvent] returns, iteration by iteration; drawing is left out, and
      where the buttons are on the screen is left open. *)

From Stdlib Require Import ZArith List String Ascii Bool Lia.
From Stdlib Require Import Sorting.Sorted Sorting.Permutation.
Import ListNotations.

Local Open Scope string_scope.
Local Open Scope Z_scope.

(** ** The range of [int] *)

(** [INT_MIN] and [INT_MAX] of a 32-bit [int]. *)
Definition intMin : Z := -2147483648.
Definition intMax : Z := 2147483647.

(** The values an [int] holds. *)
Definition isInt (z : Z) : Prop := intMin <= z <= intMax.

(** ** Characters, enemies, treasures, rooms *)

Record Character := mkCharacter {
  name : string;
  health : Z
}.

(** [Character::takeDamage] *)
Definition takeDamage (c : Character) (damage : Z) : Character :=
  let h := health c - damage in
  mkCharacter (name c) (if h <? 0 then 0 else h).

Record Enemy := mkEnemy {
  enemyBase : Character;
  description : string
}.

(** [Enemy::Enemy(n, desc, hr)] *)
Definition newEnemy (n desc : string) (hr : Z) : Enemy :=
  mkEnemy (mkCharacter n hr) desc.

Definition enemyName (e : Enemy) : string := name (enemyBase e).
Definition enemyHealth (e : Enemy) : Z := health (enemyBase e).

Record Treasure := mkTreasure {
  item1 : string;
  item2 : string;
  key : string
}.

Record Room := mkRoom {
  roomName : string;
  enemy : Enemy;
  treasure : Treasure;
  challenge : string
}.

(** A [const Room*] into the catalog. *)
Definition RoomPtr := option nat.

(** The five rooms both constructors of [Dungeon] create. *)
Definition baseRoom : Room :=
  mkRoom "Base" (newEnemy "Shadow Stalker" "A stealthy, dark creature." 15)
    (mkTreasure "5 Coins" "Armour" "Key1") "Collect 5 coins".

Definition bronzeRoom : Room :=
  mkRoom "Bronze" (newEnemy "Viper" "A venomous menace." 25)
    (mkTreasure "5 Coins" "Health Booster Potion" "Key2")
    "Exit the room within 5 seconds".

Definition platinumRoom : Room :=
  mkRoom "Platinum" (newEnemy "Crawler" "A fast, wall-climbing creature." 35)
    (mkTreasure "Health Booster Potion" "Armour" "Key3")
    "Defeat the enemy without armour".

Definition silverRoom : Room :=
  mkRoom "Silver" (newEnemy "Hunter" "A swift and deadly assassin." 50)
    (mkTreasure "5 Coins" "Armour" "Key4")
    "Riddle: I have no voice, but I can teach you all I know. What am I? (Answer: book)".

Definition goldRoom : Room :=
  mkRoom "Gold" (newEnemy "Boss" "The ultimate challenge." 70)
    (mkTreasure "5 Coins" "Health Booster Potion" "Key5") "Defeat the boss".

(** The catalog, in the order of the [push_back]s. *)
Definition catalog : list Room :=
  [baseRoom; bronzeRoom; platinumRoom; silverRoom; goldRoom].

(** ** The player *)

Record Player := mkPlayer {
  playerBase : Character;
  inventory : list string;
  moves : Z;
  coins : Z;
  enemiesDefeated : Z
}.

(** [Player::Player(n)] *)
Definition newPlayer (n : string) : Player :=
  mkPlayer (mkCharacter n 100) [] 10 0 0.

Definition getHealth (p : Player) : Z := health (playerBase p).
Definition getName (p : Player) : string := name (playerBase p).

Definition setBase (p : Player) (c : Character) : Player :=
  mkPlayer c (inventory p) (moves p) (coins p) (enemiesDefeated p).
Definition setInventory (p : Player) (l : list string) : Player :=
  mkPlayer (playerBase p) l (moves p) (coins p) (enemiesDefeated p).
Definition setMoves (p : Player) (m : Z) : Player :=
  mkPlayer (playerBase p) (inventory p) m (coins p) (enemiesDefeated p).

(** [takeDamage] as [Player] inherits it. *)
Definition playerTakeDamage (p : Player) (damage : Z) : Player :=
  setBase p (takeDamage (playerBase p) damage).

(** [Player::heal]; the sum is taken in [Z], which is the [int] sum of the
    source as long as that does not overflow. *)
Definition heal (p : Player) (amount : Z) : Player :=
  let h := getHealth p + amount in
  setBase p (mkCharacter (getName p) (if 100 <? h then 100 else h)).

(** [Player::addToInventory]: [push_back] of the item (the SFML build first
    streams it through a [stringstream], which leaves a string as it is). *)
Definition addToInventory (p : Player) (item : string) : Player :=
  setInventory p (inventory p ++ [item]).

(** [Player::addCoins]; the sum is taken in [Z], which is the [int] sum of
    the source as long as that does not overflow. *)
Definition addCoins (p : Player) (amount : Z) : Player :=
  mkPlayer (playerBase p) (inventory p) (moves p) (coins p + amount)
    (enemiesDefeated p).

(** [Player::incrementEnemiesDefeated] *)
Definition incrementEnemiesDefeated (p : Player) : Player :=
  mkPlayer (playerBase p) (inventory p) (moves p) (coins p)
    (enemiesDefeated p + 1).

(** ** Strings and [std::list::sort] *)

(** [operator<] of [std::string]: lexicographic, characters compared as
    unsigned bytes, a proper prefix first. *)
Fixpoint string_lt (a b : string) : bool :=
  match a, b with
  | _, EmptyString => false
  | EmptyString, String _ _ => true
  | String x a', String y b' =>
      if (N_of_ascii x <? N_of_ascii y)%N then true
      else if (N_of_ascii y <? N_of_ascii x)%N then false
      else string_lt a' b'
  end.

(** [::tolower] in the C locale. *)
Definition tolower (c : ascii) : ascii :=
  let n := N_of_ascii c in
  if ((65 <=? n) && (n <=? 90))%N then ascii_of_N (n + 32) else c.

(** [transform(a.begin(), a.end(), back_inserter(lowerA), ::tolower)] *)
Fixpoint lowered (s : string) : string :=
  match s with
  | EmptyString => EmptyString
  | String c s' => String (tolower c) (lowered s')
  end.

(** [std::list::sort(comp)] is a stable sort: the one arrangement of the
    elements that is ascending for [comp] and keeps elements that [comp]
    does not separate in their original order.  It is computed here by
    insertion from the right, each element going in front of the first one
    that is not smaller than it. *)
Section ListSort.
Context {A : Type}.
Variable comp : A -> A -> bool.

Fixpoint sort_insert (x : A) (l : list A) : list A :=
  match l with
  | [] => [x]
  | y :: l' => if comp y x then y :: sort_insert x l' else x :: y :: l'
  end.

Fixpoint list_sort (l : list A) : list A :=
  match l with
  | [] => []
  | x :: l' => sort_insert x (list_sort l')
  end.

End ListSort.

(** The position of the first catalog entry whose address is [p]: the loop
    [for (i = 0; i < count; ++i) if (rooms[i].get() == p) { ...; break; }]
    of both [backtrack]s. *)
Definition findRoom (count : nat) (p : nat) : option nat :=
  find (fun i => Nat.eqb i p) (seq 0 count).

(** What a turn tells its caller about the room pointer: [Stayed] when no
    advance was attempted, [Advanced r] with the pointer an advance
    returned. *)
Inductive Move :=
| Stayed
| Advanced (nextRoom : RoomPtr).

(** The room pointer after a move. *)
Definition moveTo (currentRoom : RoomPtr) (m : Move) : RoomPtr :=
  match m with
  | Stayed => currentRoom
  | Advanced nextRoom => nextRoom
  end.

(** How a game ends. *)
Inductive Ending :=
| Escaped
| CriticalHealth
| OutOfMoves
| QuitGame.

(** ** The console build, [nogui.cpp] *)
Module Console.

(** [Player::useMove] *)
Definition useMove (p : Player) : Player := setMoves p (moves p - 1).

(** [Player::sortInventory]: [inventory.sort()], which compares with
    [operator<]. *)
Definition sortInventory (p : Player) : Player :=
  setInventory p (list_sort string_lt (inventory p)).

Record Dungeon := mkDungeon {
  rooms : list Room;
  enemyQueue : list Enemy;
  roomStack : list nat;
  currentRoomIndex : Z
}.

(** [Dungeon::Dungeon()] *)
Definition newDungeon : Dungeon :=
  mkDungeon catalog (map enemy catalog) [] (-1).

Definition size (d : Dungeon) : Z := Z.of_nat (List.length (rooms d)).

(** [Dungeon::getCurrentRoom] *)
Definition getCurrentRoom (d : Dungeon) : RoomPtr :=
  if (0 <=? currentRoomIndex d) && (currentRoomIndex d <? size d)
  then Some (Z.to_nat (currentRoomIndex d))
  else None.

(** [Dungeon::advanceToNextRoom].  With an index below -1 the source
    subscripts the vector out of its bounds; no dungeon of a game has such
    an index (see [consoleDungeonOk]), and nothing below depends on what the
    model returns for one. *)
Definition advanceToNextRoom (d : Dungeon) : RoomPtr * Dungeon :=
  if currentRoomIndex d <? size d - 1 then
    let index := currentRoomIndex d + 1 in
    let nextRoom := Z.to_nat index in
    (Some nextRoom,
     mkDungeon (rooms d) (enemyQueue d) (nextRoom :: roomStack d) index)
  else (None, d).

(** [Dungeon::backtrack].  After the [pop] the stack still holds an element,
    because it held more than one. *)
Definition backtrack (d : Dungeon) : RoomPtr * Dungeon :=
  if (1 <? List.length (roomStack d))%nat then
    match tl (roomStack d) with
    | previousRoom :: below =>
        let index :=
          match findRoom (List.length (rooms d)) previousRoom with
          | Some i => Z.of_nat i
          | None => currentRoomIndex d
          end in
        (Some previousRoom,
         mkDungeon (rooms d) (enemyQueue d) (previousRoom :: below) index)
    | [] => (None, d)
    end
  else (None, d).

(** [*p] for a room pointer [p]. *)
Definition deref (d : Dungeon) (p : RoomPtr) : option Room :=
  match p with
  | Some i => nth_error (rooms d) i
  | None => None
  end.

(** [case 1] of [gameLoop], up to and with the call of
    [advanceToNextRoom]. *)
Definition fight (p : Player) (d : Dungeon) (currentRoom : Room)
  : Player * Dungeon * Move :=
  let enemy := enemy currentRoom in
  if enemyHealth enemy <=? getHealth p then
    let p := playerTakeDamage p (enemyHealth enemy) in
    let p := addToInventory p (item1 (treasure currentRoom)) in
    let p := addToInventory p (item2 (treasure currentRoom)) in
    let p := addCoins p 10 in
    let p := incrementEnemiesDefeated p in
    let '(nextRoom, d) := advanceToNextRoom d in
    (p, d, Advanced nextRoom)
  else (playerTakeDamage p 10, d, Stayed).

(** [case 2] of [gameLoop], up to and with the call of
    [advanceToNextRoom]. *)
Definition bypass (p : Player) (d : Dungeon) : Player * Dungeon * Move :=
  let p := playerTakeDamage p 5 in
  let '(nextRoom, d) := advanceToNextRoom d in
  (p, d, Advanced nextRoom).

(** The [switch] of [gameLoop] for a choice other than 4. *)
Definition resolve (choice : Z) (p : Player) (d : Dungeon) (currentRoom : Room)
  : Player * Dungeon * Move :=
  if choice =? 1 then fight p d currentRoom
  else if choice =? 2 then bypass p d
  else if choice =? 3 then (p, snd (backtrack d), Stayed)
  else (p, d, Stayed).

(** What [cin >> choice] reads: [Number choice] when the read succeeds and
    leaves the [int] [choice], [NotANumber] when it fails ([cin.fail()]), as
    it does on text that is no numeral and on a numeral that does not fit
    an [int]. *)
Inductive Input :=
| NotANumber
| Number (choice : Z).

(** What a call of [gameLoop] comes to: it returns after
    [displayRanking(player)], or it is at [cin >> choice] when the input
    given to the model ends, or it dereferences a null [currentRoom] to
    print the name of the room. *)
Inductive Result :=
| GameOver (e : Ending) (reported : Player) (d : Dungeon)
| AwaitingInput (p : Player) (d : Dungeon)
| NullRoom.

(** [gameLoop], recursive as in the source, over the input still to read. *)
Fixpoint gameLoop (inputs : list Input) (p : Player) (d : Dungeon) : Result :=
  if getHealth p <? 20 then GameOver CriticalHealth p d
  else if moves p <=? 0 then GameOver OutOfMoves p d
  else
    let '(currentRoom, d) :=
      match getCurrentRoom d with
      | Some r => (Some r, d)
      | None => advanceToNextRoom d
      end in
    match deref d currentRoom with
    | None => NullRoom
    | Some room =>
        match inputs with
        | [] => AwaitingInput p d
        | NotANumber :: rest => gameLoop rest p d
        | Number choice :: rest =>
            let p := useMove p in
            if choice =? 4 then GameOver QuitGame p d
            else
              let '(p, d, moved) := resolve choice p d room in
              match moved with
              | Advanced None => GameOver Escaped (sortInventory p) d
              | _ => gameLoop rest p d
              end
        end
    end.

End Console.

(** ** The SFML build *)
Module Gui.

(** [Player::useMove] *)
Definition useMove (p : Player) : Player :=
  if 0 <? moves p then setMoves p (moves p - 1) else p.

(** The lambda [sortInventory] passes to [std::list::sort]. *)
Definition lowerLess (a b : string) : bool :=
  let lowerA := lowered a in
  let lowerB := lowered b in
  string_lt lowerA lowerB.

(** [Player::sortInventory] *)
Definition sortInventory (p : Player) : Player :=
  setInventory p (list_sort lowerLess (inventory p)).

(** [GameAssetManager<Room>] *)
Record GameAssetManager := mkManager {
  assets : list Room
}.

Definition addAsset (m : GameAssetManager) (asset : Room) : GameAssetManager :=
  mkManager (assets m ++ [asset]).

Definition getAssetCount (m : GameAssetManager) : Z :=
  Z.of_nat (List.length (assets m)).

(** [GameAssetManager::getAsset]: the pointer to the entry, or [None] for
    the [out_of_range] it throws.  The parameter is a [size_t]; a negative
    [int] passed for it becomes a value above every vector size, so the
    bound check fails for it too. *)
Definition getAsset (m : GameAssetManager) (index : Z) : option nat :=
  if (0 <=? index) && (index <? getAssetCount m)
  then Some (Z.to_nat index)
  else None.

Record Dungeon := mkDungeon {
  roomManager : GameAssetManager;
  enemyQueue : list Enemy;
  roomStack : list nat;
  currentRoomIndex : Z
}.

(** [Dungeon::Dungeon()] *)
Definition newDungeon : Dungeon :=
  let roomManager := fold_left addAsset catalog (mkManager []) in
  mkDungeon roomManager (map enemy (assets roomManager)) [] 0.

Definition setIndex (d : Dungeon) (i : Z) : Dungeon :=
  mkDungeon (roomManager d) (enemyQueue d) (roomStack d) i.
Definition push (d : Dungeon) (r : nat) : Dungeon :=
  mkDungeon (roomManager d) (enemyQueue d) (r :: roomStack d)
    (currentRoomIndex d).

(** [Dungeon::getCurrentRoom] *)
Definition getCurrentRoom (d : Dungeon) : RoomPtr :=
  match getAsset (roomManager d) (currentRoomIndex d) with
  | Some r => Some r
  | None => None
  end.

(** [Dungeon::advanceToNextRoom] *)
Definition advanceToNextRoom (d : Dungeon) : RoomPtr * Dungeon :=
  let count := getAssetCount (roomManager d) in
  if currentRoomIndex d <? count then
    let pushed :=
      if (0 <=? currentRoomIndex d) && (currentRoomIndex d <? count) then
        match getAsset (roomManager d) (currentRoomIndex d) with
        | Some current => Some (push d current)
        | None => None
        end
      else Some d in
    match pushed with
    | None => (None, d)
    | Some d =>
        let d := setIndex d (currentRoomIndex d + 1) in
        if currentRoomIndex d <? count then
          match getAsset (roomManager d) (currentRoomIndex d) with
          | Some nextRoom => (Some nextRoom, d)
          | None => (None, d)
          end
        else (None, d)
    end
  else (None, d).

(** [Dungeon::backtrack] *)
Definition backtrack (d : Dungeon) : RoomPtr * Dungeon :=
  if (1 <? List.length (roomStack d))%nat then
    match tl (roomStack d) with
    | prevRoom :: below =>
        let index :=
          match findRoom (List.length (assets (roomManager d))) prevRoom with
          | Some i => Z.of_nat i
          | None => currentRoomIndex d
          end in
        (Some prevRoom,
         mkDungeon (roomManager d) (enemyQueue d) (prevRoom :: below) index)
    | [] =>
        (None,
         mkDungeon (roomManager d) (enemyQueue d) [] (currentRoomIndex d))
    end
  else (None, d).

(** [*p] for a room pointer [p]. *)
Definition deref (d : Dungeon) (p : RoomPtr) : option Room :=
  match p with
  | Some i => nth_error (assets (roomManager d)) i
  | None => None
  end.

(** [case 1] of [gameLoopWithGUI], without the message. *)
Definition fight (p : Player) (d : Dungeon) (currentRoom : Room)
  : Player * Dungeon * Move :=
  let enemy := enemy currentRoom in
  if enemyHealth enemy <=? getHealth p then
    let p := playerTakeDamage p (enemyHealth enemy) in
    let p := addToInventory p (item1 (treasure currentRoom)) in
    let p := addToInventory p (item2 (treasure currentRoom)) in
    let p := addCoins p 10 in
    let p := incrementEnemiesDefeated p in
    let '(nextRoom, d) := advanceToNextRoom d in
    (p, d, Advanced nextRoom)
  else (playerTakeDamage p 10, d, Stayed).

(** [case 2] of [gameLoopWithGUI], without the message. *)
Definition bypass (p : Player) (d : Dungeon) : Player * Dungeon * Move :=
  let p := playerTakeDamage p 5 in
  let '(nextRoom, d) := advanceToNextRoom d in
  (p, d, Advanced nextRoom).

Inductive GameState :=
| NAME_INPUT
| INSTRUCTIONS
| PLAYING
| GAME_OVER.

(** The objects and locals of [gameLoopWithGUI]. *)
Record Session := mkSession {
  player : Player;
  dungeon : Dungeon;
  gameState : GameState;
  currentRoom : RoomPtr;
  message : string;
  gameOverMessage : string
}.

Definition isPlaying (s : Session) : bool :=
  match gameState s with
  | PLAYING => true
  | _ => false
  end.

Definition isGameOver (s : Session) : bool :=
  match gameState s with
  | GAME_OVER => true
  | _ => false
  end.

Definition gameOver (s : Session) (text : string) : Session :=
  mkSession (player s) (dungeon s) GAME_OVER (currentRoom s) (message s) text.

(** "First time entering PLAYING state, initialize the first room". *)
Definition enterFirstRoom (s : Session) : option Session :=
  match currentRoom s with
  | Some _ => Some s
  | None =>
      let '(first, d) := advanceToNextRoom (dungeon s) in
      match first with
      | None =>
          Some (mkSession (player s) d GAME_OVER None (message s)
                  "Error: No rooms available.")
      | Some _ =>
          match deref d first with
          | None => None
          | Some room =>
              Some (mkSession (player s) d (gameState s) first
                      ("You have entered the " ++ roomName room ++ " room.")
                      (gameOverMessage s))
          end
      end
  end.

(** [player.useMove()] and the [switch] on a positive [choice]. *)
Definition act (choice : Z) (s : Session) : option Session :=
  let p := useMove (player s) in
  if choice =? 1 then
    match deref (dungeon s) (currentRoom s) with
    | None => None
    | Some room =>
        let '(p', d, moved) := fight p (dungeon s) room in
        Some (mkSession p' d (gameState s) (moveTo (currentRoom s) moved)
                (match moved with
                 | Advanced _ =>
                     "Victory! You defeated the " ++ enemyName (enemy room)
                       ++ "."
                 | Stayed => "Too weak! You fled and took damage."
                 end)
                (gameOverMessage s))
    end
  else if choice =? 2 then
    let '(p', d, moved) := bypass p (dungeon s) in
    Some (mkSession p' d (gameState s) (moveTo (currentRoom s) moved)
            "You bypassed the enemy, taking minor damage." (gameOverMessage s))
  else if choice =? 3 then
    let '(previousRoom, d) := backtrack (dungeon s) in
    match previousRoom with
    | Some _ =>
        match deref d previousRoom with
        | None => None
        | Some room =>
            Some (mkSession p d (gameState s) previousRoom
                    ("You backtracked to the " ++ roomName room ++ " room.")
                    (gameOverMessage s))
        end
    | None =>
        Some (mkSession p d (gameState s) (currentRoom s)
                "No room to backtrack to!" (gameOverMessage s))
    end
  else if choice =? 4 then
    Some (mkSession p (dungeon s) GAME_OVER (currentRoom s) (message s)
            "You have quit the dungeon.")
  else
    Some (mkSession p (dungeon s) (gameState s) (currentRoom s) (message s)
            (gameOverMessage s)).

(** "Check for win/lose conditions after an action". *)
Definition checkEnd (s : Session) : Session :=
  if isPlaying s then
    match currentRoom s with
    | None => gameOver s "Congratulations! You escaped!"
    | Some _ =>
        if getHealth (player s) <? 20
        then gameOver s "Game Over! Your health is critical."
        else if moves (player s) <=? 0
        then gameOver s "Game Over! You ran out of moves."
        else s
    end
  else s.

(** [if (gameState == GameState::GAME_OVER) player.sortInventory();] *)
Definition sortWhenOver (s : Session) : Session :=
  if isGameOver s then
    mkSession (sortInventory (player s)) (dungeon s) (gameState s)
      (currentRoom s) (message s) (gameOverMessage s)
  else s.

(** One iteration of the [while (gui.isOpen())] loop of [gameLoopWithGUI],
    from the game logic to the sort; [choice] is what the event handling
    left in the variable of that name (-1 without a click on a button).  The
    result is the session [gui.update] and [gui.draw] then show. *)
Definition frame (choice : Z) (s : Session) : option Session :=
  if isPlaying s then
    match enterFirstRoom s with
    | None => None
    | Some s =>
        if 0 <? choice then
          match act choice s with
          | None => None
          | Some s => Some (sortWhenOver (checkEnd s))
          end
        else Some (sortWhenOver s)
    end
  else Some (sortWhenOver s).

(** The loop, run over the choices of the successive iterations. *)
Fixpoint gameLoopWithGUI (choices : list Z) (s : Session) : option Session :=
  match choices with
  | [] => Some s
  | choice :: rest =>
      match frame choice s with
      | None => None
      | Some s => gameLoopWithGUI rest s
      end
  end.

(** The session when the start button has just been clicked. *)
Definition startSession (playerName : string) : Session :=
  mkSession (newPlayer playerName) newDungeon PLAYING None "" "".

End Gui.

(** ** Sequences of calls on the public interfaces *)

(** A call of a mutating member of [Player]. *)
Inductive PlayerOp :=
| Heal (amount : Z)
| TakeDamage (damage : Z)
| AddToInventory (item : string)
| AddCoins (amount : Z)
| UseMove
| IncrementEnemiesDefeated
| SortInventory.

(** A call of a mutating member of [Dungeon]. *)
Inductive DungeonOp :=
| Advance
| Backtrack.

Section Calls.
Variables useMove sortInventory : Player -> Player.

Definition callPlayer (p : Player) (op : PlayerOp) : Player :=
  match op with
  | Heal amount => heal p amount
  | TakeDamage damage => playerTakeDamage p damage
  | AddToInventory item => addToInventory p item
  | AddCoins amount => addCoins p amount
  | UseMove => useMove p
  | IncrementEnemiesDefeated => incrementEnemiesDefeated p
  | SortInventory => sortInventory p
  end.

Definition callsPlayer (ops : list PlayerOp) (p : Player) : Player :=
  fold_left callPlayer ops p.

End Calls.

Definition guiCallDungeon (d : Gui.Dungeon) (op : DungeonOp) : Gui.Dungeon :=
  match op with
  | Advance => snd (Gui.advanceToNextRoom d)
  | Backtrack => snd (Gui.backtrack d)
  end.

Definition guiCallsDungeon (ops : list DungeonOp) (d : Gui.Dungeon)
  : Gui.Dungeon :=
  fold_left guiCallDungeon ops d.

(** [comp] puts neither of [a] and [b] in front of the other. *)
Definition tied {A : Type} (comp : A -> A -> bool) (a b : A) : bool :=
  negb (comp a b) && negb (comp b a).

(** "[a] is not after [b]" for a comparison [comp]. *)
Definition notAfter {A : Type} (comp : A -> A -> bool) (a b : A) : Prop :=
  comp b a = false.

(** The health thresholds of the catalog, in order. *)
Definition thresholds : list Z := map (fun r => enemyHealth (enemy r)) catalog.

(** Health [h] is at or above each threshold of [ts] before the fight that
    then takes the threshold off it. *)
Fixpoint staysAbove (h : Z) (ts : list Z) : Prop :=
  match ts with
  | [] => True
  | t :: ts' => t <= h /\ staysAbove (h - t) ts'
  end.

(** The invariant of the treasure counters. *)
Definition treasureInvariant (p : Player) : Prop :=
  coins p = 10 * enemiesDefeated p /\
  Z.of_nat (List.length (inventory p)) = 2 * enemiesDefeated p.

(** The player a finished or suspended console game holds. *)
Definition consolePlayer (r : Console.Result) : option Player :=
  match r with
  | Console.GameOver _ p _ => Some p
  | Console.AwaitingInput p _ => Some p
  | Console.NullRoom => None
  end.

(** The player after a won fight in [room]. *)
Definition winner (p : Player) (room : Room) : Player :=
  mkPlayer
    (mkCharacter (getName p) (getHealth p - enemyHealth (enemy room)))
    (inventory p ++ [item1 (treasure room); item2 (treasure room)])
    (moves p) (coins p + 10) (enemiesDefeated p + 1).

(** The player after a lost fight. *)
Definition loser (p : Player) : Player :=
  mkPlayer (mkCharacter (getName p) (Z.max 0 (getHealth p - 10)))
    (inventory p) (moves p) (coins p) (enemiesDefeated p).

(** The outcome of a turn in the words of the specification, section 4.5:
    WIN if advancing returned no room, else LOSE for health below 20, else
    LOSE for no moves left, else continue ([None]).  It is stated here from
    the room pointer the turn leaves and the player after it, to be compared
    with what the two loops do. *)
Definition specOutcome (nextRoom : RoomPtr) (p : Player) : option Ending :=
  match nextRoom with
  | None => Some Escaped
  | Some _ =>
      if getHealth p <? 20 then Some CriticalHealth
      else if moves p <=? 0 then Some OutOfMoves
      else None
  end.

(** The game-over messages of [gameLoopWithGUI]. *)
Definition guiText (e : Ending) : string :=
  match e with
  | Escaped => "Congratulations! You escaped!"
  | CriticalHealth => "Game Over! Your health is critical."
  | OutOfMoves => "Game Over! You ran out of moves."
  | QuitGame => "You have quit the dungeon."
  end.

(** What a finished console game printed: how it ended and the player
    [displayRanking] was given. *)
Definition consoleReport (r : Console.Result) : option (Ending * Player) :=
  match r with
  | Console.GameOver e p _ => Some (e, p)
  | _ => None
  end.

(** The treasure counters of [p'] are those of [p]. *)
Definition sameTreasure (p p' : Player) : Prop :=
  coins p' = coins p /\
  enemiesDefeated p' = enemiesDefeated p /\
  inventory p' = inventory p.

(** [p'] has over [p] the gains of a won fight in [room]. *)
Definition gainedTreasure (room : Room) (p p' : Player) : Prop :=
  coins p' = coins p + 10 /\
  enemiesDefeated p' = enemiesDefeated p + 1 /\
  inventory p' = (inventory p ++ [item1 (treasure room); item2 (treasure room)])%list.

(** What the action [choice], taken in [room] by [p], does to the treasure
    counters: the gains when it is a Fight that [p] wins, nothing
    otherwise. *)
Definition treasureChange (choice : Z) (room : option Room) (p p' : Player)
  : Prop :=
  match room with
  | Some r =>
      if (choice =? 1) && (enemyHealth (enemy r) <=? getHealth p)
      then gainedTreasure r p p'
      else sameTreasure p p'
  | None => sameTreasure p p'
  end.

(** What the console dungeon keeps true: its catalog, an index from -1 to
    the last room, and a stack of pointers into the catalog. *)
Definition consoleDungeonOk (d : Console.Dungeon) : Prop :=
  Console.rooms d = catalog /\
  -1 <= Console.currentRoomIndex d < 5 /\
  Forall (fun r => (r < 5)%nat) (Console.roomStack d).

(** What a game keeps true of the player: the ranges of the counters, which
    are far inside those of [int], and the invariant of the treasure. *)
Definition playerOk (p : Player) : Prop :=
  0 <= getHealth p <= 100 /\
  0 <= moves p /\
  0 <= enemiesDefeated p /\
  enemiesDefeated p + moves p <= 10 /\
  treasureInvariant p.

(** What the SFML dungeon keeps true: its catalog, an index from 0 to the
    size of the catalog and a stack of pointers into the catalog. *)
Definition guiDungeonOk (d : Gui.Dungeon) : Prop :=
  Gui.roomManager d = Gui.roomManager Gui.newDungeon /\
  0 <= Gui.currentRoomIndex d <= 5 /\
  Forall (fun r => (r < 5)%nat) (Gui.roomStack d).

(** What the SFML loop keeps true of its session: a sound dungeon and
    player and, while the game is played, health and moves that allow a
    turn and a room pointer into the catalog (or, before the first room is
    entered, an index from which a room can be entered). *)
Definition sessionOk (s : Gui.Session) : Prop :=
  guiDungeonOk (Gui.dungeon s) /\
  playerOk (Gui.player s) /\
  (Gui.isPlaying s = true ->
   20 <= getHealth (Gui.player s) /\
   0 < moves (Gui.player s) /\
   match Gui.currentRoom s with
   | Some r => (r < 5)%nat
   | None => Gui.currentRoomIndex (Gui.dungeon s) < 4
   end).

(** ** Further definitions: runs of calls *)

Definition consoleCallDungeon (d : Console.Dungeon) (op : DungeonOp)
  : Console.Dungeon :=
  match op with
  | Advance => snd (Console.advanceToNextRoom d)
  | Backtrack => snd (Console.backtrack d)
  end.

Definition consoleCallsDungeon (ops : list DungeonOp) (d : Console.Dungeon)
  : Console.Dungeon :=
  fold_left consoleCallDungeon ops d.

(** The dungeon after [k] calls of [advanceToNextRoom]. *)
Definition consoleAdvances (k : nat) (d : Console.Dungeon) : Console.Dungeon :=
  Nat.iter k (fun d => snd (Console.advanceToNextRoom d)) d.

Definition guiAdvances (k : nat) (d : Gui.Dungeon) : Gui.Dungeon :=
  Nat.iter k (fun d => snd (Gui.advanceToNextRoom d)) d.

(** The rooms from the first one to the one at [index], the last first. *)
Definition pathTo (index : Z) : list nat :=
  rev (seq 0 (Z.to_nat (index + 1))).

(** The console dungeon of a game has exactly the path to the current room
    on its stack. *)
Definition consolePathOk (d : Console.Dungeon) : Prop :=
  Console.rooms d = catalog /\
  -1 <= Console.currentRoomIndex d <= 4 /\
  Console.roomStack d = pathTo (Console.currentRoomIndex d).

(** A call that passes no negative amount, and none so large that the sum
    with a health of at most 100 leaves [int]. *)
Definition boundedOp (op : PlayerOp) : Prop :=
  match op with
  | Heal amount => 0 <= amount <= intMax - 100
  | TakeDamage damage => 0 <= damage <= intMax
  | AddCoins amount => 0 <= amount <= intMax
  | _ => True
  end.

(** The coins the calls add up to. *)
Fixpoint coinsAdded (ops : list PlayerOp) : Z :=
  match ops with
  | [] => 0
  | AddCoins amount :: rest => amount + coinsAdded rest
  | _ :: rest => coinsAdded rest
  end.

(** The items the treasures of the catalog hold. *)
Definition treasureItems : list string :=
  flat_map (fun r => [item1 (treasure r); item2 (treasure r)]) catalog.

(** How many numbers the input holds. *)
Fixpoint numbers (inputs : list Console.Input) : nat :=
  match inputs with
  | [] => 0
  | Console.NotANumber :: rest => numbers rest
  | Console.Number _ :: rest => S (numbers rest)
  end.

(** Input as [cin >> choice] can leave it: the numbers read fit an
    [int]. *)
Definition intInput (input : Console.Input) : Prop :=
  match input with
  | Console.NotANumber => True
  | Console.Number choice => isInt choice
  end.

(** How many iterations come with a click on a button. *)
Fixpoint clicks (choices : list Z) : nat :=
  match choices with
  | [] => 0
  | choice :: rest => if 0 <? choice then S (clicks rest) else clicks rest
  end.

(** ** The window of the SFML build: events and texts *)
Module Screen.

(** An [sf::Event], with what [GUI::handleEvent] reads of it; [unicode] is
    an [sf::Uint32], [leftButton] says that [event.mouseButton.button] is
    [sf::Mouse::Left]. *)
Inductive Event :=
| Closed
| TextEntered (unicode : N)
| MouseButtonPressed (leftButton : bool) (x y : Z)
| KeyPressed
| OtherEvent.

(** The members of [GUI] the event handling changes: whether the window is
    open, and the name typed so far. *)
Record GUI := mkGUI {
  isOpen : bool;
  enteredName : string
}.

(** The window of [main] once it is known to be open. *)
Definition newGUI : GUI := mkGUI true "".

Definition close (g : GUI) : GUI := mkGUI false (enteredName g).

Definition setName (g : GUI) (n : string) : GUI := mkGUI (isOpen g) n.

Definition empty (s : string) : bool :=
  match s with
  | EmptyString => true
  | String _ _ => false
  end.

(** [std::string::pop_back]; the code calls it on strings that are not
    empty only. *)
Fixpoint pop_back (s : string) : string :=
  match s with
  | EmptyString => EmptyString
  | String c rest =>
      match rest with
      | EmptyString => EmptyString
      | String _ _ => String c (pop_back rest)
      end
  end.

(** The value of a state in [enum class GameState]. *)
Definition rank (gameState : Gui.GameState) : Z :=
  match gameState with
  | Gui.NAME_INPUT => 0
  | Gui.INSTRUCTIONS => 1
  | Gui.PLAYING => 2
  | Gui.GAME_OVER => 3
  end.

(** [gameState] with the other locals of [gameLoopWithGUI] kept. *)
Definition setState (s : Gui.Session) (gameState : Gui.GameState)
  : Gui.Session :=
  Gui.mkSession (Gui.player s) (Gui.dungeon s) gameState (Gui.currentRoom s)
    (Gui.message s) (Gui.gameOverMessage s).

Section Buttons.

(** Where the buttons are: [startButton.getGlobalBounds().contains(mousePos)]
    and [buttons[i].getGlobalBounds().contains(mousePos)] for the mouse at
    [(x, y)].  The rectangles are SFML's, and [setupUI] lays them out only
    when the font could be loaded, so they are left open here. *)
Variable startButtonContains : Z -> Z -> bool.
Variable buttonContains : nat -> Z -> Z -> bool.

(** The [for] loop over the four buttons: the first one under the mouse. *)
Definition clickedButton (x y : Z) : option nat :=
  find (fun i => buttonContains i x y) [0; 1; 2; 3]%nat.

(** [GUI::handleEvent], on the window, [gameState] and [choice]. *)
Definition handleEvent (event : Event) (g : GUI) (gameState : Gui.GameState)
  (choice : Z) : GUI * Gui.GameState * Z :=
  let g := match event with
           | Closed => close g
           | _ => g
           end in
  match gameState with
  | Gui.NAME_INPUT =>
      match event with
      | TextEntered unicode =>
          if (unicode <? 128)%N then
            if (unicode =? 8)%N && negb (empty (enteredName g)) then
              (setName g (pop_back (enteredName g)), gameState, choice)
            else if (unicode =? 13)%N then (g, Gui.INSTRUCTIONS, choice)
            else if negb (unicode =? 8)%N && negb (unicode =? 13)%N then
              (setName g (enteredName g ++ String (ascii_of_N unicode) ""),
               gameState, choice)
            else (g, gameState, choice)
          else (g, gameState, choice)
      | _ => (g, gameState, choice)
      end
  | Gui.INSTRUCTIONS =>
      match event with
      | MouseButtonPressed true x y =>
          if startButtonContains x y then (g, Gui.PLAYING, choice)
          else (g, gameState, choice)
      | _ => (g, gameState, choice)
      end
  | Gui.PLAYING =>
      match event with
      | MouseButtonPressed true x y =>
          match clickedButton x y with
          | Some i => (g, gameState, Z.of_nat i + 1)
          | None => (g, gameState, choice)
          end
      | _ => (g, gameState, choice)
      end
  | Gui.GAME_OVER =>
      match event with
      | KeyPressed | MouseButtonPressed _ _ _ => (close g, gameState, choice)
      | _ => (g, gameState, choice)
      end
  end.

(** [while (gui.pollEvent(event)) gui.handleEvent(event, gameState, choice);]
    over the events [pollEvent] returned in one iteration. *)
Definition pollEvents (events : list Event) (g : GUI)
  (gameState : Gui.GameState) (choice : Z) : GUI * Gui.GameState * Z :=
  fold_left (fun '(g, gameState, choice) event =>
               handleEvent event g gameState choice)
    events (g, gameState, choice).

(** [gameLoopWithGUI] from the events on: [frames] holds the events of the
    successive iterations of [while (gui.isOpen())]; each iteration polls
    with [choice] reset to -1 and hands over to the game logic
    ([Gui.frame]).  The result is the state when the window is closed or
    the frames are used up. *)
Fixpoint gameLoopWithGUI (frames : list (list Event)) (g : GUI)
  (s : Gui.Session) : option (GUI * Gui.Session) :=
  match frames with
  | [] => Some (g, s)
  | events :: rest =>
      if isOpen g then
        let '(g, gameState, choice) :=
          pollEvents events g (Gui.gameState s) (-1) in
        match Gui.frame choice (setState s gameState) with
        | None => None
        | Some s => gameLoopWithGUI rest g s
        end
      else Some (g, s)
  end.

(** The polling of [main], which closes the window once more on
    [sf::Event::Closed]. *)
Definition pollNameEvents (events : list Event) (g : GUI)
  (tempState : Gui.GameState) (dummyChoice : Z)
  : GUI * Gui.GameState * Z :=
  fold_left (fun '(g, tempState, dummyChoice) event =>
               let '(g, tempState, dummyChoice) :=
                 handleEvent event g tempState dummyChoice in
               (match event with
                | Closed => close g
                | _ => g
                end, tempState, dummyChoice))
    events (g, tempState, dummyChoice).

(** The first loop of [main]: it runs until an iteration leaves
    [tempState], [NAME_INPUT] at the start of each iteration, changed, or
    the window is closed; the frames not used are returned.  [dummyChoice]
    has no initial value in the source, and [handleEvent] only writes to
    it. *)
Fixpoint nameInput (frames : list (list Event)) (g : GUI)
  : GUI * list (list Event) :=
  match frames with
  | [] => (g, [])
  | events :: rest =>
      if isOpen g then
        let '(g, tempState, _) :=
          pollNameEvents events g Gui.NAME_INPUT 0 in
        match tempState with
        | Gui.NAME_INPUT => nameInput rest g
        | _ => (g, rest)
        end
      else (g, frames)
  end.

(** The name [main] gives the player. *)
Definition playerName (g : GUI) : string :=
  if empty (enteredName g) then "Adventurer" else enteredName g.

(** [main], from the open window to the return of [gameLoopWithGUI]. *)
Definition main (frames : list (list Event)) : option (GUI * Gui.Session) :=
  let '(g, rest) := nameInput frames newGUI in
  gameLoopWithGUI rest g
    (Gui.mkSession (newPlayer (playerName g)) Gui.newDungeon Gui.NAME_INPUT
       None "" "").

(** What an event makes of [choice] while the game is in play. *)
Definition choiceAfter (choice : Z) (event : Event) : Z :=
  match event with
  | MouseButtonPressed true x y =>
      match clickedButton x y with
      | Some i => Z.of_nat i + 1
      | None => choice
      end
  | _ => choice
  end.

(** The choice the polling leaves while the game is in play: the button of
    the last click that hit one, -1 without such a click. *)
Definition choiceOf (events : list Event) : Z :=
  fold_left choiceAfter events (-1).

End Buttons.

(** [size_t] arithmetic, [size_t] being 64 bits wide: [a - b] wraps
    around. *)
Definition size_t_sub (a b : Z) : Z := (a - b) mod 2 ^ 64.

(** [s.substr(0, count)]: the first [count] characters, all of [s] when it
    has fewer. *)
Definition substr0 (s : string) (count : Z) : string :=
  substring 0 (Z.to_nat (Z.min count (Z.of_nat (String.length s)))) s.

(** [for (const auto &item : inventory) invStr += item + ", ";] *)
Definition joinItems (inventory : list string) : string :=
  fold_left (fun invStr item => invStr ++ (item ++ ", ")) inventory "".

(** The inventory line of [GUI::updateStatus] and [GUI::drawGameOver]
    behind its label.  [guarded] tells the copies that test
    [invStr.length() > 2] before they cut the last two characters
    ([drawGameOver], and [updateStatus] in the second copy of the build)
    from the one that cuts at once ([updateStatus] in the first copy). *)
Definition inventoryText (guarded : bool) (label : string)
  (inventory : list string) : string :=
  label ++
  match inventory with
  | [] => "Empty"
  | _ =>
      let invStr := joinItems inventory in
      let len := Z.of_nat (String.length invStr) in
      if guarded then
        if 2 <? len then substr0 invStr (size_t_sub len 2) else invStr
      else substr0 invStr (size_t_sub len 2)
  end.

(** A character [handleEvent] appends to the name: below 128, neither
    backspace nor Enter. *)
Definition plainChar (unicode : N) : Prop :=
  (unicode < 128)%N /\ unicode <> 8%N /\ unicode <> 13%N.

(** The text that typing the characters gives. *)
Definition typedText (typed : list N) : string :=
  string_of_list_ascii (map ascii_of_N typed).

(** The events of a name typed over several iterations: the characters of
    each of the [earlier] iterations, then an iteration with the characters
    [typed] and Enter. *)
Definition nameFrames (earlier : list (list N)) (typed : list N)
  : list (list Event) :=
  (map (map TextEntered) earlier
   ++ [map TextEntered typed ++ [TextEntered 13]])%list.

(** The name [main] makes of the characters typed. *)
Definition nameOf (typed : list N) : string :=
  match typed with
  | [] => "Adventurer"
  | _ => typedText typed
  end.

End Screen.

(** Arithmetic on the fields of a player built from [winner] and
    [useMove]. *)
Ltac fight_arith :=
  try reflexivity;
  repeat match goal with x := _ |- _ => subst x end;
  cbv [getHealth getName winner Console.useMove setMoves enemyHealth enemy
       enemyBase health playerBase name moves newEnemy baseRoom bronzeRoom
       platinumRoom silverRoom goldRoom];
  lia.

(** Closed goals about concrete dungeons, players and sessions, settled by
    evaluation. *)
Ltac by_evaluation :=
  repeat (first [split | intro]);
  first [reflexivity | vm_compute; discriminate | vm_compute; lia
        | repeat constructor; vm_compute; lia].

(** * Properties *)

(** ** The order of strings *)

Lemma string_lt_irrefl (a : string) : string_lt a a = false.
Proof.
  induction a as [|x a IH]; simpl; trivial.
  now rewrite N.ltb_irrefl.
Qed.

Lemma string_lt_asym (a b : string) :
  string_lt a b = true -> string_lt b a = false.
Proof.
  revert b; induction a as [|x a IH]; intros [|y b]; simpl; trivial;
    try discriminate.
  destruct (N.ltb_spec (N_of_ascii x) (N_of_ascii y)) as [Hxy|Hxy];
    destruct (N.ltb_spec (N_of_ascii y) (N_of_ascii x)) as [Hyx|Hyx];
    trivial; try discriminate; try lia.
  apply IH.
Qed.

Lemma string_le_trans (a b c : string) :
  string_lt b a = false -> string_lt c b = false -> string_lt c a = false.
Proof.
  revert b c; induction a as [|x a IH]; intros [|y b] [|z c]; simpl; trivial;
    try discriminate.
  destruct (N.ltb_spec (N_of_ascii y) (N_of_ascii x));
    destruct (N.ltb_spec (N_of_ascii x) (N_of_ascii y));
    destruct (N.ltb_spec (N_of_ascii z) (N_of_ascii y));
    destruct (N.ltb_spec (N_of_ascii y) (N_of_ascii z));
    destruct (N.ltb_spec (N_of_ascii z) (N_of_ascii x));
    destruct (N.ltb_spec (N_of_ascii x) (N_of_ascii z));
    trivial; try discriminate; try lia.
  apply IH.
Qed.

(** ** [std::list::sort] sorts *)
Section SortFacts.
Context {A : Type}.
Variable comp : A -> A -> bool.
Hypothesis comp_asym : forall a b, comp a b = true -> comp b a = false.
Hypothesis comp_trans :
  forall a b c, comp b a = false -> comp c b = false -> comp c a = false.

Lemma sort_insert_perm (x : A) (l : list A) :
  Permutation (x :: l) (sort_insert comp x l).
Proof.
  induction l as [|y l IH]; simpl; [apply Permutation_refl|].
  destruct (comp y x); [|apply Permutation_refl].
  eapply perm_trans; [apply perm_swap|]. now apply perm_skip.
Qed.

Lemma list_sort_perm (l : list A) : Permutation l (list_sort comp l).
Proof.
  induction l as [|x l IH]; simpl; [constructor|].
  eapply perm_trans; [apply perm_skip, IH|apply sort_insert_perm].
Qed.

Lemma sort_insert_sorted (x : A) (l : list A) :
  StronglySorted (notAfter comp) l ->
  StronglySorted (notAfter comp) (sort_insert comp x l).
Proof.
  induction 1 as [|y l Hl IH Hy]; simpl.
  - repeat constructor.
  - destruct (comp y x) eqn:E.
    + constructor; [exact IH|].
      eapply Permutation_Forall; [apply sort_insert_perm|].
      constructor; [now apply comp_asym|exact Hy].
    + constructor; [now constructor|].
      constructor; [exact E|].
      rewrite Forall_forall in *; intros z Hz.
      unfold notAfter in *. eapply comp_trans; [exact E|now apply Hy].
Qed.

Lemma list_sort_sorted (l : list A) :
  StronglySorted (notAfter comp) (list_sort comp l).
Proof.
  induction l as [|x l IH]; simpl; [constructor|].
  now apply sort_insert_sorted.
Qed.

(** Sorting again changes nothing. *)
Lemma list_sort_of_sorted (l : list A) :
  StronglySorted (notAfter comp) l -> list_sort comp l = l.
Proof.
  induction 1 as [|x l Hl IH Hx]; simpl; trivial.
  rewrite IH. destruct l as [|y l]; simpl; trivial.
  inversion Hx as [|? ? Hxy _]; subst. unfold notAfter in Hxy.
  now rewrite Hxy.
Qed.

Lemma sort_insert_tied (z x : A) (l : list A) :
  filter (tied comp z) (sort_insert comp x l)
  = if tied comp z x then x :: filter (tied comp z) l
    else filter (tied comp z) l.
Proof.
  induction l as [|y l IH]; simpl; [reflexivity|].
  destruct (comp y x) eqn:E; simpl; [|reflexivity].
  rewrite IH.
  destruct (tied comp z x) eqn:Ex, (tied comp z y) eqn:Ey; trivial.
  unfold tied in Ex, Ey.
  apply andb_prop in Ex, Ey. destruct Ex as [Ex _], Ey as [_ Ey].
  apply negb_true_iff in Ex, Ey.
  rewrite (comp_trans x z y Ex Ey) in E. discriminate.
Qed.

(** Stability: the elements [comp] does not separate from [z] come out in
    the order they went in. *)
Lemma list_sort_stable (z : A) (l : list A) :
  filter (tied comp z) (list_sort comp l) = filter (tied comp z) l.
Proof.
  induction l as [|x l IH]; simpl; [reflexivity|].
  rewrite sort_insert_tied, IH. now destruct (tied comp z x).
Qed.

End SortFacts.

Lemma lowerLess_asym (a b : string) :
  Gui.lowerLess a b = true -> Gui.lowerLess b a = false.
Proof. apply string_lt_asym. Qed.

Lemma lowerLess_trans (a b c : string) :
  Gui.lowerLess b a = false -> Gui.lowerLess c b = false ->
  Gui.lowerLess c a = false.
Proof. apply string_le_trans. Qed.

(** ** Sorting the inventory *)

Lemma equal_keys_not_separated (a b : string) :
  lowered a = lowered b ->
  Gui.lowerLess a b = false /\ Gui.lowerLess b a = false.
Proof.
  unfold Gui.lowerLess; intros ->. split; apply string_lt_irrefl.
Qed.

(** C6, as stated, fails on the console build: its [sortInventory] compares
    the strings as they are, so it puts "Key" in front of "armour", which
    is not ascending once the case is folded. *)
Lemma console_sort_is_case_sensitive :
  let sorted :=
    inventory (Console.sortInventory
                 (setInventory (newPlayer "p") ["armour"; "5 Coins"; "Key"])) in
  sorted = ["5 Coins"; "Key"; "armour"] /\
  sorted <> ["5 Coins"; "armour"; "Key"] /\
  ~ StronglySorted (notAfter Gui.lowerLess) sorted.
Proof.
  cbv zeta. change (inventory _) with ["5 Coins"; "Key"; "armour"].
  split; [reflexivity|]. split; [discriminate|].
  intros H. inversion H as [|? ? H1 _]; subst.
  inversion H1 as [|? ? _ H2]; subst.
  inversion H2 as [|? ? H3 _]; subst.
  discriminate H3.
Qed.

(** C6, amended: in the SFML build [sortInventory] rearranges the inventory
    into ascending order of the lower-cased strings, which are the only
    thing it compares, so that "A" and "a" are one sort key, and turns
    "armour", "5 Coins", "Key" into "5 Coins", "armour", "Key"; in the
    console build it rearranges the inventory into ascending order of the
    strings themselves and turns the same inventory into "5 Coins", "Key",
    "armour".  Both touch nothing but the inventory. *)
Theorem sortInventory_ascending (p : Player) :
  (Permutation (inventory p) (inventory (Gui.sortInventory p)) /\
   StronglySorted (notAfter Gui.lowerLess) (inventory (Gui.sortInventory p)) /\
   Gui.sortInventory p = setInventory p (inventory (Gui.sortInventory p)) /\
   (forall a b, Gui.lowerLess a b = string_lt (lowered a) (lowered b)) /\
   lowered "A" = lowered "a" /\
   tied Gui.lowerLess "A" "a" = true /\
   inventory (Gui.sortInventory
                (setInventory p ["armour"; "5 Coins"; "Key"]))
   = ["5 Coins"; "armour"; "Key"]) /\
  (Permutation (inventory p) (inventory (Console.sortInventory p)) /\
   StronglySorted (notAfter string_lt)
     (inventory (Console.sortInventory p)) /\
   Console.sortInventory p
   = setInventory p (inventory (Console.sortInventory p)) /\
   inventory (Console.sortInventory
                (setInventory p ["armour"; "5 Coins"; "Key"]))
   = ["5 Coins"; "Key"; "armour"]).
Proof.
  split.
  - split; [apply list_sort_perm|].
    split; [apply list_sort_sorted;
            [exact lowerLess_asym|exact lowerLess_trans]|].
    repeat (split; [reflexivity|]). reflexivity.
  - split; [apply list_sort_perm|].
    split; [apply list_sort_sorted;
            [exact string_lt_asym|exact string_le_trans]|].
    split; reflexivity.
Qed.

(** ** Fight *)

Lemma takeDamage_health (c : Character) (damage : Z) :
  health (takeDamage c damage) = Z.max 0 (health c - damage).
Proof.
  unfold takeDamage; simpl.
  destruct (Z.ltb_spec (health c - damage) 0); lia.
Qed.

Lemma takeDamage_eq (c : Character) (damage : Z) :
  takeDamage c damage = mkCharacter (name c) (Z.max 0 (health c - damage)).
Proof.
  unfold takeDamage. f_equal.
  destruct (Z.ltb_spec (health c - damage) 0); lia.
Qed.

Lemma won_fight_player (p : Player) (room : Room) :
  enemyHealth (enemy room) <= getHealth p ->
  incrementEnemiesDefeated
    (addCoins
       (addToInventory
          (addToInventory (playerTakeDamage p (enemyHealth (enemy room)))
             (item1 (treasure room)))
          (item2 (treasure room)))
       10)
  = winner p room.
Proof.
  intros H. unfold winner, incrementEnemiesDefeated, addCoins, addToInventory,
    playerTakeDamage, setInventory, setBase, getHealth, getName in *; simpl.
  rewrite takeDamage_eq, <- app_assoc; simpl.
  now replace (Z.max 0 _) with (health (playerBase p) - enemyHealth (enemy room))
    by lia.
Qed.

Lemma lost_fight_player (p : Player) : playerTakeDamage p 10 = loser p.
Proof.
  unfold playerTakeDamage, loser, setBase. now rewrite takeDamage_eq.
Qed.

Lemma console_fight_won (p : Player) (d : Console.Dungeon) (room : Room) :
  enemyHealth (enemy room) <= getHealth p ->
  Console.fight p d room
  = (winner p room, snd (Console.advanceToNextRoom d),
     Advanced (fst (Console.advanceToNextRoom d))).
Proof.
  intros H. unfold Console.fight.
  destruct (Z.leb_spec (enemyHealth (enemy room)) (getHealth p)); [|lia].
  rewrite won_fight_player by assumption.
  now destruct (Console.advanceToNextRoom d).
Qed.

Lemma console_fight_lost (p : Player) (d : Console.Dungeon) (room : Room) :
  getHealth p < enemyHealth (enemy room) ->
  Console.fight p d room = (loser p, d, Stayed).
Proof.
  intros H. unfold Console.fight.
  destruct (Z.leb_spec (enemyHealth (enemy room)) (getHealth p)); [lia|].
  now rewrite lost_fight_player.
Qed.

Lemma gui_fight_won (p : Player) (d : Gui.Dungeon) (room : Room) :
  enemyHealth (enemy room) <= getHealth p ->
  Gui.fight p d room
  = (winner p room, snd (Gui.advanceToNextRoom d),
     Advanced (fst (Gui.advanceToNextRoom d))).
Proof.
  intros H. unfold Gui.fight.
  destruct (Z.leb_spec (enemyHealth (enemy room)) (getHealth p)); [|lia].
  rewrite won_fight_player by assumption.
  now destruct (Gui.advanceToNextRoom d).
Qed.

Lemma gui_fight_lost (p : Player) (d : Gui.Dungeon) (room : Room) :
  getHealth p < enemyHealth (enemy room) ->
  Gui.fight p d room = (loser p, d, Stayed).
Proof.
  intros H. unfold Gui.fight.
  destruct (Z.leb_spec (enemyHealth (enemy room)) (getHealth p)); [lia|].
  now rewrite lost_fight_player.
Qed.



(** ** Navigation *)

Lemma findRoom_in_range (count p : nat) :
  (p < count)%nat -> findRoom count p = Some p.
Proof.
  unfold findRoom. intros H.
  replace count with (p + (count - p))%nat by lia.
  rewrite seq_app; simpl.
  assert (Hskip : forall start len l,
             (start + len <= p)%nat ->
             find (fun i => Nat.eqb i p) (seq start len ++ l)
             = find (fun i => Nat.eqb i p) l).
  { intros start len; revert start.
    induction len as [|len IH]; intros start l Hle; simpl; trivial.
    destruct (Nat.eqb_spec start p); [lia|]. apply IH; lia. }
  rewrite Hskip by lia.
  destruct (count - p)%nat eqn:E; [lia|]. simpl.
  now rewrite Nat.eqb_refl.
Qed.

(** C3: with at most one entry on the stack of visited rooms, [backtrack]
    returns the null pointer and leaves the dungeon (index, stack and
    catalog) exactly as it was, in both builds. *)
Theorem backtrack_short_stack (cd : Console.Dungeon) (gd : Gui.Dungeon)
  (Hc : (List.length (Console.roomStack cd) <= 1)%nat)
  (Hg : (List.length (Gui.roomStack gd) <= 1)%nat) :
  Console.backtrack cd = (None, cd) /\ Gui.backtrack gd = (None, gd).
Proof.
  unfold Console.backtrack, Gui.backtrack.
  destruct (Nat.ltb_spec 1 (List.length (Console.roomStack cd))); [lia|].
  destruct (Nat.ltb_spec 1 (List.length (Gui.roomStack gd))); [lia|].
  split; reflexivity.
Qed.

Lemma backtrack_short_stack_witness :
  let cd := snd (Console.advanceToNextRoom Console.newDungeon) in
  let gd := snd (Gui.advanceToNextRoom Gui.newDungeon) in
  (Console.roomStack cd = [0%nat] /\ Gui.roomStack gd = [0%nat]) /\
  (Console.backtrack cd = (None, cd) /\ Gui.backtrack gd = (None, gd)) /\
  (Console.backtrack Console.newDungeon = (None, Console.newDungeon) /\
   Gui.backtrack Gui.newDungeon = (None, Gui.newDungeon)).
Proof.
  cbv zeta. split; [split; reflexivity|]. split.
  - apply backtrack_short_stack; vm_compute; lia.
  - apply backtrack_short_stack; vm_compute; lia.
Defined.

(** The SFML [advanceToNextRoom] when the index is that of a room. *)
Lemma gui_advance_in_room (d : Gui.Dungeon) :
  0 <= Gui.currentRoomIndex d ->
  Gui.currentRoomIndex d < Gui.getAssetCount (Gui.roomManager d) ->
  Gui.advanceToNextRoom d
  = (if Gui.currentRoomIndex d + 1 <? Gui.getAssetCount (Gui.roomManager d)
     then Some (S (Z.to_nat (Gui.currentRoomIndex d))) else None,
     Gui.mkDungeon (Gui.roomManager d) (Gui.enemyQueue d)
       (Z.to_nat (Gui.currentRoomIndex d) :: Gui.roomStack d)
       (Gui.currentRoomIndex d + 1)).
Proof.
  intros H0 Hn.
  unfold Gui.advanceToNextRoom, Gui.getAsset, Gui.push, Gui.setIndex.
  cbv zeta.
  destruct (Z.leb_spec 0 (Gui.currentRoomIndex d)); [|lia].
  destruct (Z.ltb_spec (Gui.currentRoomIndex d)
              (Gui.getAssetCount (Gui.roomManager d))); [|lia].
  simpl.
  destruct (Z.ltb_spec (Gui.currentRoomIndex d + 1)
              (Gui.getAssetCount (Gui.roomManager d))); [|reflexivity].
  destruct (Z.leb_spec 0 (Gui.currentRoomIndex d + 1)); [|lia].
  simpl. now rewrite Z2Nat.inj_add, Nat.add_1_r by lia.
Qed.

(** The SFML [advanceToNextRoom] past the last room. *)
Lemma gui_advance_exhausted (d : Gui.Dungeon) :
  Gui.getAssetCount (Gui.roomManager d) <= Gui.currentRoomIndex d ->
  Gui.advanceToNextRoom d = (None, d).
Proof.
  intros H. unfold Gui.advanceToNextRoom. cbv zeta.
  now destruct (Z.ltb_spec (Gui.currentRoomIndex d)
                  (Gui.getAssetCount (Gui.roomManager d))); [lia|].
Qed.

(** C2, as stated, fails on the console build.  In the first room
    [advanceToNextRoom] pushes the room it moves to, not the current one;
    in the last room it returns the null pointer with the index and the
    stack as they were. *)
Lemma console_advance_pushes_next_room :
  let first := snd (Console.advanceToNextRoom Console.newDungeon) in
  let last := snd (Console.advanceToNextRoom
               (snd (Console.advanceToNextRoom
                  (snd (Console.advanceToNextRoom
                     (snd (Console.advanceToNextRoom first))))))) in
  (Console.getCurrentRoom first = Some 0%nat /\
   Console.roomStack (snd (Console.advanceToNextRoom first))
   = 1%nat :: Console.roomStack first /\
   Console.roomStack (snd (Console.advanceToNextRoom first))
   <> 0%nat :: Console.roomStack first) /\
  (Console.getCurrentRoom last = Some 4%nat /\
   Console.advanceToNextRoom last = (None, last) /\
   List.length (Console.roomStack (snd (Console.advanceToNextRoom last)))
   <> S (List.length (Console.roomStack last)) /\
   Console.currentRoomIndex (snd (Console.advanceToNextRoom last))
   <> Console.currentRoomIndex last + 1).
Proof.
  cbv zeta. repeat split; try reflexivity; vm_compute; discriminate.
Qed.

(** C2, amended: in the SFML build, when a current room exists,
    [advanceToNextRoom] pushes that room, adds one to the index and returns
    the room at the new index, or the null pointer when the new index is
    the size of the catalog; the stack grows by one entry either way.  In
    the console build, when a current room exists, [advanceToNextRoom] adds
    one to the index, pushes the room at the new index and returns it,
    unless the current room is the last one: then it returns the null
    pointer and changes neither the index nor the stack. *)
Theorem advance_from_current_room (gd : Gui.Dungeon) (cd : Console.Dungeon)
  (gcur ccur : nat)
  (Hg : Gui.getCurrentRoom gd = Some gcur)
  (Hc : Console.getCurrentRoom cd = Some ccur) :
  (let next := Gui.currentRoomIndex gd + 1 in
   Gui.advanceToNextRoom gd
   = (if next <? Gui.getAssetCount (Gui.roomManager gd)
      then Some (S gcur) else None,
      Gui.mkDungeon (Gui.roomManager gd) (Gui.enemyQueue gd)
        (gcur :: Gui.roomStack gd) next) /\
   Z.of_nat gcur = Gui.currentRoomIndex gd /\
   fst (Gui.advanceToNextRoom gd)
   = Gui.getCurrentRoom (snd (Gui.advanceToNextRoom gd)) /\
   List.length (Gui.roomStack (snd (Gui.advanceToNextRoom gd)))
   = S (List.length (Gui.roomStack gd))) /\
  (let next := Console.currentRoomIndex cd + 1 in
   Z.of_nat ccur = Console.currentRoomIndex cd /\
   Console.advanceToNextRoom cd
   = if next <? Console.size cd
     then (Some (S ccur),
           Console.mkDungeon (Console.rooms cd) (Console.enemyQueue cd)
             (S ccur :: Console.roomStack cd) next)
     else (None, cd)).
Proof.
  split.
  - unfold Gui.getCurrentRoom, Gui.getAsset in Hg.
    destruct (Z.leb_spec 0 (Gui.currentRoomIndex gd)) as [H0|]; [|discriminate].
    destruct (Z.ltb_spec (Gui.currentRoomIndex gd)
                (Gui.getAssetCount (Gui.roomManager gd))) as [Hn|];
      [|discriminate].
    simpl in Hg. injection Hg as <-.
    pose proof (gui_advance_in_room gd H0 Hn) as Heq.
    cbv zeta. rewrite Heq. split; [reflexivity|]. split; [lia|].
    split; [|reflexivity].
    simpl. unfold Gui.getCurrentRoom, Gui.getAsset; simpl.
    destruct (Z.ltb_spec (Gui.currentRoomIndex gd + 1)
                (Gui.getAssetCount (Gui.roomManager gd))).
    + destruct (Z.leb_spec 0 (Gui.currentRoomIndex gd + 1)); [|lia].
      simpl. now rewrite Z2Nat.inj_add, Nat.add_1_r by lia.
    + now rewrite andb_false_r.
  - unfold Console.getCurrentRoom in Hc.
    destruct (Z.leb_spec 0 (Console.currentRoomIndex cd)) as [H0|];
      [|discriminate].
    destruct (Z.ltb_spec (Console.currentRoomIndex cd) (Console.size cd))
      as [Hn|]; [|discriminate].
    simpl in Hc. injection Hc as <-. cbv zeta. split; [lia|].
    unfold Console.advanceToNextRoom.
    destruct (Z.ltb_spec (Console.currentRoomIndex cd) (Console.size cd - 1));
      destruct (Z.ltb_spec (Console.currentRoomIndex cd + 1) (Console.size cd));
      try lia; trivial.
    now rewrite Z2Nat.inj_add, Nat.add_1_r by lia.
Qed.

Lemma advance_from_current_room_witness :
  let gd := snd (Gui.advanceToNextRoom Gui.newDungeon) in
  let cd := snd (Console.advanceToNextRoom Console.newDungeon) in
  Gui.advanceToNextRoom gd
  = (Some 2%nat,
     Gui.mkDungeon (Gui.roomManager gd) (Gui.enemyQueue gd) [1%nat; 0%nat] 2) /\
  Console.advanceToNextRoom cd
  = (Some 1%nat,
     Console.mkDungeon (Console.rooms cd) (Console.enemyQueue cd)
       [1%nat; 0%nat] 1).
Proof.
  cbv zeta.
  destruct (advance_from_current_room
              (snd (Gui.advanceToNextRoom Gui.newDungeon))
              (snd (Console.advanceToNextRoom Console.newDungeon))
              1%nat 0%nat eq_refl eq_refl) as [[Hg _] [_ Hc]].
  split; [exact Hg|exact Hc].
Defined.

Lemma gui_catalog_count (d : Gui.Dungeon) :
  Gui.roomManager d = Gui.roomManager Gui.newDungeon ->
  Gui.getAssetCount (Gui.roomManager d) = 5.
Proof. now intros ->. Qed.

Lemma gui_advance_ok (d : Gui.Dungeon) :
  guiDungeonOk d ->
  guiDungeonOk (snd (Gui.advanceToNextRoom d)) /\
  match fst (Gui.advanceToNextRoom d) with
  | Some r => (0 < r < 5)%nat /\ Gui.currentRoomIndex d < 4
  | None => 4 <= Gui.currentRoomIndex d
  end.
Proof.
  intros Hd. pose proof Hd as [Hm [Hi Hs]].
  pose proof (gui_catalog_count d Hm) as Hcount.
  destruct (Z.lt_ge_cases (Gui.currentRoomIndex d) 5) as [Hlt|Hge].
  - rewrite gui_advance_in_room by lia. rewrite Hcount.
    split.
    + split; [exact Hm|]. split; [simpl; lia|].
      constructor; [lia|exact Hs].
    + destruct (Z.ltb_spec (Gui.currentRoomIndex d + 1) 5); simpl; lia.
  - rewrite gui_advance_exhausted by lia. simpl. split; [exact Hd|lia].
Qed.

Lemma gui_backtrack_ok (d : Gui.Dungeon) :
  guiDungeonOk d ->
  guiDungeonOk (snd (Gui.backtrack d)) /\
  match fst (Gui.backtrack d) with
  | Some r => (r < 5)%nat
  | None => snd (Gui.backtrack d) = d
  end.
Proof.
  intros Hd. pose proof Hd as [Hm [Hi Hs]]. unfold Gui.backtrack.
  destruct (1 <? List.length (Gui.roomStack d))%nat eqn:E; [|now split].
  destruct (Gui.roomStack d) as [|top [|prevRoom below]];
    try discriminate E. simpl.
  pose proof (Forall_inv_tail Hs) as Hs'.
  pose proof (Forall_inv Hs') as Hp. simpl in Hp.
  split; [|exact Hp].
  split; [exact Hm|]. split; [|exact Hs'].
  rewrite Hm. change (List.length _) with 5%nat.
  rewrite (findRoom_in_range 5 prevRoom Hp). simpl. lia.
Qed.

Lemma gui_call_ok (d : Gui.Dungeon) (op : DungeonOp) :
  guiDungeonOk d -> guiDungeonOk (guiCallDungeon d op).
Proof.
  intros Hd. destruct op; simpl;
    [apply gui_advance_ok|apply gui_backtrack_ok]; exact Hd.
Qed.

Lemma gui_calls_ok (ops : list DungeonOp) (d : Gui.Dungeon) :
  guiDungeonOk d -> guiDungeonOk (guiCallsDungeon ops d).
Proof.
  revert d. induction ops as [|op ops IH]; intros d H; simpl; trivial.
  apply IH. now apply gui_call_ok.
Qed.

Lemma gui_newDungeon_ok : guiDungeonOk Gui.newDungeon.
Proof.
  split; [reflexivity|]. split; [|constructor].
  unfold Gui.newDungeon; simpl; lia.
Qed.

Lemma gui_deref_catalog (d : Gui.Dungeon) (r : nat) :
  guiDungeonOk d -> Gui.deref d (Some r) = nth_error catalog r.
Proof. intros [Hm _]. simpl. now rewrite Hm. Qed.

Lemma gui_advance_never_Base (d : Gui.Dungeon) :
  guiDungeonOk d ->
  fst (Gui.advanceToNextRoom d) <> Some 0%nat /\
  option_map roomName
    (Gui.deref (snd (Gui.advanceToNextRoom d))
       (fst (Gui.advanceToNextRoom d)))
  <> Some "Base".
Proof.
  intros Hd. destruct (gui_advance_ok d Hd) as [Hd1 Hr].
  destruct (fst (Gui.advanceToNextRoom d)) as [r|];
    [|split; discriminate].
  split; [intros [= ->]; lia|].
  rewrite (gui_deref_catalog _ r Hd1).
  destruct r as [|[|[|[|[|r]]]]]; simpl; try discriminate; lia.
Qed.

(** C10: the SFML [Dungeon] starts with index 0, so the first
    [advanceToNextRoom] pushes the first room, "Base", and returns the
    second, "Bronze"; whatever calls of [advanceToNextRoom] and [backtrack]
    came before, an advance never returns "Base"; and a backtrack right
    after the first advance fails on the one-entry stack, in the dungeon and
    in the game loop alike. *)
Theorem gui_first_advance_skips_Base (ops : list DungeonOp) (n : string) :
  let first := Gui.advanceToNextRoom Gui.newDungeon in
  (Gui.currentRoomIndex Gui.newDungeon = 0 /\
   Gui.roomStack (snd first) = [0%nat] /\
   Gui.deref (snd first) (Some 0%nat) = Some baseRoom /\
   roomName baseRoom = "Base" /\
   fst first = Some 1%nat /\
   Gui.deref (snd first) (fst first) = Some bronzeRoom /\
   roomName bronzeRoom = "Bronze") /\
  (let d := guiCallsDungeon ops Gui.newDungeon in
   fst (Gui.advanceToNextRoom d) <> Some 0%nat /\
   option_map roomName
     (Gui.deref (snd (Gui.advanceToNextRoom d))
        (fst (Gui.advanceToNextRoom d)))
   <> Some "Base") /\
  (Gui.backtrack (snd first) = (None, snd first) /\
   option_map
     (fun s => (Gui.currentRoom s, Gui.message s, Gui.dungeon s))
     (Gui.gameLoopWithGUI [3] (Gui.startSession n))
   = Some (Some 1%nat, "No room to backtrack to!", snd first)).
Proof.
  cbv zeta. split; [repeat split|]. split.
  - apply gui_advance_never_Base, gui_calls_ok, gui_newDungeon_ok.
  - split; reflexivity.
Qed.

(** ** One turn *)

Lemma console_gameLoop_eq (inputs : list Console.Input) (p : Player)
  (d : Console.Dungeon) :
  Console.gameLoop inputs p d =
  if getHealth p <? 20 then Console.GameOver CriticalHealth p d
  else if moves p <=? 0 then Console.GameOver OutOfMoves p d
  else
    let '(currentRoom, d) :=
      match Console.getCurrentRoom d with
      | Some r => (Some r, d)
      | None => Console.advanceToNextRoom d
      end in
    match Console.deref d currentRoom with
    | None => Console.NullRoom
    | Some room =>
        match inputs with
        | [] => Console.AwaitingInput p d
        | Console.NotANumber :: rest => Console.gameLoop rest p d
        | Console.Number choice :: rest =>
            let p := Console.useMove p in
            if choice =? 4 then Console.GameOver QuitGame p d
            else
              let '(p, d, moved) := Console.resolve choice p d room in
              match moved with
              | Advanced None =>
                  Console.GameOver Escaped (Console.sortInventory p) d
              | _ => Console.gameLoop rest p d
              end
        end
    end.
Proof. destruct inputs; reflexivity. Qed.

Lemma catalog_room (r : nat) :
  (r < 5)%nat ->
  exists room, nth_error catalog r = Some room /\ In room catalog /\
               15 <= enemyHealth (enemy room) <= 70.
Proof.
  intros H.
  destruct r as [|[|[|[|[|r]]]]]; try lia;
    (eexists; split; [reflexivity|]; split;
     [simpl; tauto|vm_compute; split; discriminate]).
Qed.

Lemma console_advance_ok (d : Console.Dungeon) :
  consoleDungeonOk d ->
  consoleDungeonOk (snd (Console.advanceToNextRoom d)) /\
  match fst (Console.advanceToNextRoom d) with
  | Some r => (r < 5)%nat /\
              Console.currentRoomIndex d < 4 /\
              Z.of_nat r = Console.currentRoomIndex d + 1
  | None => Console.currentRoomIndex d = 4
  end.
Proof.
  intros [Hr [Hi Hs]]. unfold Console.advanceToNextRoom, Console.size.
  rewrite Hr. simpl List.length.
  destruct (Z.ltb_spec (Console.currentRoomIndex d) (Z.of_nat 5 - 1)); simpl.
  - split; [|lia]. split; [reflexivity|]. split; [simpl; lia|].
    constructor; [lia|exact Hs].
  - split; [|lia]. now split.
Qed.

Lemma console_backtrack_ok (d : Console.Dungeon) :
  consoleDungeonOk d -> consoleDungeonOk (snd (Console.backtrack d)).
Proof.
  intros Hd. pose proof Hd as [Hr [Hi Hs]]. unfold Console.backtrack.
  destruct (1 <? List.length (Console.roomStack d))%nat; [|exact Hd].
  destruct (Console.roomStack d) as [|top [|previousRoom below]]; simpl;
    try exact Hd.
  pose proof (Forall_inv_tail Hs) as Hs'.
  pose proof (Forall_inv Hs') as Hp.
  split; [exact Hr|]. split; [|exact Hs'].
  rewrite Hr. simpl List.length.
  rewrite (findRoom_in_range 5 previousRoom Hp). simpl in Hp |- *. lia.
Qed.

(** With a sound dungeon the loop always finds a room to show. *)
Lemma console_enter_room (d : Console.Dungeon) :
  consoleDungeonOk d ->
  exists cur d1 room,
    match Console.getCurrentRoom d with
    | Some r => (Some r, d)
    | None => Console.advanceToNextRoom d
    end = (Some cur, d1) /\
    Console.deref d1 (Some cur) = Some room /\
    In room catalog /\ 15 <= enemyHealth (enemy room) <= 70 /\
    consoleDungeonOk d1.
Proof.
  intros Hd. pose proof Hd as [Hr [Hi Hs]].
  unfold Console.getCurrentRoom, Console.size. rewrite Hr.
  change (Z.of_nat (List.length catalog)) with 5.
  destruct (Z.leb_spec 0 (Console.currentRoomIndex d)); simpl.
  - destruct (Z.ltb_spec (Console.currentRoomIndex d) 5); [|lia].
    destruct (catalog_room (Z.to_nat (Console.currentRoomIndex d)))
      as [room [Hn [Hin Ht]]]; [lia|].
    exists (Z.to_nat (Console.currentRoomIndex d)), d, room.
    simpl. rewrite Hr. auto.
  - destruct (console_advance_ok d Hd) as [Hd1 Hfst].
    destruct (Console.advanceToNextRoom d) as [[r|] d1] eqn:E; simpl in *;
      [|lia].
    destruct (catalog_room r) as [room [Hn [Hin Ht]]]; [lia|].
    exists r, d1, room. simpl. rewrite (proj1 Hd1). auto.
Qed.

Lemma console_resolve_dungeon_ok (choice : Z) (p : Player)
  (d : Console.Dungeon) (room : Room) :
  consoleDungeonOk d ->
  consoleDungeonOk (snd (fst (Console.resolve choice p d room))).
Proof.
  intros Hd. unfold Console.resolve, Console.fight, Console.bypass.
  destruct (console_advance_ok d Hd) as [Ha _].
  pose proof (console_backtrack_ok d Hd) as Hb.
  destruct (choice =? 1).
  - destruct (_ <=? _); [|exact Hd].
    now destruct (Console.advanceToNextRoom d).
  - destruct (choice =? 2); [now destruct (Console.advanceToNextRoom d)|].
    now destruct (choice =? 3).
Qed.

(** A property of the player that every turn of the console loop keeps
    holds for the player the loop ends or waits with; and from a sound
    dungeon the loop never meets a null room. *)
Lemma console_gameLoop_keeps (I : Player -> Prop) :
  (forall p, I p -> I (Console.sortInventory p)) ->
  (forall p, I p -> 20 <= getHealth p -> 0 < moves p ->
             I (Console.useMove p)) ->
  (forall choice p d room,
      I p -> 20 <= getHealth p -> 0 < moves p -> In room catalog ->
      I (fst (fst (Console.resolve choice (Console.useMove p) d room)))) ->
  forall inputs p d,
    consoleDungeonOk d -> I p ->
    exists p', consolePlayer (Console.gameLoop inputs p d) = Some p' /\ I p'.
Proof.
  intros Hsort Hquit Hstep.
  induction inputs as [|i rest IH]; intros p d Hd Hp;
    rewrite console_gameLoop_eq;
    (destruct (Z.ltb_spec (getHealth p) 20) as [Hh|Hh];
     [now exists p|]);
    (destruct (Z.leb_spec (moves p) 0) as [Hm|Hm]; [now exists p|]);
    destruct (console_enter_room d Hd)
      as [cur [d1 [room [-> [-> [Hin [_ Hd1]]]]]]].
  - now exists p.
  - destruct i as [|choice]; [now apply IH|].
    cbv zeta. destruct (choice =? 4).
    + exists (Console.useMove p). split; [reflexivity|now apply Hquit].
    + specialize (Hstep choice p d1 room Hp Hh Hm Hin).
      pose proof (console_resolve_dungeon_ok choice (Console.useMove p) d1
                    room Hd1) as Hd2.
      destruct (Console.resolve choice (Console.useMove p) d1 room)
        as [[p2 d2] moved]; simpl in Hstep, Hd2.
      destruct moved as [|[r|]]; try (now apply IH).
      exists (Console.sortInventory p2). split; [reflexivity|now apply Hsort].
Qed.

Lemma newDungeon_ok : consoleDungeonOk Console.newDungeon.
Proof.
  split; [reflexivity|]. split; [|constructor].
  unfold Console.newDungeon; simpl; lia.
Qed.

Lemma newPlayer_ok (n : string) : playerOk (newPlayer n).
Proof.
  unfold playerOk, treasureInvariant, getHealth, newPlayer; simpl.
  repeat split; lia.
Qed.

Lemma sort_keeps_invariant (comp : string -> string -> bool) (p : Player) :
  treasureInvariant p ->
  treasureInvariant (setInventory p (list_sort comp (inventory p))).
Proof.
  intros [H1 H2]. split; simpl; trivial.
  now rewrite <- (Permutation_length (list_sort_perm comp (inventory p))).
Qed.

Lemma sort_keeps_playerOk (comp : string -> string -> bool) (p : Player) :
  playerOk p -> playerOk (setInventory p (list_sort comp (inventory p))).
Proof.
  intros [Hh [Hm [He [Hem Ht]]]].
  repeat split; try apply Hh; trivial; now apply sort_keeps_invariant.
Qed.

(** The player after a turn with [moves > 0] taken off one move. *)
Lemma turn_keeps_playerOk (choice : Z) (room : Room) (p p1 p' : Player) :
  playerOk p -> 0 < moves p -> 15 <= enemyHealth (enemy room) <= 70 ->
  getHealth p1 = getHealth p -> moves p1 = moves p - 1 ->
  sameTreasure p p1 ->
  (p' = winner p1 room /\ enemyHealth (enemy room) <= getHealth p1 \/
   p' = loser p1 \/ p' = playerTakeDamage p1 5 \/ p' = p1) ->
  playerOk p'.
Proof.
  intros [Hh [Hm [He [Hem [Hc Hi]]]]] Hpos Ht Hh1 Hm1 [Sc [Se Si]] Hcase.
  unfold playerOk, treasureInvariant.
  destruct Hcase as [[-> Hwin]|[->|[->| ->]]];
    unfold getHealth, winner, loser, playerTakeDamage, setBase in *;
    cbn [health playerBase moves coins enemiesDefeated inventory];
    unfold getHealth;
    rewrite ?takeDamage_health, ?length_app, ?Sc, ?Se, ?Si, ?Hh1, ?Hm1;
    cbn [List.length]; repeat split; lia.
Qed.

Lemma catalog_threshold (room : Room) :
  In room catalog -> 15 <= enemyHealth (enemy room) <= 70.
Proof.
  simpl. intros [<-|[<-|[<-|[<-|[<-|[]]]]]]; vm_compute; split; discriminate.
Qed.

Lemma console_turn_playerOk (choice : Z) (p : Player) (d : Console.Dungeon)
  (room : Room) :
  playerOk p -> 20 <= getHealth p -> 0 < moves p -> In room catalog ->
  playerOk (fst (fst (Console.resolve choice (Console.useMove p) d room))).
Proof.
  intros Hp Hh Hm Hin.
  apply (turn_keeps_playerOk choice room p (Console.useMove p));
    trivial; try reflexivity; [now apply catalog_threshold|now repeat split|].
  unfold Console.resolve.
  destruct (choice =? 1).
  - destruct (Z.leb_spec (enemyHealth (enemy room))
                (getHealth (Console.useMove p))).
    + rewrite console_fight_won by assumption. now left.
    + rewrite console_fight_lost by assumption. right; now left.
  - destruct (choice =? 2).
    + unfold Console.bypass. destruct (Console.advanceToNextRoom d).
      right; right; now left.
    + destruct (choice =? 3); now repeat right.
Qed.

(** A console game from the start never meets a null room, and the player
    it ends or waits with has health from 0 to 100, moves from 0 to 10, at
    most 10 enemies defeated and the treasure that goes with them. *)
Lemma console_game_ok (inputs : list Console.Input) (n : string) :
  exists p',
    consolePlayer (Console.gameLoop inputs (newPlayer n) Console.newDungeon)
    = Some p' /\ playerOk p'.
Proof.
  apply (console_gameLoop_keeps playerOk).
  - intros p. apply sort_keeps_playerOk.
  - intros p Hp Hh Hm.
    apply (turn_keeps_playerOk 0 baseRoom p (Console.useMove p)
             (Console.useMove p)); trivial; try reflexivity;
      [vm_compute; split; discriminate|now repeat split|now repeat right].
  - apply console_turn_playerOk.
  - apply newDungeon_ok.
  - apply newPlayer_ok.
Qed.

(** ** The SFML loop *)

Lemma gui_useMove_positive (p : Player) :
  0 < moves p -> Gui.useMove p = setMoves p (moves p - 1).
Proof.
  intros H. unfold Gui.useMove. now destruct (Z.ltb_spec 0 (moves p)); [|lia].
Qed.

Lemma gui_sortWhenOver_ok (s : Gui.Session) :
  sessionOk s -> sessionOk (Gui.sortWhenOver s).
Proof.
  intros Hs. unfold Gui.sortWhenOver, Gui.isGameOver.
  destruct (Gui.gameState s) eqn:E; trivial.
  destruct Hs as [Hd [Hp _]]. split; [exact Hd|].
  split; [now apply sort_keeps_playerOk|].
  unfold Gui.isPlaying; simpl. discriminate.
Qed.

(** Entering the first room succeeds and leaves the game in play. *)
Lemma gui_enter_ok (s : Gui.Session) :
  sessionOk s -> Gui.isPlaying s = true ->
  exists s0 r,
    Gui.enterFirstRoom s = Some s0 /\ sessionOk s0 /\
    Gui.isPlaying s0 = true /\ Gui.currentRoom s0 = Some r /\
    Gui.player s0 = Gui.player s.
Proof.
  intros Hs Hplay. pose proof Hs as [Hd [Hp Hturn]].
  destruct (Hturn Hplay) as [Hh [Hm Hroom]].
  unfold Gui.enterFirstRoom.
  destruct (Gui.currentRoom s) as [r|] eqn:E.
  - exists s, r. auto.
  - destruct (gui_advance_ok _ Hd) as [Hd1 Hfst].
    destruct (Gui.advanceToNextRoom (Gui.dungeon s)) as [[r|] d1];
      simpl in Hd1, Hfst; [|lia].
    rewrite (gui_deref_catalog d1 r Hd1).
    destruct (catalog_room r) as [room [-> _]]; [lia|].
    eexists; exists r. split; [reflexivity|].
    split; [|now repeat split].
    split; [exact Hd1|]. split; [exact Hp|].
    intros _. cbn [Gui.player Gui.currentRoom]. repeat split; trivial; lia.
Qed.

(** An action in a room of the catalog succeeds; it leaves a sound dungeon
    and player and a room pointer that is null or into the catalog. *)
Lemma gui_act_ok (choice : Z) (s : Gui.Session) (r : nat) :
  sessionOk s -> Gui.isPlaying s = true -> Gui.currentRoom s = Some r ->
  exists s1,
    Gui.act choice s = Some s1 /\
    guiDungeonOk (Gui.dungeon s1) /\ playerOk (Gui.player s1) /\
    match Gui.currentRoom s1 with
    | Some r' => (r' < 5)%nat
    | None => True
    end.
Proof.
  intros Hs Hplay Hcur. pose proof Hs as [Hd [Hp Hturn]].
  destruct (Hturn Hplay) as [Hh [Hm Hr]]. rewrite Hcur in Hr.
  destruct (catalog_room r Hr) as [room [Hroom [_ Ht]]].
  assert (Hok : forall p',
             p' = winner (Gui.useMove (Gui.player s)) room /\
             enemyHealth (enemy room) <= getHealth (Gui.useMove (Gui.player s))
             \/ p' = loser (Gui.useMove (Gui.player s))
             \/ p' = playerTakeDamage (Gui.useMove (Gui.player s)) 5
             \/ p' = Gui.useMove (Gui.player s) ->
             playerOk p').
  { intros p'. rewrite (gui_useMove_positive _ Hm).
    apply (turn_keeps_playerOk choice room (Gui.player s)); trivial;
      try reflexivity. now repeat split. }
  destruct (gui_advance_ok _ Hd) as [Hadv Hnext].
  destruct (gui_backtrack_ok _ Hd) as [Hback Hprev].
  unfold Gui.act. rewrite Hcur.
  destruct (choice =? 1).
  { rewrite (gui_deref_catalog _ r Hd), Hroom.
    destruct (Z.leb_spec (enemyHealth (enemy room))
                (getHealth (Gui.useMove (Gui.player s)))).
    - rewrite gui_fight_won by assumption.
      eexists. split; [reflexivity|]. simpl.
      split; [exact Hadv|]. split; [apply Hok; now left|].
      destruct (fst (Gui.advanceToNextRoom (Gui.dungeon s))); [lia|trivial].
    - rewrite gui_fight_lost by assumption.
      eexists. split; [reflexivity|]. simpl.
      split; [exact Hd|]. split; [apply Hok; right; now left|exact Hr]. }
  destruct (choice =? 2).
  { unfold Gui.bypass.
    destruct (Gui.advanceToNextRoom (Gui.dungeon s)) as [next d1].
    eexists. split; [reflexivity|]. simpl in *.
    split; [exact Hadv|]. split; [apply Hok; right; right; now left|].
    destruct next; [lia|trivial]. }
  destruct (choice =? 3).
  { destruct (Gui.backtrack (Gui.dungeon s)) as [[prev|] d1];
      simpl in Hback, Hprev.
    - rewrite (gui_deref_catalog d1 prev Hback).
      destruct (catalog_room prev Hprev) as [room' [-> _]].
      eexists. split; [reflexivity|]. simpl.
      split; [exact Hback|]. split; [apply Hok; now repeat right|exact Hprev].
    - eexists. split; [reflexivity|]. simpl.
      split; [exact Hback|]. split; [apply Hok; now repeat right|exact Hr]. }
  destruct (choice =? 4);
    (eexists; split; [reflexivity|]; simpl;
     split; [exact Hd|]; split; [apply Hok; now repeat right|exact Hr]).
Qed.

Lemma gui_checkEnd_ok (s : Gui.Session) :
  guiDungeonOk (Gui.dungeon s) -> playerOk (Gui.player s) ->
  match Gui.currentRoom s with
  | Some r => (r < 5)%nat
  | None => True
  end ->
  sessionOk (Gui.checkEnd s).
Proof.
  intros Hd Hp Hr.
  assert (Hover : forall text, sessionOk (Gui.gameOver s text)).
  { intros text. split; [exact Hd|]. split; [exact Hp|]. discriminate. }
  unfold Gui.checkEnd.
  destruct (Gui.isPlaying s) eqn:E.
  - destruct (Gui.currentRoom s) as [r|] eqn:Er; [|apply Hover].
    destruct (Z.ltb_spec (getHealth (Gui.player s)) 20); [apply Hover|].
    destruct (Z.leb_spec (moves (Gui.player s)) 0); [apply Hover|].
    split; [exact Hd|]. split; [exact Hp|].
    intros _. rewrite Er. repeat split; trivial; lia.
  - split; [exact Hd|]. split; [exact Hp|]. rewrite E. discriminate.
Qed.

(** Every iteration of the SFML loop succeeds and keeps the session
    sound: no null room is ever dereferenced, and an action is resolved
    only with health of at least 20 and a move left. *)
Lemma gui_frame_ok (choice : Z) (s : Gui.Session) :
  sessionOk s -> exists s', Gui.frame choice s = Some s' /\ sessionOk s'.
Proof.
  intros Hs. unfold Gui.frame.
  destruct (Gui.isPlaying s) eqn:E.
  - destruct (gui_enter_ok s Hs E) as [s0 [r [-> [Hs0 [E0 [Hr _]]]]]].
    destruct (0 <? choice).
    + destruct (gui_act_ok choice s0 r Hs0 E0 Hr)
        as [s1 [-> [Hd1 [Hp1 Hr1]]]].
      eexists. split; [reflexivity|].
      now apply gui_sortWhenOver_ok, gui_checkEnd_ok.
    + eexists. split; [reflexivity|]. now apply gui_sortWhenOver_ok.
  - eexists. split; [reflexivity|]. now apply gui_sortWhenOver_ok.
Qed.

Lemma gui_loop_ok (choices : list Z) (s : Gui.Session) :
  sessionOk s ->
  exists s', Gui.gameLoopWithGUI choices s = Some s' /\ sessionOk s'.
Proof.
  revert s. induction choices as [|choice rest IH]; intros s Hs; simpl.
  - now exists s.
  - destruct (gui_frame_ok choice s Hs) as [s1 [-> Hs1]]. now apply IH.
Qed.

Lemma startSession_ok (n : string) : sessionOk (Gui.startSession n).
Proof.
  split; [apply gui_newDungeon_ok|]. split; [apply newPlayer_ok|].
  intros _. unfold Gui.startSession, getHealth; simpl. repeat split; lia.
Qed.

(** ** Moves *)

Lemma gui_useMove_moves (p : Player) :
  moves (Gui.useMove p) = if 0 <? moves p then moves p - 1 else moves p.
Proof. unfold Gui.useMove. now destruct (0 <? moves p). Qed.

Lemma gui_call_keeps_moves_in_range (p : Player) (op : PlayerOp) :
  0 <= moves p <= 10 ->
  0 <= moves (callPlayer Gui.useMove Gui.sortInventory p op) <= 10.
Proof.
  intros H. destruct op; simpl; trivial.
  rewrite gui_useMove_moves. destruct (Z.ltb_spec 0 (moves p)); lia.
Qed.

Lemma gui_calls_keep_moves_in_range (ops : list PlayerOp) (p : Player) :
  0 <= moves p <= 10 ->
  0 <= moves (callsPlayer Gui.useMove Gui.sortInventory ops p) <= 10.
Proof.
  revert p. induction ops as [|op ops IH]; intros p H; simpl; trivial.
  apply IH. now apply gui_call_keeps_moves_in_range.
Qed.

(** C7, as stated, fails on the console build: its [useMove] takes a move
    off a player who has none left, and eleven calls from the initial ten
    moves leave -1. *)
Lemma console_useMove_goes_below_zero :
  moves (Console.useMove (setMoves (newPlayer "p") 0)) = -1 /\
  moves (callsPlayer Console.useMove Console.sortInventory
           (repeat UseMove 11) (newPlayer "p")) = -1.
Proof. split; reflexivity. Qed.

(** C7, amended: in the SFML build [useMove] takes one move off, stopping
    at 0, in every state a player is brought to from the initial one by
    calls of its members, and the moves stay between 0 and 10 there; in
    the console build [useMove] takes one move off whatever the count
    (from 0 to -1), and a game from the start always ends or waits for
    input with a player whose moves are not negative, because [gameLoop]
    stops at [moves <= 0] before it reads an action. *)
Theorem useMove_floor (ops : list PlayerOp) (n : string)
  (inputs : list Console.Input) (q : Player) :
  let p := callsPlayer Gui.useMove Gui.sortInventory ops (newPlayer n) in
  (moves (Gui.useMove p) = Z.max 0 (moves p - 1) /\
   0 <= moves p <= 10 /\
   moves (Gui.useMove (setMoves p 0)) = 0) /\
  (moves (Console.useMove q) = moves q - 1 /\
   exists p',
     consolePlayer (Console.gameLoop inputs (newPlayer n) Console.newDungeon)
     = Some p' /\ 0 <= moves p').
Proof.
  intros p.
  assert (Hp : 0 <= moves p <= 10)
    by (apply gui_calls_keep_moves_in_range; simpl; lia).
  repeat split; try apply Hp.
  - rewrite gui_useMove_moves. destruct (Z.ltb_spec 0 (moves p)); lia.
  - destruct (console_game_ok inputs n) as [p' [E Hok]].
    exists p'. split; [exact E|apply Hok].
Qed.

(** ** The outcome of a turn *)

Lemma gui_act_state (choice : Z) (s s1 : Gui.Session) :
  Gui.act choice s = Some s1 ->
  Gui.gameState s1 = (if choice =? 4 then Gui.GAME_OVER else Gui.gameState s)
  /\ Gui.gameOverMessage s1
     = (if choice =? 4 then guiText QuitGame else Gui.gameOverMessage s).
Proof.
  unfold Gui.act.
  destruct (Z.eqb_spec choice 1) as [->|H1].
  { destruct (Gui.deref _ _); [|discriminate].
    destruct (Gui.fight _ _ _) as [[p' d] moved]. now intros [= <-]. }
  destruct (Z.eqb_spec choice 2) as [->|H2].
  { destruct (Gui.bypass _ _) as [[p' d] moved]. now intros [= <-]. }
  destruct (Z.eqb_spec choice 3) as [->|H3].
  { destruct (Gui.backtrack _) as [[r|] d]; [|now intros [= <-]].
    destruct (Gui.deref _ _); [|discriminate]. now intros [= <-]. }
  destruct (Z.eqb_spec choice 4) as [->|H4]; now intros [= <-].
Qed.

(** C4: after every action the outcome is WIN when the room pointer the
    turn leaves is null, else LOSE for health below 20, else LOSE for no
    moves left, else the game goes on, in this order in both builds (the
    console build takes its two LOSE checks at the start of the next call
    of [gameLoop]); Quit ends the game before any of the checks.  Nothing
    but the room pointer is looked at for WIN, so exhausting the catalog
    wins whatever health and moves are left.  The action may be the first
    of the game, before which the first room is entered.  In the console
    build every number read is an action, those the [switch] does not know
    included; in the SFML build an iteration resolves an action when
    [choice] is above 0, and does nothing but enter the first room
    otherwise. *)
Theorem outcome_priority (choice : Z) (s : Gui.Session) (p : Player)
  (d : Console.Dungeon) (rest : list Console.Input)
  (Hint : isInt choice)
  (Hs : sessionOk s) (Hplaying : Gui.isPlaying s = true)
  (Hhealth : 20 <= getHealth p) (Hmoves : 0 < moves p)
  (Hd : consoleDungeonOk d) :
  (exists s0,
     Gui.enterFirstRoom s = Some s0 /\
     if 0 <? choice then
       exists s1,
         Gui.act choice s0 = Some s1 /\
         Gui.frame choice s
         = Some (if choice =? 4
                 then Gui.sortWhenOver (Gui.gameOver s1 (guiText QuitGame))
                 else match specOutcome (Gui.currentRoom s1) (Gui.player s1)
                      with
                      | Some e => Gui.sortWhenOver (Gui.gameOver s1 (guiText e))
                      | None => s1
                      end)
     else Gui.frame choice s = Some s0) /\
  (exists cur d0 room,
     match Console.getCurrentRoom d with
     | Some r => (Some r, d)
     | None => Console.advanceToNextRoom d
     end = (Some cur, d0) /\
     Console.deref d0 (Some cur) = Some room /\
     Console.gameLoop (Console.Number choice :: rest) p d
     = (if choice =? 4 then Console.GameOver QuitGame (Console.useMove p) d0
        else
          let '(p1, d1, moved) :=
            Console.resolve choice (Console.useMove p) d0 room in
          match specOutcome (moveTo (Some cur) moved) p1 with
          | Some Escaped =>
              Console.GameOver Escaped (Console.sortInventory p1) d1
          | Some e => Console.GameOver e p1 d1
          | None => Console.gameLoop rest p1 d1
          end)) /\
  (forall q, specOutcome None q = Some Escaped).
Proof.
  split; [|split; [|reflexivity]].
  - destruct (gui_enter_ok s Hs Hplaying)
      as [s0 [r [E0 [Hs0 [Eplay0 [Hr _]]]]]].
    exists s0. split; [exact E0|].
    assert (Hst0 : Gui.gameState s0 = Gui.PLAYING).
    { unfold Gui.isPlaying in Eplay0. now destruct (Gui.gameState s0). }
    unfold Gui.frame. rewrite Hplaying, E0.
    destruct (Z.ltb_spec 0 choice) as [Hpos|Hneg].
    + destruct (gui_act_ok choice s0 r Hs0 Eplay0 Hr) as [s1 [Hact _]].
      exists s1. split; [exact Hact|]. rewrite Hact.
      destruct (gui_act_state choice s0 s1 Hact) as [Hst Hmsg].
      rewrite Hst0 in Hst.
      unfold Gui.checkEnd, Gui.isPlaying. rewrite Hst.
      destruct (choice =? 4).
      * do 2 f_equal. unfold Gui.gameOver. rewrite <- Hst, <- Hmsg.
        now destruct s1.
      * unfold specOutcome. destruct (Gui.currentRoom s1); trivial.
        destruct (getHealth (Gui.player s1) <? 20); trivial.
        destruct (moves (Gui.player s1) <=? 0); trivial.
        unfold Gui.sortWhenOver, Gui.isGameOver. now rewrite Hst.
    + unfold Gui.sortWhenOver, Gui.isGameOver. now rewrite Hst0.
  - destruct (console_enter_room d Hd) as [cur [d0 [room [Ee [Er _]]]]].
    exists cur, d0, room. split; [exact Ee|]. split; [exact Er|].
    rewrite console_gameLoop_eq.
    destruct (Z.ltb_spec (getHealth p) 20); [lia|].
    destruct (Z.leb_spec (moves p) 0); [lia|].
    rewrite Ee, Er. cbv zeta.
    destruct (choice =? 4); trivial.
    destruct (Console.resolve choice (Console.useMove p) d0 room)
      as [[p1 d1] moved].
    destruct moved as [|[r|]]; simpl; trivial;
      rewrite (console_gameLoop_eq rest p1 d1);
      destruct (getHealth p1 <? 20); trivial;
      destruct (moves p1 <=? 0); trivial.
Qed.

Lemma outcome_priority_witness :
  let p := mkPlayer (mkCharacter "p" 20) [] 1 0 0 in
  let gd := Gui.mkDungeon (Gui.roomManager Gui.newDungeon)
              (Gui.enemyQueue Gui.newDungeon) [3; 2; 1; 0]%nat 4 in
  let cd := Console.mkDungeon catalog (map enemy catalog)
              [4; 3; 2; 1; 0]%nat 4 in
  let s := Gui.mkSession p gd Gui.PLAYING (Some 4%nat) "" "" in
  option_map
    (fun s' => (Gui.gameState s', Gui.gameOverMessage s',
                getHealth (Gui.player s'), moves (Gui.player s')))
    (Gui.frame 2 s)
  = Some (Gui.GAME_OVER, guiText Escaped, 15, 0) /\
  Console.gameLoop [Console.Number 2] p cd
  = Console.GameOver Escaped (mkPlayer (mkCharacter "p" 15) [] 0 0 0) cd /\
  Console.gameLoop [Console.Number (-7)] p Console.newDungeon
  = Console.GameOver OutOfMoves (mkPlayer (mkCharacter "p" 20) [] 0 0 0)
      (snd (Console.advanceToNextRoom Console.newDungeon)).
Proof.
  cbv zeta.
  pose (p := mkPlayer (mkCharacter "p" 20) [] 1 0 0).
  pose (gd := Gui.mkDungeon (Gui.roomManager Gui.newDungeon)
                (Gui.enemyQueue Gui.newDungeon) [3; 2; 1; 0]%nat 4).
  pose (cd := Console.mkDungeon catalog (map enemy catalog)
                [4; 3; 2; 1; 0]%nat 4).
  pose (s := Gui.mkSession p gd Gui.PLAYING (Some 4%nat) "" "").
  fold p gd cd s.
  assert (Hs : sessionOk s) by by_evaluation.
  assert (Hhealth : 20 <= getHealth p) by (vm_compute; discriminate).
  assert (Hmoves : 0 < moves p) by reflexivity.
  assert (Hcd : consoleDungeonOk cd) by by_evaluation.
  assert (Hint2 : isInt 2) by by_evaluation.
  assert (Hint7 : isInt (-7)) by by_evaluation.
  assert (Hnew : consoleDungeonOk Console.newDungeon) by by_evaluation.
  destruct (outcome_priority 2 s p cd [] Hint2 Hs eq_refl Hhealth Hmoves Hcd)
    as [[s0 [E0 Hg]] [[cur [d0 [room [Ee [Er Hc]]]]] _]].
  destruct (outcome_priority (-7) s p Console.newDungeon [] Hint7 Hs eq_refl
              Hhealth Hmoves Hnew)
    as [_ [[cur' [d0' [room' [Ee' [Er' Hc']]]]] _]].
  split; [|split].
  - change (0 <? 2) with true in Hg. cbv iota in Hg.
    destruct Hg as [s1 [E1 Hg]]. rewrite Hg.
    vm_compute in E0. injection E0 as <-.
    vm_compute in E1. injection E1 as <-. reflexivity.
  - rewrite Hc. vm_compute in Ee. injection Ee as <- <-.
    vm_compute in Er. injection Er as <-. reflexivity.
  - rewrite Hc'. vm_compute in Ee'. injection Ee' as <- <-.
    vm_compute in Er'. injection Er' as <-. reflexivity.
Defined.

(** ** The inventory at the end of the game *)

Lemma gui_frame_sorts (choice : Z) (s s' : Gui.Session) :
  Gui.frame choice s = Some s' ->
  Gui.gameState s' = Gui.GAME_OVER ->
  StronglySorted (notAfter Gui.lowerLess) (inventory (Gui.player s')).
Proof.
  assert (H : forall x, Gui.gameState (Gui.sortWhenOver x) = Gui.GAME_OVER ->
                        StronglySorted (notAfter Gui.lowerLess)
                          (inventory (Gui.player (Gui.sortWhenOver x)))).
  { intros x. unfold Gui.sortWhenOver, Gui.isGameOver.
    destruct (Gui.gameState x) eqn:E; simpl; intros Hover; try congruence.
    apply list_sort_sorted; [exact lowerLess_asym|exact lowerLess_trans]. }
  unfold Gui.frame.
  destruct (Gui.isPlaying s).
  - destruct (Gui.enterFirstRoom s) as [s0|]; [|discriminate].
    destruct (0 <? choice).
    + destruct (Gui.act choice s0) as [s1|]; [|discriminate].
      intros [= <-]. apply H.
    + intros [= <-]. apply H.
  - intros [= <-]. apply H.
Qed.

Lemma console_escape_sorted (inputs : list Console.Input) (p : Player)
  (d : Console.Dungeon) (p' : Player) :
  consoleReport (Console.gameLoop inputs p d) = Some (Escaped, p') ->
  StronglySorted (notAfter string_lt) (inventory p').
Proof.
  revert p d.
  induction inputs as [|i rest IH]; intros p d;
    rewrite console_gameLoop_eq;
    destruct (getHealth p <? 20); try discriminate;
    destruct (moves p <=? 0); try discriminate;
    destruct (match Console.getCurrentRoom d with
              | Some r => (Some r, d)
              | None => Console.advanceToNextRoom d
              end) as [cur d1];
    destruct (Console.deref d1 cur) as [room|]; try discriminate.
  destruct i as [|choice]; [apply IH|].
  cbv zeta. destruct (choice =? 4); [discriminate|].
  destruct (Console.resolve choice (Console.useMove p) d1 room)
    as [[p2 d2] moved].
  destruct moved as [|[r|]]; try apply IH.
  simpl. intros [= <-]. simpl.
  apply list_sort_sorted; [exact string_lt_asym|exact string_le_trans].
Qed.

(** C5 on the console build: after Fight, Fight, Quit the game reports the
    inventory in the order of collection, which is not ascending; the same
    happens when the game is lost for health (four Fights) and for moves
    (two Fights and eight turns lost on an unknown choice).  Only the two
    winning paths of [gameLoop] sort before they report. *)
Theorem console_reports_unsorted_inventory :
  let fight := Console.Number 1 in
  let two := ["5 Coins"; "Armour"; "5 Coins"; "Health Booster Potion"] in
  let three := (two ++ ["Health Booster Potion"; "Armour"])%list in
  (consoleReport
     (Console.gameLoop [fight; fight; Console.Number 4]
        (newPlayer "p") Console.newDungeon)
   = Some (QuitGame, mkPlayer (mkCharacter "p" 60) two 7 20 2) /\
   consoleReport
     (Console.gameLoop [fight; fight; fight; fight]
        (newPlayer "p") Console.newDungeon)
   = Some (CriticalHealth, mkPlayer (mkCharacter "p" 15) three 6 30 3) /\
   consoleReport
     (Console.gameLoop (fight :: fight :: repeat (Console.Number 9) 8)
        (newPlayer "p") Console.newDungeon)
   = Some (OutOfMoves, mkPlayer (mkCharacter "p" 60) two 0 20 2)) /\
  (~ StronglySorted (notAfter string_lt) two /\
   ~ StronglySorted (notAfter Gui.lowerLess) two /\
   ~ StronglySorted (notAfter string_lt) three /\
   ~ StronglySorted (notAfter Gui.lowerLess) three).
Proof.
  cbv zeta. split; [repeat split|].
  assert (H : forall comp l,
             comp "5 Coins" "Armour" = true ->
             ~ StronglySorted (notAfter comp)
                 ("5 Coins" :: "Armour" :: "5 Coins" :: l)).
  { intros comp l Hc Hs. inversion Hs as [|? ? Hs1 _]; subst.
    inversion Hs1 as [|? ? _ Hf]; subst.
    inversion Hf as [|? ? Hbad _]; subst.
    unfold notAfter in Hbad. congruence. }
  repeat split; apply H; reflexivity.
Qed.

(** ** Five fights *)

(** A won fight as a turn of the console loop. *)
Lemma console_won_fight_turn (p : Player) (d : Console.Dungeon) (cur : nat)
  (room : Room) (rest : list Console.Input) :
  20 <= getHealth p -> 0 < moves p ->
  Console.getCurrentRoom d = Some cur ->
  Console.deref d (Some cur) = Some room ->
  enemyHealth (enemy room) <= getHealth p ->
  Console.gameLoop (Console.Number 1 :: rest) p d
  = match fst (Console.advanceToNextRoom d) with
    | None =>
        Console.GameOver Escaped
          (Console.sortInventory (winner (Console.useMove p) room))
          (snd (Console.advanceToNextRoom d))
    | Some _ =>
        Console.gameLoop rest (winner (Console.useMove p) room)
          (snd (Console.advanceToNextRoom d))
    end.
Proof.
  intros Hh Hm Hcur Hroom Hwin.
  rewrite console_gameLoop_eq.
  destruct (Z.ltb_spec (getHealth p) 20); [lia|].
  destruct (Z.leb_spec (moves p) 0); [lia|].
  rewrite Hcur, Hroom. cbv zeta. simpl (1 =? 4).
  unfold Console.resolve. simpl (1 =? 1).
  rewrite console_fight_won by exact Hwin.
  now destruct (fst (Console.advanceToNextRoom d)).
Qed.

(** The first call of the console loop enters the first room. *)
Lemma console_first_turn (inputs : list Console.Input) (p : Player) :
  20 <= getHealth p -> 0 < moves p ->
  Console.gameLoop inputs p Console.newDungeon
  = Console.gameLoop inputs p
      (snd (Console.advanceToNextRoom Console.newDungeon)).
Proof.
  intros Hh Hm.
  rewrite (console_gameLoop_eq inputs p Console.newDungeon).
  rewrite (console_gameLoop_eq inputs p
             (snd (Console.advanceToNextRoom Console.newDungeon))).
  destruct (Z.ltb_spec (getHealth p) 20); [lia|].
  destruct (Z.leb_spec (moves p) 0); [lia|].
  reflexivity.
Qed.

(** C8, as stated, describes a run the game cannot make: from health 100
    the health is below the fourth threshold before the fourth fight, and
    five Fights end in a loss for critical health, with three enemies
    defeated, 30 coins and six items. *)
Lemma five_fights_from_100_lose :
  ~ staysAbove 100 thresholds /\
  consoleReport
    (Console.gameLoop (repeat (Console.Number 1) 5)
       (newPlayer "p") Console.newDungeon)
  = Some (CriticalHealth,
          mkPlayer (mkCharacter "p" 15)
            ["5 Coins"; "Armour"; "5 Coins"; "Health Booster Potion";
             "Health Booster Potion"; "Armour"] 6 30 3) /\
  consoleReport
    (Console.gameLoop (repeat (Console.Number 1) 5)
       (newPlayer "p") Console.newDungeon)
  <> Some (Escaped,
           mkPlayer (mkCharacter "p" 0)
             (list_sort string_lt
                ["5 Coins"; "Armour"; "5 Coins"; "Health Booster Potion";
                 "Health Booster Potion"; "Armour"; "5 Coins"; "Armour";
                 "5 Coins"; "Health Booster Potion"]) 5 50 5).
Proof.
  split; [|split; [reflexivity|discriminate]].
  intros H.
  assert (H' : 15 <= 100 /\ 25 <= 100 - 15 /\ 35 <= 100 - 15 - 25 /\
               50 <= 100 - 15 - 25 - 35 /\ True)
    by (repeat split; apply H).
  lia.
Qed.

(** C8, amended: the health stays at or above each of the thresholds 15,
    25, 35, 50, 70 before the corresponding fight only from a starting
    health of 195 or more, never from 100; from such a health and 10 moves,
    five Fights on the console build end after the fifth advance in WIN
    with the starting health less 195 (nothing is cut off at 0), 5 moves
    left, 5 enemies defeated, 50 coins and the 10 items, sorted. *)
Theorem five_fights_escape (n : string) (h : Z)
  (H : staysAbove h thresholds) :
  195 <= h /\
  consoleReport
    (Console.gameLoop (repeat (Console.Number 1) 5)
       (mkPlayer (mkCharacter n h) [] 10 0 0) Console.newDungeon)
  = Some (Escaped,
          mkPlayer (mkCharacter n (h - 15 - 25 - 35 - 50 - 70))
            ["5 Coins"; "5 Coins"; "5 Coins"; "5 Coins";
             "Armour"; "Armour"; "Armour";
             "Health Booster Potion"; "Health Booster Potion";
             "Health Booster Potion"] 5 50 5).
Proof.
  assert (H' : 15 <= h /\ 25 <= h - 15 /\ 35 <= h - 15 - 25 /\
               50 <= h - 15 - 25 - 35 /\ 70 <= h - 15 - 25 - 35 - 50 /\ True)
    by exact H.
  clear H. split; [lia|].
  pose (visited := fun stack index =>
          Console.mkDungeon catalog (map enemy catalog) stack index).
  pose (p0 := mkPlayer (mkCharacter n h) [] 10 0 0).
  pose (p1 := winner (Console.useMove p0) baseRoom).
  pose (p2 := winner (Console.useMove p1) bronzeRoom).
  pose (p3 := winner (Console.useMove p2) platinumRoom).
  pose (p4 := winner (Console.useMove p3) silverRoom).
  pose (p5 := winner (Console.useMove p4) goldRoom).
  pose (fight := Console.Number 1).
  assert (E : Console.gameLoop (repeat fight 5) p0 Console.newDungeon
              = Console.GameOver Escaped (Console.sortInventory p5)
                  (visited [4; 3; 2; 1; 0]%nat 4)).
  { transitivity (Console.gameLoop (repeat fight 5) p0 (visited [0%nat] 0)).
    { apply console_first_turn; fight_arith. }
    transitivity (Console.gameLoop (repeat fight 4) p1
                    (visited [1; 0]%nat 1)).
    { apply (console_won_fight_turn p0 (visited [0%nat] 0) 0 baseRoom);
        fight_arith. }
    transitivity (Console.gameLoop (repeat fight 3) p2
                    (visited [2; 1; 0]%nat 2)).
    { apply (console_won_fight_turn p1 (visited [1; 0]%nat 1) 1 bronzeRoom);
        fight_arith. }
    transitivity (Console.gameLoop (repeat fight 2) p3
                    (visited [3; 2; 1; 0]%nat 3)).
    { apply (console_won_fight_turn p2 (visited [2; 1; 0]%nat 2) 2
               platinumRoom); fight_arith. }
    transitivity (Console.gameLoop (repeat fight 1) p4
                    (visited [4; 3; 2; 1; 0]%nat 4)).
    { apply (console_won_fight_turn p3 (visited [3; 2; 1; 0]%nat 3) 3
               silverRoom); fight_arith. }
    apply (console_won_fight_turn p4 (visited [4; 3; 2; 1; 0]%nat 4) 4
             goldRoom); fight_arith. }
  fold p0 fight. rewrite E. reflexivity.
Qed.

Lemma five_fights_escape_witness :
  consoleReport
    (Console.gameLoop (repeat (Console.Number 1) 5)
       (mkPlayer (mkCharacter "p" 195) [] 10 0 0) Console.newDungeon)
  = Some (Escaped,
          mkPlayer (mkCharacter "p" 0)
            ["5 Coins"; "5 Coins"; "5 Coins"; "5 Coins";
             "Armour"; "Armour"; "Armour";
             "Health Booster Potion"; "Health Booster Potion";
             "Health Booster Potion"] 5 50 5).
Proof.
  apply (five_fights_escape "p" 195).
  repeat split; vm_compute; discriminate.
Defined.

(** ** The treasure counters *)

Lemma console_resolve_treasure (choice : Z) (p : Player)
  (d : Console.Dungeon) (room : Room) :
  treasureChange choice (Some room) p
    (fst (fst (Console.resolve choice p d room))).
Proof.
  unfold treasureChange, Console.resolve.
  destruct (choice =? 1); simpl.
  - destruct (Z.leb_spec (enemyHealth (enemy room)) (getHealth p)).
    + rewrite console_fight_won by assumption. now repeat split.
    + rewrite console_fight_lost by assumption. now repeat split.
  - destruct (choice =? 2); [|destruct (choice =? 3); now repeat split].
    unfold Console.bypass. destruct (Console.advanceToNextRoom d).
    now repeat split.
Qed.

Lemma gui_act_treasure (choice : Z) (s s1 : Gui.Session) :
  Gui.act choice s = Some s1 ->
  treasureChange choice (Gui.deref (Gui.dungeon s) (Gui.currentRoom s))
    (Gui.player s) (Gui.player s1).
Proof.
  assert (Hsame : forall p', sameTreasure (Gui.useMove (Gui.player s)) p' ->
                             sameTreasure (Gui.player s) p').
  { intros p' H. unfold sameTreasure, Gui.useMove in *.
    now destruct (0 <? moves (Gui.player s)). }
  assert (Hhealth : getHealth (Gui.useMove (Gui.player s))
                    = getHealth (Gui.player s)).
  { unfold Gui.useMove. now destruct (0 <? moves (Gui.player s)). }
  unfold treasureChange, Gui.act.
  destruct (Z.eqb_spec choice 1) as [->|H1].
  { destruct (Gui.deref _ _) as [room|]; [|discriminate]. simpl.
    rewrite <- Hhealth.
    destruct (Z.leb_spec (enemyHealth (enemy room))
                (getHealth (Gui.useMove (Gui.player s)))).
    - rewrite gui_fight_won by assumption. intros [= <-]. simpl.
      unfold gainedTreasure, Gui.useMove; simpl.
      now destruct (0 <? moves (Gui.player s)).
    - rewrite gui_fight_lost by assumption. intros [= <-]. simpl.
      apply Hsame. now repeat split. }
  assert (Hgoal : forall p', Gui.player s1 = p' ->
                             sameTreasure (Gui.useMove (Gui.player s)) p' ->
             match Gui.deref (Gui.dungeon s) (Gui.currentRoom s) with
             | Some r =>
                 if false && (enemyHealth (enemy r) <=? getHealth (Gui.player s))
                 then gainedTreasure r (Gui.player s) (Gui.player s1)
                 else sameTreasure (Gui.player s) (Gui.player s1)
             | None => sameTreasure (Gui.player s) (Gui.player s1)
             end).
  { intros p' -> H. destruct (Gui.deref _ _); simpl; now apply Hsame. }
  destruct (Z.eqb_spec choice 2) as [->|H2].
  { unfold Gui.bypass. destruct (Gui.advanceToNextRoom _).
    intros [= <-]. eapply Hgoal; [reflexivity|now repeat split]. }
  destruct (Z.eqb_spec choice 3) as [->|H3].
  { destruct (Gui.backtrack _) as [[r|] d].
    - destruct (Gui.deref d (Some r)); [|discriminate].
      intros [= <-]. eapply Hgoal; [reflexivity|now repeat split].
    - intros [= <-]. eapply Hgoal; [reflexivity|now repeat split]. }
  destruct (choice =? 4); intros [= <-];
    (eapply Hgoal; [reflexivity|now repeat split]).
Qed.

(** C9: from a freshly created player, every game reaches only states
    whose player has [coins = 10 * enemiesDefeated] and twice as many items
    as enemies defeated (the console loop always ends or waits for input
    with such a player, the SFML loop always comes out of an iteration with
    one); a turn changes coins, enemiesDefeated and inventory only when it is
    a won Fight, and then by +10, +1 and the two items of the room.  (The
    sort at the end of a game reorders the inventory and changes no
    count.) *)
Theorem treasure_counters (n : string) (inputs : list Console.Input)
  (choices : list Z) (choice : Z) (p : Player) (cd : Console.Dungeon)
  (room : Room) (s : Gui.Session) :
  (exists p',
     consolePlayer (Console.gameLoop inputs (newPlayer n) Console.newDungeon)
     = Some p' /\ treasureInvariant p') /\
  (exists s',
     Gui.gameLoopWithGUI choices (Gui.startSession n) = Some s' /\
     treasureInvariant (Gui.player s')) /\
  treasureChange choice (Some room) p
    (fst (fst (Console.resolve choice (Console.useMove p) cd room))) /\
  match Gui.act choice s with
  | Some s1 =>
      treasureChange choice (Gui.deref (Gui.dungeon s) (Gui.currentRoom s))
        (Gui.player s) (Gui.player s1)
  | None => True
  end.
Proof.
  split; [|split; [|split]].
  - destruct (console_game_ok inputs n) as [p' [E Hok]].
    exists p'. split; [exact E|apply Hok].
  - destruct (gui_loop_ok choices _ (startSession_ok n)) as [s' [E Hok]].
    exists s'. split; [exact E|apply Hok].
  - exact (console_resolve_treasure choice (Console.useMove p) cd room).
  - destruct (Gui.act choice s) as [s1|] eqn:E; trivial.
    now apply gui_act_treasure.
Qed.

(** * Further properties *)

(** ** Back and forth in the dungeon *)

(** X1: [backtrack] with more than one room on the stack, in both builds: the
    top goes, the room below it is returned and, when it is a room of the
    catalog, becomes the current one. *)
Theorem backtrack_pops_one (cd : Console.Dungeon) (gd : Gui.Dungeon)
  (top prev : nat) (below : list nat)
  (Hcs : Console.roomStack cd = top :: prev :: below)
  (Hcp : (prev < List.length (Console.rooms cd))%nat)
  (Hgs : Gui.roomStack gd = top :: prev :: below)
  (Hgp : (prev < List.length (Gui.assets (Gui.roomManager gd)))%nat) :
  Console.backtrack cd
  = (Some prev,
     Console.mkDungeon (Console.rooms cd) (Console.enemyQueue cd)
       (prev :: below) (Z.of_nat prev)) /\
  Gui.backtrack gd
  = (Some prev,
     Gui.mkDungeon (Gui.roomManager gd) (Gui.enemyQueue gd)
       (prev :: below) (Z.of_nat prev)).
Proof.
  unfold Console.backtrack, Gui.backtrack. rewrite Hcs, Hgs. simpl.
  now rewrite !findRoom_in_range by assumption.
Qed.

Lemma backtrack_pops_one_witness :
  Console.backtrack (consoleAdvances 3 Console.newDungeon)
  = (Some 1%nat,
     Console.mkDungeon catalog (map enemy catalog) [1; 0]%nat 1) /\
  Gui.backtrack (Gui.mkDungeon (Gui.roomManager Gui.newDungeon)
                   (Gui.enemyQueue Gui.newDungeon) [2; 1; 0]%nat 3)
  = (Some 1%nat,
     Gui.mkDungeon (Gui.roomManager Gui.newDungeon)
       (Gui.enemyQueue Gui.newDungeon) [1; 0]%nat 1).
Proof.
  apply (backtrack_pops_one (consoleAdvances 3 Console.newDungeon)
           (Gui.mkDungeon (Gui.roomManager Gui.newDungeon)
              (Gui.enemyQueue Gui.newDungeon) [2; 1; 0]%nat 3)
           2%nat 1%nat [0%nat]); try reflexivity; vm_compute; lia.
Defined.


Lemma pathTo_next (index : Z) :
  -1 <= index -> pathTo (index + 1) = Z.to_nat (index + 1) :: pathTo index.
Proof.
  intros H. unfold pathTo.
  replace (Z.to_nat (index + 1 + 1)) with (S (Z.to_nat (index + 1))) by lia.
  now rewrite seq_S, rev_app_distr.
Qed.

Lemma pathTo_cons (index : Z) :
  0 <= index -> pathTo index = Z.to_nat index :: pathTo (index - 1).
Proof.
  intros H. replace index with (index - 1 + 1) at 1 2 by lia.
  rewrite (pathTo_next (index - 1)) by lia. reflexivity.
Qed.

Lemma console_advance_path (d : Console.Dungeon) :
  consolePathOk d -> consolePathOk (snd (Console.advanceToNextRoom d)).
Proof.
  intros Hd. pose proof Hd as [Hr [Hi Hs]].
  unfold Console.advanceToNextRoom, Console.size. rewrite Hr.
  change (Z.of_nat (List.length catalog)) with 5.
  destruct (Z.ltb_spec (Console.currentRoomIndex d) (5 - 1)); [|exact Hd].
  split; [reflexivity|]. split; [simpl; lia|].
  simpl. rewrite Hs. symmetry. apply pathTo_next. lia.
Qed.

Lemma console_backtrack_path (d : Console.Dungeon) :
  consolePathOk d -> consolePathOk (snd (Console.backtrack d)).
Proof.
  intros Hd. pose proof Hd as [Hr [Hi Hs]].
  unfold Console.backtrack. rewrite Hs, Hr.
  destruct (Z.le_gt_cases (Console.currentRoomIndex d) 0) as [Hle|Hgt].
  - assert (Hshort : (List.length (pathTo (Console.currentRoomIndex d)) <= 1)%nat).
    { unfold pathTo. rewrite length_rev, length_seq. lia. }
    destruct (Nat.ltb_spec 1 (List.length (pathTo (Console.currentRoomIndex d))));
      [lia|exact Hd].
  - rewrite (pathTo_cons (Console.currentRoomIndex d)) by lia.
    rewrite (pathTo_cons (Console.currentRoomIndex d - 1)) by lia.
    simpl.
    rewrite findRoom_in_range by lia.
    split; [reflexivity|]. split; [simpl; lia|]. simpl.
    rewrite (pathTo_cons (Z.of_nat (Z.to_nat (Console.currentRoomIndex d - 1))))
      by lia.
    rewrite !Z2Nat.id by lia. reflexivity.
Qed.

Lemma console_calls_path (ops : list DungeonOp) (d : Console.Dungeon) :
  consolePathOk d -> consolePathOk (consoleCallsDungeon ops d).
Proof.
  revert d. induction ops as [|op ops IH]; intros d Hd; simpl; trivial.
  apply IH. destruct op; simpl;
    [now apply console_advance_path|now apply console_backtrack_path].
Qed.

(** X2: In the console build, whatever calls of [advanceToNextRoom] and
    [backtrack] were made on a new dungeon, the stack holds the rooms from
    the current one down to the first, each once, and its top is the current
    room. *)
Theorem console_stack_is_path (ops : list DungeonOp) :
  let d := consoleCallsDungeon ops Console.newDungeon in
  Console.roomStack d = pathTo (Console.currentRoomIndex d) /\
  -1 <= Console.currentRoomIndex d <= 4 /\
  hd_error (Console.roomStack d) = Console.getCurrentRoom d /\
  Z.of_nat (List.length (Console.roomStack d))
  = Console.currentRoomIndex d + 1.
Proof.
  cbv zeta.
  destruct (console_calls_path ops Console.newDungeon) as [Hr [Hi Hs]].
  { split; [reflexivity|]. split; [simpl; lia|reflexivity]. }
  split; [exact Hs|]. split; [exact Hi|]. rewrite Hs. split.
  - unfold Console.getCurrentRoom, Console.size. rewrite Hr.
    change (Z.of_nat (List.length catalog)) with 5.
    destruct (Z.leb_spec 0 (Console.currentRoomIndex
                              (consoleCallsDungeon ops Console.newDungeon)))
      as [H0|H0].
    + destruct (Z.ltb_spec (Console.currentRoomIndex
                              (consoleCallsDungeon ops Console.newDungeon)) 5);
        [|lia].
      now rewrite pathTo_cons by lia.
    + replace (Console.currentRoomIndex
                 (consoleCallsDungeon ops Console.newDungeon)) with (-1) by lia.
      reflexivity.
  - unfold pathTo. rewrite length_rev, length_seq. lia.
Qed.

(** X3: In the console build an advance followed by a backtrack is a round
    trip: when the current room is on top of the stack and is not the last
    room, the backtrack returns it and the dungeon is as before the
    advance. *)
Theorem console_advance_backtrack (d : Console.Dungeon) (cur : nat)
  (below : list nat)
  (Hstack : Console.roomStack d = cur :: below)
  (Hcur : Z.of_nat cur = Console.currentRoomIndex d)
  (Hlast : Console.currentRoomIndex d < Console.size d - 1) :
  Console.backtrack (snd (Console.advanceToNextRoom d)) = (Some cur, d).
Proof.
  unfold Console.advanceToNextRoom.
  destruct (Z.ltb_spec (Console.currentRoomIndex d) (Console.size d - 1));
    [|lia].
  unfold Console.backtrack. simpl. rewrite Hstack. simpl.
  rewrite findRoom_in_range by (unfold Console.size in *; lia).
  rewrite Hcur, <- Hstack. now destruct d.
Qed.

Lemma console_advance_backtrack_witness :
  let d := consoleAdvances 2 Console.newDungeon in
  Console.backtrack (snd (Console.advanceToNextRoom d)) = (Some 1%nat, d).
Proof.
  cbv zeta.
  apply (console_advance_backtrack (consoleAdvances 2 Console.newDungeon)
           1%nat [0%nat]); reflexivity.
Defined.

(** X4: An advance after a successful backtrack brings the stack back to the
    depth it had before the backtrack, with another room on top: in the
    console build the room after the one gone back to, in the SFML build
    the room gone back to, which is then on the stack twice. *)
Theorem advance_after_backtrack (cd : Console.Dungeon) (gd : Gui.Dungeon)
  (top prev : nat) (below : list nat)
  (Hcs : Console.roomStack cd = top :: prev :: below)
  (Hcp : Z.of_nat prev < Console.size cd - 1)
  (Hgs : Gui.roomStack gd = top :: prev :: below)
  (Hgp : Z.of_nat prev < Gui.getAssetCount (Gui.roomManager gd)) :
  (let d := snd (Console.advanceToNextRoom (snd (Console.backtrack cd))) in
   Console.roomStack d = S prev :: prev :: below /\
   Console.currentRoomIndex d = Z.of_nat prev + 1) /\
  (let d := snd (Gui.advanceToNextRoom (snd (Gui.backtrack gd))) in
   Gui.roomStack d = prev :: prev :: below /\
   Gui.currentRoomIndex d = Z.of_nat prev + 1).
Proof.
  split; cbv zeta.
  - unfold Console.backtrack. rewrite Hcs. simpl.
    rewrite findRoom_in_range by (unfold Console.size in *; lia).
    unfold Console.advanceToNextRoom, Console.size in *. simpl.
    destruct (Z.ltb_spec (Z.of_nat prev)
                (Z.of_nat (List.length (Console.rooms cd)) - 1)); [|lia].
    simpl. split; [|reflexivity].
    now rewrite Z2Nat.inj_add, Nat2Z.id, Nat.add_1_r by lia.
  - unfold Gui.backtrack. rewrite Hgs. simpl.
    rewrite findRoom_in_range by (unfold Gui.getAssetCount in *; lia).
    rewrite gui_advance_in_room by (simpl; lia). simpl.
    now rewrite Nat2Z.id.
Qed.

Lemma advance_after_backtrack_witness :
  let cd := consoleAdvances 3 Console.newDungeon in
  let gd := guiAdvances 3 Gui.newDungeon in
  (Console.roomStack
     (snd (Console.advanceToNextRoom (snd (Console.backtrack cd))))
   = [2; 1; 0]%nat /\
   Console.currentRoomIndex
     (snd (Console.advanceToNextRoom (snd (Console.backtrack cd)))) = 1 + 1) /\
  (Gui.roomStack (snd (Gui.advanceToNextRoom (snd (Gui.backtrack gd))))
   = [1; 1; 0]%nat /\
   Gui.currentRoomIndex
     (snd (Gui.advanceToNextRoom (snd (Gui.backtrack gd)))) = 1 + 1).
Proof.
  cbv zeta.
  apply (advance_after_backtrack (consoleAdvances 3 Console.newDungeon)
           (guiAdvances 3 Gui.newDungeon) 2%nat 1%nat [0%nat]);
    try reflexivity; vm_compute; reflexivity.
Defined.

(** X5: In the SFML build the stack holds the rooms left behind, not the
    current one, so after two or more advances on a new dungeon a backtrack
    does not return the room visited before the current one but the one
    before that; the console build returns the room visited before. *)
Theorem gui_backtrack_skips_a_room (k : nat)
  (Hk : (2 <= k <= 4)%nat) :
  let gd := guiAdvances k Gui.newDungeon in
  let cd := consoleAdvances (S k) Console.newDungeon in
  (Gui.getCurrentRoom gd = Some k /\
   fst (Gui.backtrack gd) = Some (k - 2)%nat /\
   Gui.getCurrentRoom (snd (Gui.backtrack gd)) = Some (k - 2)%nat) /\
  (Console.getCurrentRoom cd = Some k /\
   fst (Console.backtrack cd) = Some (k - 1)%nat /\
   Console.getCurrentRoom (snd (Console.backtrack cd)) = Some (k - 1)%nat).
Proof.
  destruct k as [|[|[|[|[|k]]]]]; try lia; cbv zeta;
    repeat split; reflexivity.
Qed.

Lemma gui_backtrack_skips_a_room_witness :
  let gd := guiAdvances 2 Gui.newDungeon in
  Gui.getCurrentRoom gd = Some 2%nat /\
  fst (Gui.backtrack gd) = Some 0%nat.
Proof.
  cbv zeta.
  destruct (gui_backtrack_skips_a_room 2) as [[H1 [H2 _]] _]; [lia|].
  split; [exact H1|exact H2].
Defined.

(** X6: Advancing on and on: the [k]-th advance on a new dungeon (counting from
    0) returns room [k] in the console build and room [k + 1] in the SFML
    build while there is one, and the null pointer ever after; once the
    catalog is exhausted further advances change nothing, and the stack
    never holds more than the five rooms. *)
Theorem advances_exhaust_the_catalog (k : nat) :
  (fst (Console.advanceToNextRoom (consoleAdvances k Console.newDungeon))
   = (if (k <? 5)%nat then Some k else None) /\
   List.length (Console.roomStack (consoleAdvances k Console.newDungeon))
   = Nat.min k 5 /\
   consoleAdvances (5 + k) Console.newDungeon
   = consoleAdvances 5 Console.newDungeon) /\
  (fst (Gui.advanceToNextRoom (guiAdvances k Gui.newDungeon))
   = (if (k <? 4)%nat then Some (S k) else None) /\
   List.length (Gui.roomStack (guiAdvances k Gui.newDungeon)) = Nat.min k 5 /\
   guiAdvances (5 + k) Gui.newDungeon = guiAdvances 5 Gui.newDungeon).
Proof.
  assert (Hc : forall j, consoleAdvances (5 + j) Console.newDungeon
                         = consoleAdvances 5 Console.newDungeon).
  { induction j as [|j IH]; [reflexivity|].
    change (consoleAdvances (5 + S j) Console.newDungeon)
      with (snd (Console.advanceToNextRoom
                   (consoleAdvances (5 + j) Console.newDungeon))).
    rewrite IH. reflexivity. }
  assert (Hg : forall j, guiAdvances (5 + j) Gui.newDungeon
                         = guiAdvances 5 Gui.newDungeon).
  { induction j as [|j IH]; [reflexivity|].
    change (guiAdvances (5 + S j) Gui.newDungeon)
      with (snd (Gui.advanceToNextRoom (guiAdvances (5 + j) Gui.newDungeon))).
    rewrite IH. reflexivity. }
  destruct k as [|[|[|[|[|k]]]]];
    try (repeat split; solve [reflexivity|apply Hc|apply Hg]).
  change (S (S (S (S (S k))))) with (5 + k)%nat.
  split; (split; [|split]); rewrite ?Hc, ?Hg; try reflexivity;
    rewrite Nat.min_r by lia; reflexivity.
Qed.

(** ** Looking rooms up *)

(** X7: [getCurrentRoom] checks the bounds itself, whatever the index and the
    catalog: the pointer it returns is the one at the index and can be
    dereferenced, and it returns the null pointer exactly when the index is
    not that of a room. *)
Theorem getCurrentRoom_is_safe (cd : Console.Dungeon) (gd : Gui.Dungeon) :
  match Console.getCurrentRoom cd with
  | Some r =>
      Z.of_nat r = Console.currentRoomIndex cd /\
      exists room, Console.deref cd (Some r) = Some room
  | None =>
      Console.currentRoomIndex cd < 0 \/
      Console.size cd <= Console.currentRoomIndex cd
  end /\
  match Gui.getCurrentRoom gd with
  | Some r =>
      Z.of_nat r = Gui.currentRoomIndex gd /\
      exists room, Gui.deref gd (Some r) = Some room
  | None =>
      Gui.currentRoomIndex gd < 0 \/
      Gui.getAssetCount (Gui.roomManager gd) <= Gui.currentRoomIndex gd
  end.
Proof.
  assert (Hnth : forall (l : list Room) (i : Z),
             0 <= i < Z.of_nat (List.length l) ->
             exists room, nth_error l (Z.to_nat i) = Some room).
  { intros l i Hi.
    destruct (nth_error l (Z.to_nat i)) as [room|] eqn:E; [now exists room|].
    apply nth_error_None in E. lia. }
  split.
  - unfold Console.getCurrentRoom, Console.size.
    destruct (Z.leb_spec 0 (Console.currentRoomIndex cd)); simpl; [|now left].
    destruct (Z.ltb_spec (Console.currentRoomIndex cd)
                (Z.of_nat (List.length (Console.rooms cd)))); [|now right].
    split; [lia|]. apply Hnth. lia.
  - unfold Gui.getCurrentRoom, Gui.getAsset, Gui.getAssetCount.
    destruct (Z.leb_spec 0 (Gui.currentRoomIndex gd)); simpl; [|now left].
    destruct (Z.ltb_spec (Gui.currentRoomIndex gd)
                (Z.of_nat (List.length (Gui.assets (Gui.roomManager gd)))));
      [|now right].
    split; [lia|]. apply Hnth. lia.
Qed.

(** X8: [GameAssetManager]: an asset added is found at the index the count had
    before, the count grows by one, and the assets already there stay at
    their indices; an index at or beyond the count throws. *)
Theorem addAsset_then_getAsset (m : Gui.GameAssetManager) (asset : Room)
  (index : Z) :
  Gui.getAssetCount (Gui.addAsset m asset) = Gui.getAssetCount m + 1 /\
  (exists last,
     Gui.getAsset (Gui.addAsset m asset) (Gui.getAssetCount m) = Some last /\
     nth_error (Gui.assets (Gui.addAsset m asset)) last = Some asset) /\
  match Gui.getAsset m index with
  | Some r =>
      Gui.getAsset (Gui.addAsset m asset) index = Some r /\
      nth_error (Gui.assets (Gui.addAsset m asset)) r
      = nth_error (Gui.assets m) r
  | None =>
      index < 0 \/ Gui.getAssetCount m <= index
  end /\
  Gui.getAsset m (Gui.getAssetCount m) = None /\
  Gui.getAsset (Gui.addAsset m asset) (Gui.getAssetCount m + 1) = None.
Proof.
  unfold Gui.getAsset, Gui.getAssetCount, Gui.addAsset in *. simpl.
  rewrite length_app. simpl List.length.
  split; [lia|]. split; [|split].
  - exists (List.length (Gui.assets m)).
    destruct (Z.leb_spec 0 (Z.of_nat (List.length (Gui.assets m)))); [|lia].
    destruct (Z.ltb_spec (Z.of_nat (List.length (Gui.assets m)))
                (Z.of_nat (List.length (Gui.assets m) + 1))); [|lia].
    simpl. rewrite Nat2Z.id. split; [reflexivity|].
    rewrite nth_error_app2 by lia. now rewrite Nat.sub_diag.
  - destruct (Z.leb_spec 0 index); simpl; [|now left].
    destruct (Z.ltb_spec index (Z.of_nat (List.length (Gui.assets m))));
      [|now right].
    destruct (Z.ltb_spec index
                (Z.of_nat (List.length (Gui.assets m) + 1))); [|lia].
    split; [reflexivity|]. apply nth_error_app1; lia.
  - rewrite !Z.ltb_irrefl, !andb_false_r.
    split; [reflexivity|].
    replace (Z.of_nat (List.length (Gui.assets m)) + 1)
      with (Z.of_nat (List.length (Gui.assets m) + 1)) by lia.
    now rewrite Z.ltb_irrefl, andb_false_r.
Qed.

(** ** The player as a class *)

Lemma heal_health (p : Player) (amount : Z) :
  getHealth (heal p amount) = Z.min 100 (getHealth p + amount).
Proof.
  unfold heal, getHealth; simpl.
  destruct (Z.ltb_spec 100 (health (playerBase p) + amount)); lia.
Qed.

Lemma coinsAdded_nonneg (ops : list PlayerOp) :
  Forall boundedOp ops -> 0 <= coinsAdded ops.
Proof.
  induction 1 as [|op ops Hop _ IH]; [reflexivity|].
  destruct op; cbn [coinsAdded boundedOp] in *; lia.
Qed.

(** The calls keep the ranges, and the values of the counters leave room for
    what the calls still to come add or take. *)
Lemma calls_keep_ranges (useMove sortInventory : Player -> Player)
  (M : Z -> Prop) (n : string) (ops : list PlayerOp) :
  (forall q, M (moves q) ->
             M (moves (useMove q)) /\
             moves q - 1 <= moves (useMove q) <= moves q /\
             useMove q = setMoves q (moves (useMove q))) ->
  (forall q, sortInventory q = setInventory q (inventory (sortInventory q))) ->
  Forall boundedOp ops ->
  forall p,
    0 <= getHealth p <= 100 /\
    (0 <= coins p /\ coins p + coinsAdded ops <= intMax) /\
    (0 <= enemiesDefeated p /\
     enemiesDefeated p + Z.of_nat (List.length ops) <= intMax) /\
    (M (moves p) /\
     intMin + Z.of_nat (List.length ops) <= moves p <= 10) /\
    getName p = n ->
    let q := callsPlayer useMove sortInventory ops p in
    0 <= getHealth q <= 100 /\ 0 <= coins q <= intMax /\
    0 <= enemiesDefeated q <= intMax /\
    (M (moves q) /\ intMin <= moves q <= 10) /\ getName q = n.
Proof.
  intros Hmove Hsort Hops.
  induction Hops as [|op ops Hop Hrest IH]; intros p Hp.
  { cbv zeta. cbn [callsPlayer fold_left coinsAdded List.length] in *.
    change (Z.of_nat 0) with 0 in Hp.
    destruct Hp as [Hh [[Hc Hc'] [[He He'] [[Hm Hm'] Hn]]]].
    repeat split; trivial; lia. }
  cbv zeta. cbn [callsPlayer fold_left]. apply IH. clear IH.
  pose proof (coinsAdded_nonneg ops Hrest) as Hsum.
  destruct Hp as [Hh [[Hc Hc'] [[He He'] [[Hm Hm'] Hn]]]].
  change (List.length (op :: ops)) with (S (List.length ops)) in *.
  rewrite Nat2Z.inj_succ in *.
  destruct op; cbn [callPlayer boundedOp coinsAdded] in *.
  - rewrite heal_health. unfold heal, getName in *;
      cbn [playerBase health name inventory moves coins
             enemiesDefeated setBase setInventory setMoves].
    repeat split; trivial; lia.
  - assert (E : getHealth (playerTakeDamage p damage)
                = Z.max 0 (getHealth p - damage))
      by apply takeDamage_health.
    rewrite E. unfold playerTakeDamage, setBase, getName in *;
      cbn [playerBase health name inventory moves coins
             enemiesDefeated setBase setInventory setMoves].
    repeat split; trivial; lia.
  - unfold addToInventory, setInventory, getHealth, getName in *;
      cbn [playerBase health name inventory moves coins
             enemiesDefeated setBase setInventory setMoves].
    repeat split; trivial; lia.
  - unfold addCoins, getHealth, getName in *;
      cbn [playerBase health name inventory moves coins
             enemiesDefeated setBase setInventory setMoves].
    repeat split; trivial; lia.
  - destruct (Hmove p Hm) as [HM [Hstep E]]. rewrite E.
    unfold setMoves, getHealth, getName in *;
      cbn [playerBase health name inventory moves coins
             enemiesDefeated setBase setInventory setMoves].
    repeat split; trivial; lia.
  - unfold incrementEnemiesDefeated, getHealth, getName in *;
      cbn [playerBase health name inventory moves coins
             enemiesDefeated setBase setInventory setMoves].
    repeat split; trivial; lia.
  - rewrite Hsort. unfold setInventory, getHealth, getName in *;
      cbn [playerBase health name inventory moves coins
             enemiesDefeated setBase setInventory setMoves].
    repeat split; trivial; lia.
Qed.

(** X9: calls of the members of [Player], from a new player on, keep the
    health between 0 and 100, coins and defeated enemies between 0 and
    [INT_MAX], the moves at 10 or less and the name as it is, in both
    builds; in the SFML build the moves stay at or above 0 as well.  The
    calls pass no negative amount; and, so that no [int] of the source
    overflows, no amount above [INT_MAX] (less 100 for [heal]), coins that
    add up to at most [INT_MAX], and they are at most [INT_MAX] calls. *)
Theorem player_members_keep_ranges (n : string) (ops : list PlayerOp)
  (Hops : Forall boundedOp ops)
  (Hcoins : coinsAdded ops <= intMax)
  (Hcalls : Z.of_nat (List.length ops) <= intMax) :
  let c := callsPlayer Console.useMove Console.sortInventory ops (newPlayer n) in
  let g := callsPlayer Gui.useMove Gui.sortInventory ops (newPlayer n) in
  (0 <= getHealth c <= 100 /\ 0 <= coins c <= intMax /\
   0 <= enemiesDefeated c <= intMax /\
   intMin <= moves c <= 10 /\ getName c = n) /\
  (0 <= getHealth g <= 100 /\ 0 <= coins g <= intMax /\
   0 <= enemiesDefeated g <= intMax /\
   0 <= moves g <= 10 /\ getName g = n).
Proof.
  cbv zeta.
  assert (Hnew : forall M : Z -> Prop, M 10 ->
            0 <= getHealth (newPlayer n) <= 100 /\
            (0 <= coins (newPlayer n) /\
             coins (newPlayer n) + coinsAdded ops <= intMax) /\
            (0 <= enemiesDefeated (newPlayer n) /\
             enemiesDefeated (newPlayer n) + Z.of_nat (List.length ops)
             <= intMax) /\
            (M (moves (newPlayer n)) /\
             intMin + Z.of_nat (List.length ops) <= moves (newPlayer n)
             <= 10) /\
            getName (newPlayer n) = n).
  { intros M HM. unfold getHealth, getName, newPlayer.
    cbn [playerBase health name inventory moves coins enemiesDefeated].
    unfold intMin, intMax in *. repeat split; trivial; lia. }
  split.
  - assert (Hmove : forall q, True ->
              True /\
              moves q - 1 <= moves (Console.useMove q) <= moves q /\
              Console.useMove q
              = setMoves q (moves (Console.useMove q))).
    { intros q _. unfold Console.useMove, setMoves. cbn [moves].
      split; [exact I|]. split; [lia|reflexivity]. }
    destruct (calls_keep_ranges Console.useMove Console.sortInventory
                (fun _ => True) n ops Hmove (fun q => eq_refl) Hops
                (newPlayer n) (Hnew (fun _ => True) I))
      as [Hh [Hc [He [[_ Hm] Hn]]]].
    repeat split; trivial; lia.
  - assert (Hmove : forall q, 0 <= moves q ->
              0 <= moves (Gui.useMove q) /\
              moves q - 1 <= moves (Gui.useMove q) <= moves q /\
              Gui.useMove q = setMoves q (moves (Gui.useMove q))).
    { intros q Hq. rewrite gui_useMove_moves. unfold Gui.useMove.
      destruct (Z.ltb_spec 0 (moves q)); (split; [lia|]); (split; [lia|]);
        trivial.
      now destruct q. }
    assert (H10 : 0 <= 10) by lia.
    destruct (calls_keep_ranges Gui.useMove Gui.sortInventory
                (fun m => 0 <= m) n ops Hmove (fun q => eq_refl) Hops
                (newPlayer n) (Hnew (fun m => 0 <= m) H10))
      as [Hh [Hc [He [[Hm0 Hm] Hn]]]].
    repeat split; trivial; lia.
Qed.

Lemma player_members_keep_ranges_witness :
  let ops := [TakeDamage 130; Heal 250; AddCoins 5; UseMove; SortInventory] in
  getHealth (callsPlayer Gui.useMove Gui.sortInventory ops (newPlayer "p"))
  <= 100 /\
  0 <= getHealth
         (callsPlayer Console.useMove Console.sortInventory ops (newPlayer "p")).
Proof.
  cbv zeta.
  destruct (player_members_keep_ranges "p"
              [TakeDamage 130; Heal 250; AddCoins 5; UseMove; SortInventory])
    as [[[Hc _] _] [[_ Hg] _]].
  - repeat constructor; vm_compute; discriminate.
  - vm_compute. discriminate.
  - vm_compute. discriminate.
  - split; [exact Hg|exact Hc].
Defined.

(** X10: Damage and healing of the same amount undo each other as long as
    neither limit is met: damage of at most the health and then the healing,
    or healing up to at most 100 and then the damage, give the player
    back. *)
Theorem heal_and_takeDamage_cancel (p : Player) (amount : Z)
  (Hamount : 0 <= amount)
  (Hhealth : getHealth p <= 100) :
  (amount <= getHealth p -> heal (playerTakeDamage p amount) amount = p) /\
  (getHealth p + amount <= 100 -> 0 <= getHealth p ->
   playerTakeDamage (heal p amount) amount = p).
Proof.
  destruct p as [[n h] inv m c e]. unfold getHealth in *; simpl in *.
  split; intros H.
  - unfold heal, playerTakeDamage, takeDamage, setBase, getHealth, getName.
    simpl.
    destruct (Z.ltb_spec (h - amount) 0); [lia|]. simpl.
    destruct (Z.ltb_spec 100 (h - amount + amount)); [lia|].
    do 2 f_equal. lia.
  - intros H0.
    unfold heal, playerTakeDamage, takeDamage, setBase, getHealth, getName.
    simpl.
    destruct (Z.ltb_spec 100 (h + amount)); [lia|]. simpl.
    destruct (Z.ltb_spec (h + amount - amount) 0); [lia|].
    do 2 f_equal. lia.
Qed.

Lemma heal_and_takeDamage_cancel_witness :
  heal (playerTakeDamage (newPlayer "p") 30) 30 = newPlayer "p" /\
  playerTakeDamage (heal (playerTakeDamage (newPlayer "p") 50) 20) 20
  = playerTakeDamage (newPlayer "p") 50.
Proof.
  split.
  - apply (heal_and_takeDamage_cancel (newPlayer "p") 30);
      vm_compute; discriminate.
  - apply (heal_and_takeDamage_cancel (playerTakeDamage (newPlayer "p") 50) 20);
      vm_compute; discriminate.
Defined.

(** ** More on sorting *)

Lemma sort_insert_ext {A : Type} (comp1 comp2 : A -> A -> bool) (x : A)
  (l : list A) :
  (forall y, In y l -> comp1 y x = comp2 y x) ->
  sort_insert comp1 x l = sort_insert comp2 x l.
Proof.
  induction l as [|y l IH]; intros H; simpl; [reflexivity|].
  rewrite (H y) by now left.
  destruct (comp2 y x); [|reflexivity].
  f_equal. apply IH. intros z Hz. apply H. now right.
Qed.

Lemma list_sort_ext {A : Type} (comp1 comp2 : A -> A -> bool) (l : list A) :
  (forall x y, In x l -> In y l -> comp1 x y = comp2 x y) ->
  list_sort comp1 l = list_sort comp2 l.
Proof.
  induction l as [|x l IH]; intros H; simpl; [reflexivity|].
  rewrite IH by (intros y z Hy Hz; apply H; now right).
  apply sort_insert_ext. intros y Hy. apply H; [right|now left].
  eapply Permutation_in; [|exact Hy].
  apply Permutation_sym, list_sort_perm.
Qed.

(** X11: Sorting the inventory a second time changes nothing, in either build
    (the SFML loop sorts in every iteration once the game is over). *)
Theorem sortInventory_twice (p : Player) :
  Console.sortInventory (Console.sortInventory p) = Console.sortInventory p /\
  Gui.sortInventory (Gui.sortInventory p) = Gui.sortInventory p.
Proof.
  unfold Console.sortInventory, Gui.sortInventory, setInventory; simpl.
  split; f_equal; apply list_sort_of_sorted, list_sort_sorted.
  - exact string_lt_asym.
  - exact string_le_trans.
  - exact lowerLess_asym.
  - exact lowerLess_trans.
Qed.

(** On an inventory of items of the catalog's treasures, which all begin
    with a digit or a capital, the two builds sort alike. *)
Lemma treasure_sorts_agree (p : Player) :
  Forall (fun item => In item treasureItems) (inventory p) ->
  Console.sortInventory p = Gui.sortInventory p.
Proof.
  intros Hitems.
  unfold Console.sortInventory, Gui.sortInventory. f_equal.
  apply list_sort_ext. intros x y Hx Hy.
  rewrite Forall_forall in Hitems.
  pose proof (Hitems x Hx) as Hx'. pose proof (Hitems y Hy) as Hy'.
  simpl in Hx', Hy'.
  repeat (destruct Hx' as [<-|Hx']; [|]);
    try contradiction;
    repeat (destruct Hy' as [<-|Hy']; [|]);
    try contradiction; reflexivity.
Qed.

(** ** What a turn does to the player *)

(** The player an action of the console loop leaves is the one before it
    after a won fight, a lost fight, a bypass, or as it was. *)
Lemma console_resolve_cases (choice : Z) (p : Player) (d : Console.Dungeon)
  (room : Room) :
  let p' := fst (fst (Console.resolve choice p d room)) in
  p' = winner p room /\ enemyHealth (enemy room) <= getHealth p /\ choice = 1
  \/ p' = loser p /\ choice = 1
  \/ p' = playerTakeDamage p 5 /\ choice = 2
  \/ p' = p /\ choice <> 1 /\ choice <> 2.
Proof.
  cbv zeta. unfold Console.resolve.
  destruct (Z.eqb_spec choice 1) as [->|H1].
  - destruct (Z.leb_spec (enemyHealth (enemy room)) (getHealth p)).
    + rewrite console_fight_won by assumption. now left.
    + rewrite console_fight_lost by assumption. right; now left.
  - destruct (Z.eqb_spec choice 2) as [->|H2].
    + unfold Console.bypass. destruct (Console.advanceToNextRoom d).
      right; right; now left.
    + destruct (choice =? 3); now repeat right.
Qed.

(** The same for an action of the SFML loop, which always succeeds in a
    sound session in play. *)
Lemma gui_act_cases (choice : Z) (s : Gui.Session) (r : nat) :
  sessionOk s -> Gui.isPlaying s = true -> Gui.currentRoom s = Some r ->
  exists s1 room,
    Gui.act choice s = Some s1 /\ nth_error catalog r = Some room /\
    let p := setMoves (Gui.player s) (moves (Gui.player s) - 1) in
    (Gui.player s1 = winner p room /\
     enemyHealth (enemy room) <= getHealth p /\ choice = 1
     \/ Gui.player s1 = loser p /\ choice = 1
     \/ Gui.player s1 = playerTakeDamage p 5 /\ choice = 2
     \/ Gui.player s1 = p /\ choice <> 1 /\ choice <> 2).
Proof.
  intros Hs Hplay Hcur. pose proof Hs as [Hd [Hp Hturn]].
  destruct (Hturn Hplay) as [Hh [Hm Hr]]. rewrite Hcur in Hr.
  destruct (catalog_room r Hr) as [room [Hroom _]].
  destruct (gui_backtrack_ok _ Hd) as [Hback Hprev].
  unfold Gui.act. rewrite Hcur, (gui_useMove_positive _ Hm).
  destruct (Z.eqb_spec choice 1) as [->|H1].
  { rewrite (gui_deref_catalog _ r Hd), Hroom.
    destruct (Z.leb_spec (enemyHealth (enemy room))
                (getHealth (setMoves (Gui.player s)
                              (moves (Gui.player s) - 1)))).
    - rewrite gui_fight_won by assumption.
      eexists; exists room. split; [reflexivity|]. split; [reflexivity|].
      now left.
    - rewrite gui_fight_lost by assumption.
      eexists; exists room. split; [reflexivity|]. split; [reflexivity|].
      right; now left. }
  destruct (Z.eqb_spec choice 2) as [->|H2].
  { unfold Gui.bypass.
    destruct (Gui.advanceToNextRoom (Gui.dungeon s)) as [next d1].
    eexists; exists room. split; [reflexivity|]. split; [exact Hroom|].
    right; right; now left. }
  destruct (choice =? 3).
  { destruct (Gui.backtrack (Gui.dungeon s)) as [[prev|] d1];
      simpl in Hback, Hprev.
    - rewrite (gui_deref_catalog d1 prev Hback).
      destruct (catalog_room prev Hprev) as [room' [-> _]].
      eexists; exists room. split; [reflexivity|]. split; [exact Hroom|].
      now repeat right.
    - eexists; exists room. split; [reflexivity|]. split; [exact Hroom|].
      now repeat right. }
  destruct (choice =? 4);
    (eexists; exists room; split; [reflexivity|]; split; [exact Hroom|];
     now repeat right).
Qed.

Section GameInvariant.
Variable I : Player -> Prop.
Hypothesis I_sort :
  forall comp p, I p -> I (setInventory p (list_sort comp (inventory p))).
Hypothesis I_moves : forall p m, I p -> I (setMoves p m).
Hypothesis I_win :
  forall p room, I p -> In room catalog ->
                 enemyHealth (enemy room) <= getHealth p -> I (winner p room).
Hypothesis I_damage :
  forall p damage, I p -> 0 <= damage -> I (playerTakeDamage p damage).

(** A property of the player that sorting, spending a move, winning a
    fight of the catalog and taking damage keep is kept by every console
    game. *)
Lemma console_game_keeps (inputs : list Console.Input) (n : string) :
  I (newPlayer n) ->
  exists p',
    consolePlayer (Console.gameLoop inputs (newPlayer n) Console.newDungeon)
    = Some p' /\ I p'.
Proof.
  intros Hnew.
  apply (console_gameLoop_keeps I); trivial.
  - intros p. apply I_sort.
  - intros p Hp _ _. now apply I_moves.
  - intros choice p d room Hp _ _ Hin.
    pose proof (I_moves p (moves p - 1) Hp) as Hp1.
    fold (Console.useMove p) in Hp1.
    destruct (console_resolve_cases choice (Console.useMove p) d room)
      as [[-> [Hw _]]|[[-> _]|[[-> _]|[-> _]]]]; trivial.
    + now apply I_win.
    + rewrite <- lost_fight_player. apply I_damage; [trivial|lia].
    + apply I_damage; [trivial|lia].
  - apply newDungeon_ok.
Qed.

Lemma gui_frame_keeps (choice : Z) (s : Gui.Session) :
  sessionOk s -> I (Gui.player s) ->
  exists s', Gui.frame choice s = Some s' /\ sessionOk s' /\
             I (Gui.player s').
Proof.
  intros Hs Hp.
  assert (Hover : forall x, I (Gui.player x) ->
                            I (Gui.player (Gui.sortWhenOver x))).
  { intros x Hx. unfold Gui.sortWhenOver.
    destruct (Gui.isGameOver x); [apply I_sort|]; exact Hx. }
  assert (Hend : forall x, Gui.player (Gui.checkEnd x) = Gui.player x).
  { intros x. unfold Gui.checkEnd.
    destruct (Gui.isPlaying x); trivial.
    destruct (Gui.currentRoom x); trivial.
    destruct (_ <? _); trivial. now destruct (_ <=? _). }
  destruct (gui_frame_ok choice s Hs) as [s' [E Hs']].
  exists s'. split; [exact E|]. split; [exact Hs'|].
  unfold Gui.frame in E.
  destruct (Gui.isPlaying s) eqn:Eplay;
    [|injection E as <-; now apply Hover].
  destruct (gui_enter_ok s Hs Eplay) as [s0 [r [E0 [Hs0 [Eplay0 [Hr Hp0]]]]]].
  rewrite E0 in E.
  destruct (0 <? choice); [|injection E as <-; apply Hover; now rewrite Hp0].
  destruct (gui_act_cases choice s0 r Hs0 Eplay0 Hr)
    as [s1 [room [E1 [Hroom Hcases]]]].
  rewrite E1 in E. injection E as <-. apply Hover. rewrite Hend.
  cbv zeta in Hcases. rewrite Hp0 in Hcases.
  pose proof (I_moves _ (moves (Gui.player s) - 1) Hp) as Hp1.
  destruct Hcases as [[-> [Hw _]]|[[-> _]|[[-> _]|[-> _]]]]; trivial.
  - apply I_win; trivial. eapply nth_error_In, Hroom.
  - rewrite <- lost_fight_player. apply I_damage; [trivial|lia].
  - apply I_damage; [trivial|lia].
Qed.

(** And by every game of the SFML build. *)
Lemma gui_game_keeps (choices : list Z) (s : Gui.Session) :
  sessionOk s -> I (Gui.player s) ->
  exists s', Gui.gameLoopWithGUI choices s = Some s' /\ sessionOk s' /\
             I (Gui.player s').
Proof.
  revert s. induction choices as [|choice rest IH]; intros s Hs Hp; simpl.
  - now exists s.
  - destruct (gui_frame_keeps choice s Hs Hp) as [s1 [-> [Hs1 Hp1]]].
    now apply IH.
Qed.

End GameInvariant.

(** ** Whole games *)

(** X12: In every game of either build the inventory holds nothing but items of
    the catalog's treasures, and on such an inventory the sort of the
    console build and the case-insensitive sort of the SFML build give the
    same order. *)
Theorem game_inventory_sorts_alike (n : string) (inputs : list Console.Input)
  (choices : list Z) :
  (exists p,
     consolePlayer (Console.gameLoop inputs (newPlayer n) Console.newDungeon)
     = Some p /\
     Forall (fun item => In item treasureItems) (inventory p) /\
     Console.sortInventory p = Gui.sortInventory p) /\
  (exists s,
     Gui.gameLoopWithGUI choices (Gui.startSession n) = Some s /\
     Forall (fun item => In item treasureItems) (inventory (Gui.player s)) /\
     Console.sortInventory (Gui.player s) = Gui.sortInventory (Gui.player s)).
Proof.
  pose (I := fun p : Player =>
               Forall (fun item => In item treasureItems) (inventory p)).
  assert (I_sort : forall comp p,
             I p -> I (setInventory p (list_sort comp (inventory p)))).
  { intros comp p Hp. unfold I in *. cbn [inventory setInventory].
    eapply Permutation_Forall; [apply list_sort_perm|exact Hp]. }
  assert (I_moves : forall p m, I p -> I (setMoves p m)) by (intros; assumption).
  assert (I_win : forall p room, I p -> In room catalog ->
                    enemyHealth (enemy room) <= getHealth p ->
                    I (winner p room)).
  { intros p room Hp Hin _. unfold I, winner in *. cbn [inventory].
    apply Forall_app. split; [exact Hp|].
    constructor; [|constructor; [|constructor]];
      apply in_flat_map; exists room; (split; [exact Hin|]);
      cbn [In]; auto. }
  assert (I_damage : forall p damage, I p -> 0 <= damage ->
                       I (playerTakeDamage p damage))
    by (intros; assumption).
  assert (Hnew : I (newPlayer n)) by constructor.
  split.
  - destruct (console_game_keeps I I_sort I_moves I_win I_damage inputs n Hnew)
      as [p [E Hp]].
    exists p. split; [exact E|]. split; [exact Hp|].
    now apply treasure_sorts_agree.
  - destruct (gui_game_keeps I I_sort I_moves I_win I_damage choices
                (Gui.startSession n) (startSession_ok n) Hnew)
      as [s [E [_ Hp]]].
    exists s. split; [exact E|]. split; [exact Hp|].
    now apply treasure_sorts_agree.
Qed.

(** X13: No game heals the player: every defeated enemy has cost at least 15
    health, so in every game of either build the health is at most 100 less
    15 for each enemy defeated, at most six enemies are defeated and at
    most 60 coins collected. *)
Theorem game_health_pays_for_enemies (n : string)
  (inputs : list Console.Input) (choices : list Z) :
  (exists p,
     consolePlayer (Console.gameLoop inputs (newPlayer n) Console.newDungeon)
     = Some p /\
     getHealth p + 15 * enemiesDefeated p <= 100 /\
     enemiesDefeated p <= 6 /\ coins p <= 60) /\
  (exists s,
     Gui.gameLoopWithGUI choices (Gui.startSession n) = Some s /\
     getHealth (Gui.player s) + 15 * enemiesDefeated (Gui.player s) <= 100 /\
     enemiesDefeated (Gui.player s) <= 6 /\ coins (Gui.player s) <= 60).
Proof.
  pose (I := fun p : Player =>
               0 <= getHealth p /\
               getHealth p + 15 * enemiesDefeated p <= 100 /\
               coins p = 10 * enemiesDefeated p).
  assert (I_sort : forall comp p,
             I p -> I (setInventory p (list_sort comp (inventory p))))
    by (intros; assumption).
  assert (I_moves : forall p m, I p -> I (setMoves p m)) by (intros; assumption).
  assert (I_win : forall p room, I p -> In room catalog ->
                    enemyHealth (enemy room) <= getHealth p ->
                    I (winner p room)).
  { intros p room [H0 [H1 H2]] Hin Hw.
    pose proof (catalog_threshold room Hin) as Ht.
    unfold I, winner, getHealth in *.
    cbn [health playerBase enemiesDefeated coins]. lia. }
  assert (I_damage : forall p damage, I p -> 0 <= damage ->
                       I (playerTakeDamage p damage)).
  { intros p damage [H0 [H1 H2]] Hd.
    unfold I, playerTakeDamage, setBase, getHealth in *.
    cbn [health playerBase enemiesDefeated coins].
    rewrite takeDamage_health. lia. }
  assert (Hnew : I (newPlayer n)).
  { unfold I, getHealth, newPlayer.
    cbn [health playerBase enemiesDefeated coins]. lia. }
  split.
  - destruct (console_game_keeps I I_sort I_moves I_win I_damage inputs n Hnew)
      as [p [E [H0 [H1 H2]]]].
    exists p. split; [exact E|]. lia.
  - destruct (gui_game_keeps I I_sort I_moves I_win I_damage choices
                (Gui.startSession n) (startSession_ok n) Hnew)
      as [s [E [_ [H0 [H1 H2]]]]].
    exists s. split; [exact E|]. lia.
Qed.

Lemma console_resolve_costs_nothing (choice : Z) (p : Player)
  (d : Console.Dungeon) (room : Room) :
  moves (fst (fst (Console.resolve choice p d room))) = moves p.
Proof.
  destruct (console_resolve_cases choice p d room)
    as [[-> _]|[[-> _]|[[-> _]|[-> _]]]]; reflexivity.
Qed.

Lemma gui_sortWhenOver_keeps (s : Gui.Session) :
  Gui.gameState (Gui.sortWhenOver s) = Gui.gameState s /\
  moves (Gui.player (Gui.sortWhenOver s)) = moves (Gui.player s).
Proof. unfold Gui.sortWhenOver. now destruct (Gui.isGameOver s). Qed.

Lemma gui_checkEnd_keeps (s : Gui.Session) :
  Gui.player (Gui.checkEnd s) = Gui.player s /\
  (Gui.gameState (Gui.checkEnd s) = Gui.gameState s \/
   Gui.gameState (Gui.checkEnd s) = Gui.GAME_OVER).
Proof.
  unfold Gui.checkEnd.
  destruct (Gui.isPlaying s); [|now split; [|left]].
  destruct (Gui.currentRoom s); [|now split; [|right]].
  destruct (_ <? _); [now split; [|right]|].
  destruct (_ <=? _); [now split; [|right]|now split; [|left]].
Qed.

(** An iteration of the SFML loop on a sound session in play: it succeeds,
    leaves the game in play or over, and takes one move when a button was
    clicked and none otherwise. *)
Lemma gui_frame_step (choice : Z) (s : Gui.Session) :
  sessionOk s -> Gui.isPlaying s = true ->
  exists s',
    Gui.frame choice s = Some s' /\ sessionOk s' /\
    (Gui.gameState s' = Gui.PLAYING \/ Gui.gameState s' = Gui.GAME_OVER) /\
    moves (Gui.player s')
    = if 0 <? choice then moves (Gui.player s) - 1 else moves (Gui.player s).
Proof.
  intros Hs Hplay.
  destruct (gui_frame_ok choice s Hs) as [s' [E Hs']].
  exists s'. split; [exact E|]. split; [exact Hs'|].
  unfold Gui.frame in E. rewrite Hplay in E.
  destruct (gui_enter_ok s Hs Hplay) as [s0 [r [E0 [Hs0 [Eplay0 [Hr Hp0]]]]]].
  rewrite E0 in E.
  assert (Hstate0 : Gui.gameState s0 = Gui.PLAYING).
  { unfold Gui.isPlaying in Eplay0.
    now destruct (Gui.gameState s0). }
  destruct (0 <? choice).
  - destruct (gui_act_cases choice s0 r Hs0 Eplay0 Hr)
      as [s1 [room [E1 [_ Hcases]]]].
    rewrite E1 in E. injection E as <-.
    destruct (gui_sortWhenOver_keeps (Gui.checkEnd s1)) as [-> ->].
    destruct (gui_checkEnd_keeps s1) as [-> Hstate].
    destruct (gui_act_state choice s0 s1 E1) as [Hstate1 _].
    rewrite Hstate0 in Hstate1. split.
    + destruct Hstate as [-> | ->]; [|now right].
      rewrite Hstate1. destruct (choice =? 4); [now right|now left].
    + cbv zeta in Hcases. rewrite <- Hp0.
      destruct Hcases as [[-> _]|[[-> _]|[[-> _]|[-> _]]]]; reflexivity.
  - injection E as <-.
    destruct (gui_sortWhenOver_keeps s0) as [-> ->].
    split; [now left|now rewrite Hp0].
Qed.

(** X14: every action costs exactly one move, whatever it is, a choice the
    switch does not know included; input that is no number (text, or a
    numeral that does not fit an [int]), and an iteration of the SFML loop
    without a click, cost none. *)
Theorem every_action_costs_one_move (choice : Z) (p : Player)
  (d : Console.Dungeon) (s : Gui.Session)
  (Hint : isInt choice)
  (Hhealth : 20 <= getHealth p) (Hmoves : 0 < moves p)
  (Hd : consoleDungeonOk d)
  (Hs : sessionOk s) (Hplay : Gui.isPlaying s = true) :
  (exists p',
     consolePlayer (Console.gameLoop [Console.Number choice] p d) = Some p' /\
     moves p' = moves p - 1) /\
  (exists d',
     Console.gameLoop [Console.NotANumber] p d = Console.AwaitingInput p d') /\
  (exists s',
     Gui.frame choice s = Some s' /\
     moves (Gui.player s')
     = if 0 <? choice then moves (Gui.player s) - 1
       else moves (Gui.player s)).
Proof.
  assert (Hwait : forall q dq, consoleDungeonOk dq ->
             exists q',
               consolePlayer (Console.gameLoop [] q dq) = Some q' /\ q' = q).
  { intros q dq Hdq. rewrite console_gameLoop_eq.
    destruct (getHealth q <? 20); [now exists q|].
    destruct (moves q <=? 0); [now exists q|].
    destruct (console_enter_room dq Hdq) as [cur [d1 [room [-> [-> _]]]]].
    now exists q. }
  split; [|split].
  - rewrite console_gameLoop_eq.
    destruct (Z.ltb_spec (getHealth p) 20); [lia|].
    destruct (Z.leb_spec (moves p) 0); [lia|].
    destruct (console_enter_room d Hd) as [cur [d1 [room [-> [-> [_ [_ Hd1]]]]]]].
    cbv zeta. destruct (choice =? 4); [now exists (Console.useMove p)|].
    pose proof (console_resolve_costs_nothing choice (Console.useMove p) d1
                  room) as Hcost.
    pose proof (console_resolve_dungeon_ok choice (Console.useMove p) d1 room
                  Hd1) as Hd2.
    destruct (Console.resolve choice (Console.useMove p) d1 room)
      as [[p2 d2] moved]; simpl in Hcost, Hd2.
    destruct moved as [|[r|]];
      try (destruct (Hwait p2 d2 Hd2) as [q' [E ->]];
           exists p2; split; [exact E|exact Hcost]).
    exists (Console.sortInventory p2). split; [reflexivity|exact Hcost].
  - rewrite console_gameLoop_eq.
    destruct (Z.ltb_spec (getHealth p) 20); [lia|].
    destruct (Z.leb_spec (moves p) 0); [lia|].
    destruct (console_enter_room d Hd) as [cur [d1 [room [-> [-> [_ [_ Hd1]]]]]]].
    rewrite console_gameLoop_eq.
    destruct (Z.ltb_spec (getHealth p) 20); [lia|].
    destruct (Z.leb_spec (moves p) 0); [lia|].
    destruct (console_enter_room d1 Hd1) as [cur' [d2 [room' [-> [-> _]]]]].
    now exists d2.
  - destruct (gui_frame_step choice s Hs Hplay) as [s' [E [_ [_ Hm]]]].
    now exists s'.
Qed.

Lemma every_action_costs_one_move_witness :
  (exists p',
     consolePlayer
       (Console.gameLoop [Console.Number 7] (newPlayer "p") Console.newDungeon)
     = Some p' /\ moves p' = 10 - 1) /\
  (exists s',
     Gui.frame 7 (Gui.startSession "p") = Some s' /\
     moves (Gui.player s') = 10 - 1).
Proof.
  destruct (every_action_costs_one_move 7 (newPlayer "p") Console.newDungeon
              (Gui.startSession "p")) as [Hc [_ Hg]].
  - by_evaluation.
  - vm_compute. discriminate.
  - reflexivity.
  - by_evaluation.
  - by_evaluation.
  - reflexivity.
  - split; [exact Hc|exact Hg].
Defined.

Lemma console_game_ends (inputs : list Console.Input) :
  forall p d,
    consoleDungeonOk d -> moves p <= Z.of_nat (numbers inputs) ->
    exists e p' d', Console.gameLoop inputs p d = Console.GameOver e p' d'.
Proof.
  induction inputs as [|i rest IH]; intros p d Hd Hn;
    rewrite console_gameLoop_eq;
    (destruct (Z.ltb_spec (getHealth p) 20); [now eauto|]);
    (destruct (Z.leb_spec (moves p) 0); [now eauto|]);
    destruct (console_enter_room d Hd)
      as [cur [d1 [room [-> [-> [_ [_ Hd1]]]]]]].
  - simpl in Hn. lia.
  - destruct i as [|choice]; [now apply IH|].
    cbv zeta. destruct (choice =? 4); [now eauto|].
    pose proof (console_resolve_costs_nothing choice (Console.useMove p) d1
                  room) as Hcost.
    pose proof (console_resolve_dungeon_ok choice (Console.useMove p) d1 room
                  Hd1) as Hd2.
    destruct (Console.resolve choice (Console.useMove p) d1 room)
      as [[p2 d2] moved]; simpl in Hcost, Hd2.
    assert (Hn2 : moves p2 <= Z.of_nat (numbers rest)).
    { change (numbers (Console.Number choice :: rest))
        with (S (numbers rest)) in Hn.
      simpl in Hcost. clear - Hn Hcost. lia. }
    destruct moved as [|[r|]]; try (now apply IH). now eauto.
Qed.

(** A session that is over stays over, whatever is clicked. *)
Lemma gui_over_stays (choices : list Z) :
  forall s,
    Gui.gameState s = Gui.GAME_OVER ->
    exists s',
      Gui.gameLoopWithGUI choices s = Some s' /\
      Gui.gameState s' = Gui.GAME_OVER.
Proof.
  induction choices as [|choice rest IH]; intros s Hover; [now exists s|].
  simpl. unfold Gui.frame, Gui.isPlaying. rewrite Hover.
  apply IH. now rewrite (proj1 (gui_sortWhenOver_keeps s)).
Qed.

Lemma gui_game_ends (choices : list Z) :
  forall s,
    sessionOk s ->
    Gui.gameState s = Gui.PLAYING ->
    moves (Gui.player s) <= Z.of_nat (clicks choices) ->
    exists s',
      Gui.gameLoopWithGUI choices s = Some s' /\
      Gui.gameState s' = Gui.GAME_OVER.
Proof.
  induction choices as [|choice rest IH]; intros s Hs Hplaying Hn.
  - destruct Hs as [_ [_ Hturn]].
    destruct Hturn as [_ [Hm _]];
      [unfold Gui.isPlaying; now rewrite Hplaying|].
    simpl in Hn. lia.
  - simpl.
    destruct (gui_frame_step choice s Hs) as [s1 [-> [Hs1 [Hstate1 Hm1]]]];
      [unfold Gui.isPlaying; now rewrite Hplaying|].
    destruct Hstate1 as [Hplaying1|Hover1]; [|now apply gui_over_stays].
    apply IH; trivial. cbn [clicks] in Hn. rewrite Hm1.
    destruct (0 <? choice); lia.
Qed.

(** X15: a game is over after ten actions at the latest: the console loop
    has returned once ten numbers were read (a numeral that does not fit an
    [int] is not read as a number), and the SFML loop is in [GAME_OVER]
    once a button was clicked in ten iterations. *)
Theorem game_over_within_ten_actions (n : string)
  (inputs : list Console.Input) (choices : list Z)
  (Hread : Forall intInput inputs)
  (Hinputs : (10 <= numbers inputs)%nat)
  (Hchoices : (10 <= clicks choices)%nat) :
  (exists e p d,
     Console.gameLoop inputs (newPlayer n) Console.newDungeon
     = Console.GameOver e p d) /\
  (exists s,
     Gui.gameLoopWithGUI choices (Gui.startSession n) = Some s /\
     Gui.gameState s = Gui.GAME_OVER).
Proof.
  split.
  - apply console_game_ends; [apply newDungeon_ok|simpl; lia].
  - apply gui_game_ends; [apply startSession_ok|reflexivity|simpl; lia].
Qed.

Lemma game_over_within_ten_actions_witness :
  (exists e p d,
     Console.gameLoop (repeat (Console.Number 3) 10) (newPlayer "p")
       Console.newDungeon = Console.GameOver e p d) /\
  (exists s,
     Gui.gameLoopWithGUI (repeat 3 10) (Gui.startSession "p") = Some s /\
     Gui.gameState s = Gui.GAME_OVER).
Proof.
  apply (game_over_within_ten_actions "p").
  - repeat constructor; vm_compute; discriminate.
  - vm_compute. lia.
  - vm_compute. lia.
Defined.

(** X16: Once the game is over the SFML loop changes nothing any more: the
    first iteration sorts the inventory, and every later one, whatever is
    clicked, leaves the session as it is. *)
Theorem game_over_is_final (s : Gui.Session) (choice : Z) (rest : list Z)
  (Hover : Gui.gameState s = Gui.GAME_OVER) :
  Gui.gameLoopWithGUI (choice :: rest) s = Some (Gui.sortWhenOver s) /\
  Gui.sortWhenOver (Gui.sortWhenOver s) = Gui.sortWhenOver s.
Proof.
  assert (Hfix : Gui.sortWhenOver (Gui.sortWhenOver s) = Gui.sortWhenOver s).
  { unfold Gui.sortWhenOver, Gui.isGameOver. rewrite Hover. simpl.
    unfold Gui.sortInventory, setInventory. simpl.
    rewrite list_sort_of_sorted; [reflexivity|].
    apply list_sort_sorted; [exact lowerLess_asym|exact lowerLess_trans]. }
  split; [|exact Hfix].
  assert (Hframe : forall c x, Gui.gameState x = Gui.GAME_OVER ->
                               Gui.frame c x = Some (Gui.sortWhenOver x)).
  { intros c x Hx. unfold Gui.frame, Gui.isPlaying. now rewrite Hx. }
  simpl. rewrite Hframe by exact Hover.
  assert (Hover' : Gui.gameState (Gui.sortWhenOver s) = Gui.GAME_OVER)
    by (now rewrite (proj1 (gui_sortWhenOver_keeps s))).
  clear Hframe Hover. revert Hfix Hover'.
  generalize (Gui.sortWhenOver s) as x. intros x Hfix Hx.
  induction rest as [|c rest IH]; simpl; [reflexivity|].
  unfold Gui.frame, Gui.isPlaying. rewrite Hx, Hfix. exact IH.
Qed.

Lemma game_over_is_final_witness :
  let s := Gui.gameOver (Gui.startSession "p") (guiText QuitGame) in
  Gui.gameLoopWithGUI [1; 2; 3] s = Some (Gui.sortWhenOver s).
Proof.
  cbv zeta.
  apply (game_over_is_final
           (Gui.gameOver (Gui.startSession "p") (guiText QuitGame)) 1 [2; 3]).
  reflexivity.
Defined.

(** ** The window *)

Lemma string_append_assoc (a b c : string) : (a ++ b) ++ c = a ++ (b ++ c).
Proof. induction a as [|x a IH]; simpl; [reflexivity|now rewrite IH]. Qed.

Lemma string_append_nil (a : string) : a ++ "" = a.
Proof. induction a as [|x a IH]; simpl; [reflexivity|now rewrite IH]. Qed.

Lemma string_length_append (a b : string) :
  String.length (a ++ b) = (String.length a + String.length b)%nat.
Proof. induction a as [|x a IH]; simpl; [reflexivity|now rewrite IH]. Qed.

Lemma substring_prefix (a b : string) :
  substring 0 (String.length a) (a ++ b) = a.
Proof.
  induction a as [|x a IH]; simpl; [now destruct b|now rewrite IH].
Qed.

Lemma pop_back_append (s : string) (c : ascii) :
  Screen.pop_back (s ++ String c "") = s.
Proof.
  induction s as [|a s IH]; [reflexivity|].
  change (Screen.pop_back (String a s ++ String c ""))
    with (match s ++ String c "" with
          | EmptyString => EmptyString
          | String _ _ => String a (Screen.pop_back (s ++ String c ""))
          end).
  rewrite IH. now destruct s.
Qed.

Lemma empty_append (s : string) (c : ascii) :
  Screen.empty (s ++ String c "") = false.
Proof. now destruct s. Qed.

Lemma setState_same (s : Gui.Session) :
  Screen.setState s (Gui.gameState s) = s.
Proof. now destruct s. Qed.

(** Sorting again changes nothing. *)
Lemma gui_sortWhenOver_idem (s : Gui.Session) :
  Gui.sortWhenOver (Gui.sortWhenOver s) = Gui.sortWhenOver s.
Proof.
  unfold Gui.sortWhenOver, Gui.isGameOver.
  destruct (Gui.gameState s) eqn:E; cbn [Gui.gameState]; rewrite ?E;
    try reflexivity.
  unfold Gui.sortInventory, setInventory. cbn [Gui.player inventory playerBase
    moves coins enemiesDefeated Gui.dungeon Gui.gameState Gui.currentRoom
    Gui.message Gui.gameOverMessage].
  rewrite list_sort_of_sorted; [reflexivity|].
  apply list_sort_sorted; [exact lowerLess_asym|exact lowerLess_trans].
Qed.

(** What an iteration of the loop hands on has been through the sort. *)
Lemma gui_frame_sorted (choice : Z) (s s' : Gui.Session) :
  Gui.frame choice s = Some s' -> Gui.sortWhenOver s' = s'.
Proof.
  unfold Gui.frame.
  destruct (Gui.isPlaying s);
    [|intros [= <-]; apply gui_sortWhenOver_idem].
  destruct (Gui.enterFirstRoom s); [|discriminate].
  destruct (0 <? choice); [|intros [= <-]; apply gui_sortWhenOver_idem].
  destruct (Gui.act choice _); [|discriminate].
  intros [= <-]. apply gui_sortWhenOver_idem.
Qed.

(** Outside play an iteration only sorts, and that when the game is
    over. *)
Lemma gui_frame_idle (choice : Z) (s : Gui.Session) :
  Gui.gameState s <> Gui.PLAYING ->
  Gui.frame choice s = Some (Gui.sortWhenOver s).
Proof.
  intros H. unfold Gui.frame, Gui.isPlaying.
  now destruct (Gui.gameState s).
Qed.

Lemma gui_sortWhenOver_early (s : Gui.Session) :
  Gui.gameState s <> Gui.GAME_OVER -> Gui.sortWhenOver s = s.
Proof.
  intros H. unfold Gui.sortWhenOver, Gui.isGameOver.
  now destruct (Gui.gameState s).
Qed.

(** An iteration leaves the state as it is or ends the game. *)
Lemma gui_frame_state (choice : Z) (s s' : Gui.Session) :
  Gui.frame choice s = Some s' ->
  Gui.gameState s' = Gui.gameState s \/ Gui.gameState s' = Gui.GAME_OVER.
Proof.
  assert (Hsort : forall x, Gui.gameState (Gui.sortWhenOver x)
                            = Gui.gameState x)
    by (intros x; apply gui_sortWhenOver_keeps).
  unfold Gui.frame.
  destruct (Gui.isPlaying s); [|intros [= <-]; left; apply Hsort].
  assert (Henter : forall s0, Gui.enterFirstRoom s = Some s0 ->
            Gui.gameState s0 = Gui.gameState s \/
            Gui.gameState s0 = Gui.GAME_OVER).
  { intros s0. unfold Gui.enterFirstRoom.
    destruct (Gui.currentRoom s); [intros [= <-]; now left|].
    destruct (Gui.advanceToNextRoom _) as [[r|] d].
    - destruct (Gui.deref _ _); [|discriminate]. intros [= <-]. now left.
    - intros [= <-]. now right. }
  destruct (Gui.enterFirstRoom s) as [s0|]; [|discriminate].
  specialize (Henter s0 eq_refl).
  destruct (0 <? choice).
  - destruct (Gui.act choice s0) as [s1|] eqn:E1; [|discriminate].
    intros [= <-]. rewrite Hsort.
    destruct (gui_act_state choice s0 s1 E1) as [Hstate1 _].
    destruct (gui_checkEnd_keeps s1) as [_ [-> | ->]]; [|now right].
    rewrite Hstate1. destruct (choice =? 4); [now right|exact Henter].
  - intros [= <-]. now rewrite Hsort.
Qed.

(** A game that is over and sorted stays as it is. *)
Lemma gui_over_fixed (choices : list Z) (s : Gui.Session) :
  Gui.gameState s = Gui.GAME_OVER -> Gui.sortWhenOver s = s ->
  Gui.gameLoopWithGUI choices s = Some s.
Proof.
  intros Hover Hfix. induction choices as [|c rest IH]; [reflexivity|].
  simpl. rewrite gui_frame_idle by (rewrite Hover; discriminate).
  now rewrite Hfix.
Qed.

(** The player keeps the name through an iteration of the loop. *)
Lemma gui_frame_name (choice : Z) (s : Gui.Session) (n : string) :
  sessionOk s -> getName (Gui.player s) = n ->
  exists s', Gui.frame choice s = Some s' /\ sessionOk s' /\
             getName (Gui.player s') = n.
Proof.
  apply (gui_frame_keeps (fun p => getName p = n)).
  - intros comp p H. exact H.
  - intros p m H. exact H.
  - intros p room H _ _. exact H.
  - intros p damage H _. exact H.
Qed.

Section WindowFacts.
Variable startButtonContains : Z -> Z -> bool.
Variable buttonContains : nat -> Z -> Z -> bool.

#[local] Abbreviation handleEvent :=
  (Screen.handleEvent startButtonContains buttonContains).
#[local] Abbreviation pollEvents :=
  (Screen.pollEvents startButtonContains buttonContains).
#[local] Abbreviation pollNameEvents :=
  (Screen.pollNameEvents startButtonContains buttonContains).
#[local] Abbreviation windowLoop :=
  (Screen.gameLoopWithGUI startButtonContains buttonContains).
#[local] Abbreviation nameInput :=
  (Screen.nameInput startButtonContains buttonContains).
#[local] Abbreviation main := (Screen.main startButtonContains buttonContains).
#[local] Abbreviation choiceOf := (Screen.choiceOf buttonContains).

Lemma pollEvents_app (l1 l2 : list Screen.Event) (g : Screen.GUI)
  (st : Gui.GameState) (c : Z) :
  pollEvents (l1 ++ l2) g st c
  = let '(g1, st1, c1) := pollEvents l1 g st c in pollEvents l2 g1 st1 c1.
Proof.
  unfold Screen.pollEvents. rewrite fold_left_app.
  now destruct (fold_left _ l1 _) as [[g1 st1] c1].
Qed.

Lemma pollEvents_cons (e : Screen.Event) (l : list Screen.Event)
  (g : Screen.GUI) (st : Gui.GameState) (c : Z) :
  pollEvents (e :: l) g st c
  = let '(g1, st1, c1) := handleEvent e g st c in pollEvents l g1 st1 c1.
Proof.
  unfold Screen.pollEvents. simpl.
  now destruct (Screen.handleEvent _ _ e g st c) as [[g1 st1] c1].
Qed.

(** A window that is closed stays closed. *)
Lemma handleEvent_closed (e : Screen.Event) (g : Screen.GUI)
  (st : Gui.GameState) (c : Z) :
  Screen.isOpen g = false ->
  Screen.isOpen (fst (fst (handleEvent e g st c))) = false.
Proof.
  intros H. unfold Screen.handleEvent.
  destruct st, e as [|u|[|] x y| |]; cbn; trivial;
    repeat match goal with
      | |- context [if ?b then _ else _] => destruct b
      | |- context [match ?b with Some _ => _ | None => _ end] => destruct b
      end; cbn; trivial.
Qed.

Lemma pollEvents_closed (events : list Screen.Event) :
  forall g st c,
    Screen.isOpen g = false ->
    Screen.isOpen (fst (fst (pollEvents events g st c))) = false.
Proof.
  induction events as [|e rest IH]; intros g st c H; [exact H|].
  rewrite pollEvents_cons.
  pose proof (handleEvent_closed e g st c H) as H1.
  destruct (handleEvent e g st c) as [[g1 st1] c1]. now apply IH.
Qed.


(** Events leave a game in play in play, with the window as it is unless
    one of them closes it. *)
Lemma pollEvents_playing (events : list Screen.Event) :
  forall g c,
    Forall (fun e => e <> Screen.Closed) events ->
    pollEvents events g Gui.PLAYING c
    = (g, Gui.PLAYING, fold_left (Screen.choiceAfter buttonContains) events c).
Proof.
  induction events as [|e rest IH]; intros g c H; [reflexivity|].
  rewrite pollEvents_cons. cbn [fold_left].
  pose proof (Forall_inv H) as He. apply Forall_inv_tail in H.
  assert (E : handleEvent e g Gui.PLAYING c
              = (g, Gui.PLAYING, Screen.choiceAfter buttonContains c e)).
  { unfold Screen.handleEvent, Screen.choiceAfter.
    destruct e as [|u|[|] x y| |]; try reflexivity; [congruence|].
    now destruct (Screen.clickedButton _ _ _). }
  rewrite E. now apply IH.
Qed.

(** Events leave a game that is over as it is, and [choice] too. *)
Lemma pollEvents_over (events : list Screen.Event) :
  forall g c,
    exists g', pollEvents events g Gui.GAME_OVER c = (g', Gui.GAME_OVER, c).
Proof.
  induction events as [|e rest IH]; intros g c; [now exists g|].
  rewrite pollEvents_cons.
  assert (E : exists g1, handleEvent e g Gui.GAME_OVER c
                         = (g1, Gui.GAME_OVER, c)).
  { unfold Screen.handleEvent. destruct e; eauto. }
  destruct E as [g1 ->]. apply IH.
Qed.

(** Without Enter the name input goes on. *)
Lemma pollEvents_name (events : list Screen.Event) :
  forall g c,
    Forall (fun e => e <> Screen.TextEntered 13) events ->
    exists g', pollEvents events g Gui.NAME_INPUT c = (g', Gui.NAME_INPUT, c).
Proof.
  induction events as [|e rest IH]; intros g c H; [now exists g|].
  rewrite pollEvents_cons.
  pose proof (Forall_inv H) as He. apply Forall_inv_tail in H.
  assert (E : exists g1, handleEvent e g Gui.NAME_INPUT c
                         = (g1, Gui.NAME_INPUT, c)).
  { unfold Screen.handleEvent. destruct e as [|u| | |]; eauto.
    destruct (u <? 128)%N; eauto.
    destruct (_ && _); eauto.
    destruct (N.eqb_spec u 13) as [->|_]; [congruence|].
    destruct (_ && _); eauto. }
  destruct E as [g1 ->]. now apply IH.
Qed.

(** What one event does to the state and to [choice]. *)
Lemma handleEvent_forward (e : Screen.Event) (g : Screen.GUI)
  (st : Gui.GameState) (c : Z) :
  let '(g', st', c') := handleEvent e g st c in
  Screen.rank st <= Screen.rank st' <= Screen.rank st + 1 /\
  (st' = Gui.GAME_OVER -> st = Gui.GAME_OVER) /\
  (c' = c \/ (st = Gui.PLAYING /\ 1 <= c' <= 4)) /\
  (st <> Gui.NAME_INPUT -> Screen.enteredName g' = Screen.enteredName g).
Proof.
  assert (Hclick : forall x y i,
            Screen.clickedButton buttonContains x y = Some i ->
            1 <= Z.of_nat i + 1 <= 4).
  { intros x y i. unfold Screen.clickedButton. intros H.
    apply find_some in H. destruct H as [H _].
    repeat (destruct H as [<-|H]; [simpl; lia|]). destruct H. }
  unfold Screen.handleEvent.
  destruct st, e as [|u|[|] x y| |]; cbn [Screen.rank];
    repeat match goal with
      | |- context [if ?b then _ else _] => destruct b
      | |- context [Screen.clickedButton ?f ?x ?y] =>
          let E := fresh "E" in
          destruct (Screen.clickedButton f x y) eqn:E;
          [apply Hclick in E|]
      end;
    cbn [Screen.rank Screen.enteredName Screen.close Screen.setName];
    (split; [lia|]); (split; [congruence|]);
    (split; [auto|congruence || (intros _; reflexivity)]).
Qed.

Lemma pollEvents_forward (events : list Screen.Event) :
  forall g st c,
    let '(g', st', c') := pollEvents events g st c in
    Screen.rank st <= Screen.rank st' /\
    (st' = Gui.GAME_OVER -> st = Gui.GAME_OVER) /\
    (st = Gui.PLAYING \/ st = Gui.GAME_OVER -> st' = st) /\
    (c' = c \/ 1 <= c' <= 4) /\
    (st <> Gui.NAME_INPUT -> Screen.enteredName g' = Screen.enteredName g).
Proof.
  induction events as [|e rest IH]; intros g st c.
  - cbn. repeat split; auto; lia.
  - rewrite pollEvents_cons.
    pose proof (handleEvent_forward e g st c) as H1.
    destruct (handleEvent e g st c) as [[g1 st1] c1].
    specialize (IH g1 st1 c1).
    destruct (pollEvents rest g1 st1 c1) as [[g' st'] c'].
    destruct H1 as [Hr1 [Ho1 [Hc1 Hn1]]].
    destruct IH as [Hr [Ho [Hk [Hc Hn]]]].
    split; [lia|]. split; [auto|]. split; [|split].
    + intros Hst. assert (st1 = st) as ->; [|now apply Hk].
      destruct Hst as [-> | ->], st1; cbn [Screen.rank] in Hr1;
        try reflexivity; try lia. now specialize (Ho1 eq_refl).
    + destruct Hc as [-> |Hc]; [|now right].
      destruct Hc1 as [-> |[_ Hc1]]; [now left|now right].
    + intros Hst. rewrite Hn, Hn1; trivial.
      intros ->. destruct st; cbn [Screen.rank] in Hr1; try lia.
      now apply Hst.
Qed.

(** The loop on a closed window returns at once. *)
Lemma window_loop_closed (frames : list (list Screen.Event))
  (g : Screen.GUI) (s : Gui.Session) :
  Screen.isOpen g = false -> windowLoop frames g s = Some (g, s).
Proof. intros H. destruct frames; simpl; [reflexivity|now rewrite H]. Qed.

(** From the moment the game is in play, the loop over the events is the
    loop over the choices they make. *)
Lemma window_loop_choices (frames : list (list Screen.Event)) :
  forall g s,
    (Gui.gameState s = Gui.PLAYING /\ Screen.isOpen g = true) \/
    (Gui.gameState s = Gui.GAME_OVER /\ Gui.sortWhenOver s = s) ->
    Forall (Forall (fun e => e <> Screen.Closed)) frames ->
    option_map snd (windowLoop frames g s)
    = Gui.gameLoopWithGUI (map choiceOf frames) s.
Proof.
  induction frames as [|events rest IH]; intros g s Hs Hframes;
    [reflexivity|].
  pose proof (Forall_inv Hframes) as Hevents.
  apply Forall_inv_tail in Hframes.
  destruct Hs as [[Hplaying Hopen]|[Hover Hfix]].
  - cbn [Screen.gameLoopWithGUI map Gui.gameLoopWithGUI]. rewrite Hopen.
    rewrite Hplaying, pollEvents_playing by exact Hevents.
    rewrite <- Hplaying, setState_same. fold (choiceOf events).
    destruct (Gui.frame (choiceOf events) s) as [s1|] eqn:E; [|reflexivity].
    apply IH; [|exact Hframes].
    destruct (gui_frame_state _ _ _ E) as [H|H].
    + left. split; [congruence|exact Hopen].
    + right. split; [exact H|now apply gui_frame_sorted in E].
  - rewrite gui_over_fixed by trivial.
    destruct (Screen.isOpen g) eqn:Hopen;
      [|now rewrite window_loop_closed].
    cbn [Screen.gameLoopWithGUI]. rewrite Hopen, Hover.
    destruct (pollEvents_over events g (-1)) as [g1 ->].
    rewrite <- Hover, setState_same.
    rewrite gui_frame_idle by (rewrite Hover; discriminate).
    rewrite Hfix, IH; [now apply gui_over_fixed| |exact Hframes].
    right. now split.
Qed.

(** Typing plain characters appends them to the name. *)
Lemma handleEvent_plain (u : N) (g : Screen.GUI) (c : Z) :
  Screen.plainChar u ->
  handleEvent (Screen.TextEntered u) g Gui.NAME_INPUT c
  = (Screen.setName g
       (Screen.enteredName g ++ String (ascii_of_N u) ""),
     Gui.NAME_INPUT, c).
Proof.
  intros [Hlt [H8 H13]]. unfold Screen.handleEvent.
  destruct (N.ltb_spec u 128); [|lia].
  destruct (N.eqb_spec u 8); [contradiction|].
  destruct (N.eqb_spec u 13); [contradiction|]. reflexivity.
Qed.

Lemma typedText_cons (u : N) (typed : list N) :
  Screen.typedText (u :: typed)
  = String (ascii_of_N u) (Screen.typedText typed).
Proof. reflexivity. Qed.

Lemma pollNameEvents_typing (typed : list N) :
  forall g c,
    Forall Screen.plainChar typed ->
    pollNameEvents (map Screen.TextEntered typed ++ [Screen.TextEntered 13])%list
      g Gui.NAME_INPUT c
    = (Screen.setName g (Screen.enteredName g ++ Screen.typedText typed),
       Gui.INSTRUCTIONS, c).
Proof.
  induction typed as [|u rest IH]; intros g c H.
  - cbn. rewrite string_append_nil. now destruct g.
  - pose proof (Forall_inv H) as Hu. apply Forall_inv_tail in H.
    specialize (IH (Screen.setName g
                      (Screen.enteredName g ++ String (ascii_of_N u) ""))
                  c H).
    unfold Screen.pollNameEvents in *. cbn [map app fold_left].
    rewrite handleEvent_plain by exact Hu. rewrite IH.
    rewrite typedText_cons.
    cbn [Screen.setName Screen.enteredName Screen.isOpen].
    now rewrite string_append_assoc.
Qed.

Lemma typedText_app (a b : list N) :
  Screen.typedText (a ++ b) = Screen.typedText a ++ Screen.typedText b.
Proof.
  induction a as [|u a IH]; [reflexivity|].
  cbn [app]. rewrite !typedText_cons, IH. reflexivity.
Qed.

Lemma pollNameEvents_plain (typed : list N) :
  forall g c,
    Forall Screen.plainChar typed ->
    pollNameEvents (map Screen.TextEntered typed) g Gui.NAME_INPUT c
    = (Screen.setName g (Screen.enteredName g ++ Screen.typedText typed),
       Gui.NAME_INPUT, c).
Proof.
  induction typed as [|u rest IH]; intros g c H.
  - cbn. rewrite string_append_nil. now destruct g.
  - pose proof (Forall_inv H) as Hu. apply Forall_inv_tail in H.
    specialize (IH (Screen.setName g
                      (Screen.enteredName g ++ String (ascii_of_N u) ""))
                  c H).
    unfold Screen.pollNameEvents in *. cbn [map fold_left].
    rewrite handleEvent_plain by exact Hu. rewrite IH.
    rewrite typedText_cons.
    cbn [Screen.setName Screen.enteredName Screen.isOpen].
    now rewrite string_append_assoc.
Qed.

(** The first loop of [main] on a name typed over several iterations and
    confirmed with Enter. *)
Lemma nameInput_typed (earlier : list (list N)) (typed : list N)
  (rest : list (list Screen.Event)) :
  Forall (Forall Screen.plainChar) earlier -> Forall Screen.plainChar typed ->
  forall g,
    Screen.isOpen g = true ->
    nameInput (Screen.nameFrames earlier typed ++ rest) g
    = (Screen.setName g
         (Screen.enteredName g
          ++ Screen.typedText (List.concat earlier ++ typed)),
       rest).
Proof.
  intros Hearlier Htyped. unfold Screen.nameFrames.
  induction earlier as [|chunk earlier IH]; intros g Hopen.
  - cbn [map List.concat app Screen.nameInput]. rewrite Hopen.
    now rewrite pollNameEvents_typing.
  - pose proof (Forall_inv Hearlier) as Hchunk.
    apply Forall_inv_tail in Hearlier.
    cbn [map List.concat app Screen.nameInput]. rewrite Hopen.
    rewrite pollNameEvents_plain by exact Hchunk.
    rewrite IH by trivial.
    cbn [Screen.setName Screen.enteredName Screen.isOpen].
    now rewrite <- app_assoc, (typedText_app chunk), string_append_assoc.
Qed.

Lemma playerName_typed (typed : list N) :
  Screen.playerName (Screen.mkGUI true (Screen.typedText typed))
  = Screen.nameOf typed.
Proof. now destruct typed. Qed.

(** The loop while the name input goes on. *)
Lemma window_loop_name (frames : list (list Screen.Event)) :
  forall g s,
    Gui.gameState s = Gui.NAME_INPUT ->
    Forall (Forall (fun e => e <> Screen.TextEntered 13)) frames ->
    exists g', windowLoop frames g s = Some (g', s).
Proof.
  induction frames as [|events rest IH]; intros g s Hs Hframes;
    [now exists g|].
  pose proof (Forall_inv Hframes) as Hevents.
  apply Forall_inv_tail in Hframes.
  cbn [Screen.gameLoopWithGUI].
  destruct (Screen.isOpen g); [|now exists g].
  rewrite Hs. destruct (pollEvents_name events g (-1) Hevents) as [g1 ->].
  rewrite <- Hs, setState_same.
  rewrite gui_frame_idle by (rewrite Hs; discriminate).
  rewrite gui_sortWhenOver_early by (rewrite Hs; discriminate).
  now apply IH.
Qed.

(** The loop never fails on a session that is sound and, before the game
    starts, still holds the new player and the new dungeon; the player
    keeps the name. *)
Lemma window_loop_runs (n : string) (frames : list (list Screen.Event)) :
  forall g s,
    sessionOk s -> getName (Gui.player s) = n ->
    (Screen.rank (Gui.gameState s) < 2 ->
     Gui.player s = newPlayer n /\ Gui.dungeon s = Gui.newDungeon /\
     Gui.currentRoom s = None) ->
    exists g' s',
      windowLoop frames g s = Some (g', s') /\ sessionOk s' /\
      getName (Gui.player s') = n.
Proof.
  induction frames as [|events rest IH]; intros g s Hs Hn Hnew;
    [now exists g, s|].
  cbn [Screen.gameLoopWithGUI].
  destruct (Screen.isOpen g); [|now exists g, s].
  pose proof (pollEvents_forward events g (Gui.gameState s) (-1)) as Hpoll.
  destruct (pollEvents events g (Gui.gameState s) (-1)) as [[g1 st1] c1].
  destruct Hpoll as [Hrank [Hover [Hkeep _]]].
  assert (Hs1 : sessionOk (Screen.setState s st1)).
  { destruct (Z.ltb_spec (Screen.rank (Gui.gameState s)) 2) as [Hearly|Hlate].
    - destruct (Hnew Hearly) as [Hp [Hd Hr]].
      destruct Hs as [Hd' [Hp' _]].
      split; [exact Hd'|]. split; [exact Hp'|]. intros _.
      cbn [Screen.setState Gui.player Gui.dungeon Gui.currentRoom].
      rewrite Hp, Hd, Hr. by_evaluation.
    - rewrite Hkeep, setState_same; [exact Hs|].
      destruct (Gui.gameState s); cbn [Screen.rank] in Hlate; auto; lia. }
  assert (Hn1 : getName (Gui.player (Screen.setState s st1)) = n)
    by exact Hn.
  destruct (gui_frame_name c1 (Screen.setState s st1) n Hs1 Hn1)
    as [s' [E [Hs' Hn']]].
  rewrite E. apply IH; trivial.
  intros Hearly'.
  assert (Hst' : Gui.gameState s' = st1).
  { destruct (gui_frame_state _ _ _ E) as [H|H]; [exact H|].
    rewrite H in Hearly'. cbn [Screen.rank] in Hearly'. lia. }
  rewrite Hst' in Hearly'.
  rewrite gui_frame_idle, gui_sortWhenOver_early in E;
    try (cbn [Screen.setState Gui.gameState];
         destruct st1; cbn [Screen.rank] in Hearly'; try discriminate; lia).
  injection E as <-. apply Hnew. lia.
Qed.


(** A closing event closes the window for good. *)
Lemma pollEvents_closes (events : list Screen.Event) :
  forall g st c,
    In Screen.Closed events \/
    (st = Gui.GAME_OVER /\
     exists e, In e events /\
               (e = Screen.KeyPressed \/
                exists b x y, e = Screen.MouseButtonPressed b x y)) ->
    Screen.isOpen (fst (fst (pollEvents events g st c))) = false.
Proof.
  induction events as [|e rest IH]; intros g st c H.
  { destruct H as [[]|[_ [e [[] _]]]]. }
  rewrite pollEvents_cons.
  pose proof (handleEvent_closed e g st c) as Hstay.
  pose proof (handleEvent_forward e g st c) as Hfwd.
  assert (Hnow : e = Screen.Closed \/
                 (st = Gui.GAME_OVER /\
                  (e = Screen.KeyPressed \/
                   exists b x y, e = Screen.MouseButtonPressed b x y)) ->
                 Screen.isOpen (fst (fst (handleEvent e g st c))) = false).
  { intros [-> |[-> [-> |[b [x [y ->]]]]]]; [now destruct st| |]; reflexivity. }
  destruct (handleEvent e g st c) as [[g1 st1] c1].
  cbn [fst] in Hstay, Hnow.
  destruct H as [[He|Hin]|[-> [e' [[<- |Hin] He']]]].
  - apply pollEvents_closed. now apply Hnow; left.
  - apply IH. now left.
  - apply pollEvents_closed. apply Hnow. right. now split.
  - apply IH. right. split; [|now exists e'].
    destruct Hfwd as [Hrank _]. destruct st1; cbn [Screen.rank] in Hrank;
      try reflexivity; lia.
Qed.

(** X17: events never take the game back and never end the game, and they
    leave a game in play or over in its state; they set [choice] to a
    button from 1 to 4 or leave it; they
    change the name during the name input only; and they never reopen the
    window. *)
Theorem events_move_the_state_forward (events : list Screen.Event)
  (g : Screen.GUI) (st : Gui.GameState) (c : Z) :
  let '(g', st', c') := pollEvents events g st c in
  Screen.rank st <= Screen.rank st' /\
  (st' = Gui.GAME_OVER -> st = Gui.GAME_OVER) /\
  (st = Gui.PLAYING \/ st = Gui.GAME_OVER -> st' = st) /\
  (c' = c \/ 1 <= c' <= 4) /\
  (st <> Gui.NAME_INPUT -> Screen.enteredName g' = Screen.enteredName g) /\
  (Screen.isOpen g = false -> Screen.isOpen g' = false).
Proof.
  pose proof (pollEvents_forward events g st c) as H.
  pose proof (pollEvents_closed events g st c) as Hc.
  destruct (pollEvents events g st c) as [[g' st'] c'].
  destruct H as [H1 [H2 [H3 [H4 H5]]]]. auto 10.
Qed.

(** X18: whatever the events are, [main] runs to the end of
    [gameLoopWithGUI] without failing; the player has the name the first
    loop of [main] left, or Adventurer when that is empty, and keeps
    it. *)
Theorem main_always_runs (frames : list (list Screen.Event)) :
  exists g s,
    main frames = Some (g, s) /\ sessionOk s /\
    getName (Gui.player s)
    = Screen.playerName (fst (nameInput frames Screen.newGUI)) /\
    getName (Gui.player s) <> "".
Proof.
  unfold Screen.main.
  destruct (nameInput frames Screen.newGUI) as [g0 rest]. cbn [fst].
  destruct (window_loop_runs (Screen.playerName g0) rest g0
              (Gui.mkSession (newPlayer (Screen.playerName g0))
                 Gui.newDungeon Gui.NAME_INPUT None "" ""))
    as [g [s [E [Hs Hn]]]].
  - split; [apply gui_newDungeon_ok|]. split; [apply newPlayer_ok|].
    discriminate.
  - reflexivity.
  - intros _. now repeat split.
  - exists g, s. rewrite Hn.
    split; [exact E|]. split; [exact Hs|]. split; [reflexivity|].
    unfold Screen.playerName.
    now destruct (Screen.enteredName g0).
Qed.

(** X19: while the game is in play and no event closes the window, the loop
    over the events is the loop over the choices: each iteration acts on
    the button of its last click that hit one, and on none without such a
    click. *)
Theorem events_refine_choices (frames : list (list Screen.Event))
  (g : Screen.GUI) (s : Gui.Session)
  (Hopen : Screen.isOpen g = true)
  (Hplaying : Gui.gameState s = Gui.PLAYING)
  (Hframes : Forall (Forall (fun e => e <> Screen.Closed)) frames) :
  option_map snd (windowLoop frames g s)
  = Gui.gameLoopWithGUI (map choiceOf frames) s.
Proof. apply window_loop_choices; auto. Qed.

(** X20: a name typed, over any number of iterations, and confirmed with
    Enter, Enter once more and a click on the start button lead [main] into
    the game with the new player of that name (Adventurer when nothing was
    typed) and the new dungeon. *)
Theorem main_reaches_the_game (earlier : list (list N)) (typed : list N)
  (x y : Z) (frames : list (list Screen.Event))
  (Hearlier : Forall (Forall Screen.plainChar) earlier)
  (Htyped : Forall Screen.plainChar typed)
  (Hstart : startButtonContains x y = true)
  (Hframes : Forall (Forall (fun e => e <> Screen.Closed)) frames) :
  option_map snd
    (main (Screen.nameFrames earlier typed
           ++ [Screen.TextEntered 13]
              :: [Screen.MouseButtonPressed true x y]
              :: frames))
  = Gui.gameLoopWithGUI (-1 :: map choiceOf frames)
      (Gui.startSession (Screen.nameOf (List.concat earlier ++ typed))).
Proof.
  unfold Screen.main. rewrite nameInput_typed by trivial.
  change (Screen.setName Screen.newGUI _)
    with (Screen.mkGUI true
            (Screen.typedText (List.concat earlier ++ typed))).
  rewrite playerName_typed.
  set (n := Screen.nameOf (List.concat earlier ++ typed)).
  set (g := Screen.mkGUI true _).
  assert (Hopen : Screen.isOpen g = true) by reflexivity.
  assert (E1 : pollEvents [Screen.TextEntered 13] g Gui.NAME_INPUT (-1)
               = (g, Gui.INSTRUCTIONS, -1)) by reflexivity.
  assert (E2 : pollEvents [Screen.MouseButtonPressed true x y] g
                 Gui.INSTRUCTIONS (-1)
               = (g, Gui.PLAYING, -1)).
  { unfold Screen.pollEvents, Screen.handleEvent. cbn [fold_left].
    now rewrite Hstart. }
  cbn [Screen.gameLoopWithGUI Gui.gameState]. rewrite Hopen, E1.
  rewrite gui_frame_idle by discriminate.
  rewrite gui_sortWhenOver_early by discriminate.
  cbn [Screen.setState Gui.player Gui.dungeon Gui.currentRoom Gui.message
         Gui.gameOverMessage Gui.gameState].
  rewrite Hopen, E2.
  change (Screen.setState _ Gui.PLAYING) with (Gui.startSession n).
  cbn [Gui.gameLoopWithGUI].
  destruct (Gui.frame (-1) (Gui.startSession n)) as [s1|] eqn:E;
    [|reflexivity].
  apply window_loop_choices; [|exact Hframes].
  destruct (gui_frame_state _ _ _ E) as [H|H].
  - left. now split.
  - right. split; [exact H|now apply gui_frame_sorted in E].
Qed.

(** X21: [gameLoopWithGUI] starts on the name input once more: after the
    name was confirmed in [main], no event but another Enter gets the
    game any further; the session stays as it was made, and what is typed
    meanwhile never reaches the player. *)
Theorem enter_is_needed_twice (earlier : list (list N)) (typed : list N)
  (rest : list (list Screen.Event))
  (Hearlier : Forall (Forall Screen.plainChar) earlier)
  (Htyped : Forall Screen.plainChar typed)
  (Hrest : Forall (Forall (fun e => e <> Screen.TextEntered 13)) rest) :
  exists g,
    main (Screen.nameFrames earlier typed ++ rest)
    = Some (g, Gui.mkSession
                 (newPlayer (Screen.nameOf (List.concat earlier ++ typed)))
                 Gui.newDungeon Gui.NAME_INPUT None "" "").
Proof.
  unfold Screen.main. rewrite nameInput_typed by trivial.
  change (Screen.setName Screen.newGUI _)
    with (Screen.mkGUI true
            (Screen.typedText (List.concat earlier ++ typed))).
  rewrite playerName_typed. now apply window_loop_name.
Qed.

(** X22: during the name input as many backspaces as characters typed give
    the name back, and backspaces on the empty name leave it empty. *)
Theorem backspaces_undo_typing (typed : list N) (g : Screen.GUI) (c : Z)
  (Htyped : Forall Screen.plainChar typed) :
  pollEvents (map Screen.TextEntered typed
              ++ repeat (Screen.TextEntered 8) (List.length typed))%list
    g Gui.NAME_INPUT c
  = (g, Gui.NAME_INPUT, c) /\
  forall k,
    pollEvents (repeat (Screen.TextEntered 8) k) (Screen.setName g "")
      Gui.NAME_INPUT c
    = (Screen.setName g "", Gui.NAME_INPUT, c).
Proof.
  split.
  - revert g. induction typed as [|u rest IH]; intros g; [reflexivity|].
    pose proof (Forall_inv Htyped) as Hu. apply Forall_inv_tail in Htyped.
    cbn [map List.length repeat].
    rewrite repeat_cons. cbn [app].
    rewrite pollEvents_cons, handleEvent_plain by exact Hu.
    rewrite app_assoc, pollEvents_app, IH by exact Htyped.
    unfold Screen.pollEvents, Screen.handleEvent. cbn [fold_left].
    cbn [Screen.setName Screen.enteredName Screen.isOpen N.ltb N.compare
           N.eqb Pos.compare Pos.compare_cont Pos.eqb andb].
    rewrite empty_append, pop_back_append. now destruct g.
  - induction k as [|k IH]; [reflexivity|].
    cbn [repeat]. rewrite pollEvents_cons. exact IH.
Qed.

(** X23: an event that closes the window (the close button at any time, a
    key or mouse button once the game is over) ends the loop with the
    iteration that polls it: the game logic of that iteration still runs,
    later events are not read. *)
Theorem closing_ends_the_loop (events : list Screen.Event)
  (rest : list (list Screen.Event)) (g : Screen.GUI) (s : Gui.Session)
  (Hclose : In Screen.Closed events \/
            (Gui.gameState s = Gui.GAME_OVER /\
             exists e, In e events /\
                       (e = Screen.KeyPressed \/
                        exists b x y, e = Screen.MouseButtonPressed b x y))) :
  windowLoop (events :: rest) g s = windowLoop [events] g s.
Proof.
  cbn [Screen.gameLoopWithGUI].
  destruct (Screen.isOpen g); [|reflexivity].
  pose proof (pollEvents_closes events g (Gui.gameState s) (-1) Hclose) as H.
  destruct (pollEvents events g (Gui.gameState s) (-1)) as [[g1 st1] c1].
  cbn [fst] in H.
  destruct (Gui.frame c1 (Screen.setState s st1)); [|reflexivity].
  now apply window_loop_closed.
Qed.

End WindowFacts.

Lemma events_refine_choices_witness :
  option_map snd
    (Screen.gameLoopWithGUI (fun x y => false) (fun i x y => x =? Z.of_nat i)
       [[Screen.MouseButtonPressed true 0 0]; [Screen.KeyPressed];
        [Screen.MouseButtonPressed true 7 0;
         Screen.MouseButtonPressed true 1 0]]
       Screen.newGUI (Gui.startSession "p"))
  = Gui.gameLoopWithGUI [1; -1; 2] (Gui.startSession "p").
Proof.
  apply (events_refine_choices (fun x y => false)
           (fun i x y => x =? Z.of_nat i)
           [[Screen.MouseButtonPressed true 0 0]; [Screen.KeyPressed];
            [Screen.MouseButtonPressed true 7 0;
             Screen.MouseButtonPressed true 1 0]]
           Screen.newGUI (Gui.startSession "p")).
  - reflexivity.
  - reflexivity.
  - repeat constructor; discriminate.
Defined.

Lemma main_reaches_the_game_witness :
  option_map snd
    (Screen.main (fun x y => true) (fun i x y => x =? Z.of_nat i)
       [[Screen.TextEntered 65]; [];
        [Screen.TextEntered 100; Screen.TextEntered 97;
         Screen.TextEntered 13];
        [Screen.TextEntered 13];
        [Screen.MouseButtonPressed true 5 5];
        [Screen.MouseButtonPressed true 0 0]])
  = Gui.gameLoopWithGUI [-1; 1] (Gui.startSession "Ada").
Proof.
  apply (main_reaches_the_game (fun x y => true)
           (fun i x y => x =? Z.of_nat i) [[65]; []]%N [100; 97]%N 5 5
           [[Screen.MouseButtonPressed true 0 0]]).
  - repeat constructor; discriminate.
  - repeat constructor; discriminate.
  - reflexivity.
  - repeat constructor; discriminate.
Defined.

Lemma enter_is_needed_twice_witness :
  exists g,
    Screen.main (fun x y => true) (fun i x y => x =? Z.of_nat i)
      [[Screen.TextEntered 65]; [Screen.TextEntered 13];
       [Screen.MouseButtonPressed true 5 5; Screen.TextEntered 66]]
    = Some (g, Gui.mkSession (newPlayer "A") Gui.newDungeon Gui.NAME_INPUT
                 None "" "").
Proof.
  apply (enter_is_needed_twice (fun x y => true)
           (fun i x y => x =? Z.of_nat i) [[65]]%N []
           [[Screen.MouseButtonPressed true 5 5; Screen.TextEntered 66]]).
  - repeat constructor; discriminate.
  - constructor.
  - repeat constructor; discriminate.
Defined.

Lemma backspaces_undo_typing_witness :
  Screen.pollEvents (fun x y => true) (fun i x y => x =? Z.of_nat i)
    [Screen.TextEntered 65; Screen.TextEntered 66; Screen.TextEntered 8;
     Screen.TextEntered 8]
    (Screen.mkGUI true "Z") Gui.NAME_INPUT (-1)
  = (Screen.mkGUI true "Z", Gui.NAME_INPUT, -1).
Proof.
  apply (backspaces_undo_typing (fun x y => true)
           (fun i x y => x =? Z.of_nat i) [65; 66]%N
           (Screen.mkGUI true "Z") (-1)).
  repeat constructor; discriminate.
Defined.

Lemma closing_ends_the_loop_witness :
  Screen.gameLoopWithGUI (fun x y => true) (fun i x y => x =? Z.of_nat i)
    [[Screen.MouseButtonPressed true 0 0; Screen.Closed];
     [Screen.MouseButtonPressed true 0 0]]
    Screen.newGUI (Gui.startSession "p")
  = Screen.gameLoopWithGUI (fun x y => true) (fun i x y => x =? Z.of_nat i)
      [[Screen.MouseButtonPressed true 0 0; Screen.Closed]]
      Screen.newGUI (Gui.startSession "p").
Proof.
  apply (closing_ends_the_loop (fun x y => true)
           (fun i x y => x =? Z.of_nat i)
           [Screen.MouseButtonPressed true 0 0; Screen.Closed]
           [[Screen.MouseButtonPressed true 0 0]]
           Screen.newGUI (Gui.startSession "p")).
  left. simpl. auto.
Defined.

(** ** The inventory line *)

Lemma joinItems_acc (inventory : list string) :
  forall acc,
    fold_left (fun invStr item => invStr ++ (item ++ ", ")) inventory acc
    = acc ++ Screen.joinItems inventory.
Proof.
  unfold Screen.joinItems.
  induction inventory as [|item rest IH]; intros acc; cbn [fold_left].
  - now rewrite string_append_nil.
  - rewrite IH, (IH ("" ++ (item ++ ", "))).
    now rewrite string_append_assoc.
Qed.

Lemma joinItems_cons (item : string) (rest : list string) :
  Screen.joinItems (item :: rest) = (item ++ ", ") ++ Screen.joinItems rest.
Proof.
  unfold Screen.joinItems at 1. cbn [fold_left]. now rewrite joinItems_acc.
Qed.

(** The loop leaves the items joined with the separator, and one more
    separator behind them. *)
Lemma joinItems_concat (rest : list string) :
  forall item,
    Screen.joinItems (item :: rest)
    = String.concat ", " (item :: rest) ++ ", ".
Proof.
  induction rest as [|next rest IH]; intros item; rewrite joinItems_cons.
  - cbn [Screen.joinItems fold_left String.concat].
    now rewrite string_append_nil.
  - rewrite IH. change (String.concat ", " (item :: next :: rest))
      with (item ++ ", " ++ String.concat ", " (next :: rest)).
    now rewrite !string_append_assoc.
Qed.

Lemma concat_empty (item : string) (rest : list string) :
  String.concat ", " (item :: rest) = "" -> item :: rest = [""].
Proof.
  destruct rest as [|next rest]; cbn [String.concat].
  - now intros ->.
  - destruct item; discriminate.
Qed.

(** X24: the inventory line shows the items joined with a comma and a
    space.  Cutting the last two characters never reaches past the start
    of the string; the copies that first test the length differ from the
    one that does not on the single empty item only, where they show the
    separator. *)
Theorem inventory_text_joins_items (guarded : bool) (label item : string)
  (rest : list string)
  (Hsize : Z.of_nat (String.length (Screen.joinItems (item :: rest)))
           < 2 ^ 64)
  (Hitems : guarded = true -> item :: rest <> [""]) :
  Screen.inventoryText guarded label (item :: rest)
  = label ++ String.concat ", " (item :: rest) /\
  Screen.inventoryText true label [""] = label ++ ", " /\
  Screen.inventoryText false label [""] = label.
Proof.
  split; [|split; [reflexivity|]].
  - unfold Screen.inventoryText. cbv zeta.
    rewrite joinItems_concat in *.
    set (text := String.concat ", " (item :: rest)) in *.
    rewrite string_length_append in *.
    change (String.length ", ") with 2%nat in *.
    assert (Hcut : Screen.substr0 (text ++ ", ")
                     (Screen.size_t_sub
                        (Z.of_nat (String.length text + 2)) 2) = text).
    { unfold Screen.substr0, Screen.size_t_sub.
      rewrite string_length_append.
      change (String.length ", ") with 2%nat.
      rewrite Z.mod_small by lia.
      replace (Z.to_nat _) with (String.length text) by lia.
      apply substring_prefix. }
    rewrite Hcut. destruct guarded; [|reflexivity].
    destruct (Z.ltb_spec 2 (Z.of_nat (String.length text + 2)));
      [reflexivity|].
    exfalso. apply Hitems; [reflexivity|]. apply concat_empty.
    fold text. destruct text; [reflexivity|]. cbn [String.length] in *. lia.
  - unfold Screen.inventoryText. now rewrite string_append_nil.
Qed.

Lemma inventory_text_joins_items_witness :
  Screen.inventoryText true "Inventory: " ["Shield"; "Sword"]
  = "Inventory: Shield, Sword" /\
  Screen.inventoryText false "Inventory: " ["Shield"; "Sword"]
  = "Inventory: Shield, Sword".
Proof.
  split.
  - apply (inventory_text_joins_items true "Inventory: " "Shield" ["Sword"]).
    + reflexivity.
    + discriminate.
  - apply (inventory_text_joins_items false "Inventory: " "Shield" ["Sword"]).
    + reflexivity.
    + discriminate.
Defined.
